(** * node-acp: the ACP message codec, the property codec, the session
      transport and the client facade, embedded from the sources.

    The sources are src/message.js (message composition and parsing), and
    the TypeScript modules properties.ts, property.ts, session.ts and
    client.ts.  The TypeScript modules import ./message, that is
    src/lib/message.ts, which is not among the sources; message.js is the
    module of that name among the sources.  It works on binary strings:
    its factories and [composeRawPacket] serve the TypeScript callers as
    they are, but its [parseRaw] cannot take the Buffer that client.ts
    hands to [Message.parseRaw].  [MessageTs.parseRaw] stands for the
    missing function.

    Conventions of the embedding.
    - A JavaScript string is the list of its UTF-16 code units ([jsstring]);
      a Node [Buffer] is the list of its bytes ([bytes]).  Both are lists of
      [Z]; a binary string is a string whose code units are all below 256.
    - JavaScript numbers are modelled by [Z] (only integers occur).
    - Synchronous code that may throw returns an [outcome]; asynchronous
      code of the session runs on a [World] and ends in a [step]: it has
      returned, has thrown, or is still suspended.
    - Modules that are imported but not among the sources (./keystream,
      CFLBinaryPList, fast-srp-hap, crypto) are parameters of the sections
      that use them. *)

From Stdlib Require Import ZArith List Lia Bool.
From Stdlib Require String Ascii.
Import ListNotations.
Import String.StringSyntax.
Delimit Scope string_scope with string.
Open Scope Z_scope.

(** ** Strings, buffers and thrown errors *)

Definition jsstring := list Z.
Definition bytes := list Z.

(** A string literal of the sources, as code units. *)
Definition str (s : String.string) : jsstring :=
  map (fun c => Z.of_N (Ascii.N_of_ascii c)) (String.list_ascii_of_string s).
Arguments str s%_string_scope.

Definition jsstring_eqb (a b : jsstring) : bool :=
  if list_eq_dec Z.eq_dec a b then true else false.

Definition is_byte (b : Z) : Prop := 0 <= b < 256.
Definition is_bytes (l : list Z) : Prop := Forall is_byte l.

(** The errors thrown by the sources (one constructor per [throw] site or
    per library exception that the modelled code can raise). *)
Inductive Error : Type :=
| RangeError                                  (* Buffer read/write out of range *)
| HeaderDataMustBe128
| NeedAtLeastHeaderSize
| BadHeaderMagic
| UnknownVersion (v : Z)
| HeaderChecksumMismatch
| StreamHeaderWithData
| BodySizeMismatch
| BodyChecksumMismatch
| UnknownCommand (c : Z)
| BadNameInList (name : jsstring)
| BadTypeInList (name type : jsstring)
| MissingDescriptionInList (name : jsstring)
| InvalidPropertyName (name : jsstring)
| MissingHandler
| InvalidInitialiserValue
| ValidatorNotAFunction                       (* TypeError: calling an array *)
| InvalidValueForValidator (name : jsstring)
| ElementHeaderMustBe12
| UnhandledPropertyType
| ProtocolError (code : Z)                    (* 'Error ' + error_code *)
| PropertyRequestError (name : jsstring) (code : Z) (value : bytes)
| ErrorVerifyingM2
| EncryptionAlreadyEnabled
| CryptoError
| Timeout
| NotConnected.

Inductive outcome (A : Type) : Type :=
| Ret (a : A)
| Throw (e : Error).
Arguments Ret {A} a.
Arguments Throw {A} e.

Definition bind {A B} (c : outcome A) (k : A -> outcome B) : outcome B :=
  match c with
  | Ret a => k a
  | Throw e => Throw e
  end.

Notation "x <- c ;; k" := (bind c (fun x => k))
  (at level 61, c at next level, right associativity).

Definition throws {A} (c : outcome A) : Prop := exists e, c = Throw e.

(** ** Node's Buffer primitives *)

(** [Buffer.alloc(n)]: n zero bytes. *)
Definition Buffer_alloc (n : nat) : bytes := repeat 0 n.

(** [Buffer.from(s, 'binary')]: the low byte of every code unit. *)
Definition Buffer_from_binary (s : jsstring) : bytes :=
  map (fun c => c mod 256) s.

(** [buf.toString('binary')]: one code unit per byte. *)
Definition toString_binary (b : bytes) : jsstring := b.

(** The UTF-16 code units of a code point. *)
Definition code_units (cp : Z) : jsstring :=
  if cp <? 65536 then [cp]
  else [55296 + (cp - 65536) / 1024; 56320 + (cp - 65536) mod 1024].

(** The decoder between two characters reads a byte: an ASCII byte is a
    character; a lead byte opens a sequence, kept as the code point so far,
    the number of bytes still needed and the range allowed for the next
    byte; any other byte is an error. *)
Definition utf8_lead (c : Z) : jsstring * option (Z * Z * Z * Z) :=
  if c <? 128 then ([c], None)
  else if (194 <=? c) && (c <=? 223) then ([], Some (c - 192, 1, 128, 191))
  else if (224 <=? c) && (c <=? 239)
  then ([], Some (c - 224, 2, (if c =? 224 then 160 else 128),
                  (if c =? 237 then 159 else 191)))
  else if (240 <=? c) && (c <=? 244)
  then ([], Some (c - 240, 3, (if c =? 240 then 144 else 128),
                  (if c =? 244 then 143 else 191)))
  else ([65533], None).

(** UTF-8 decoding as V8 does it: every ill-formed sequence, cut at the
    first byte that cannot continue it, becomes one U+FFFD, and that byte
    is read again as the start of a character. *)
Fixpoint utf8_decode (st : option (Z * Z * Z * Z)) (b : bytes) : jsstring :=
  match b with
  | [] => match st with None => [] | Some _ => [65533] end
  | c :: rest =>
      match st with
      | Some (cp, needed, lower, upper) =>
          if (lower <=? c) && (c <=? upper)
          then
            let cp := cp * 64 + (c - 128) in
            if needed =? 1 then code_units cp ++ utf8_decode None rest
            else utf8_decode (Some (cp, needed - 1, 128, 191)) rest
          else
            let (out, st') := utf8_lead c in
            65533 :: out ++ utf8_decode st' rest
      | None =>
          let (out, st') := utf8_lead c in
          out ++ utf8_decode st' rest
      end
  end.

(** [buf.toString()] decodes UTF-8. *)
Definition toString_utf8 (b : bytes) : jsstring := utf8_decode None b.

(** The states of the decoder inside a sequence: the bytes read so far
    and the least byte allowed next leave the code point, once complete,
    outside ASCII. *)
Definition opened (st : Z * Z * Z * Z) : Prop :=
  let '(cp, needed, lower, upper) := st in
  128 <= lower /\ 0 <= cp /\
  (needed = 1 /\ 128 <= cp * 64 + (lower - 128)
   \/ needed = 2 /\ 2 <= cp * 64 + (lower - 128)
   \/ needed = 3 /\ 1 <= cp * 64 + (lower - 128)).

(** A string that begins with a code unit outside ASCII. *)
Definition high_head (s : jsstring) : Prop :=
  exists u tl, s = u :: tl /\ 128 <= u.

(** UTF-8 encoding of one code unit (surrogates are not modelled). *)
Definition utf8_of_unit (c : Z) : bytes :=
  if c <? 128 then [c]
  else if c <? 2048 then [192 + c / 64; 128 + c mod 64]
  else [224 + c / 4096; 128 + (c / 64) mod 64; 128 + c mod 64].

(** The bytes [buf.write(s, off, len)] (UTF-8) stores: whole characters
    only, as long as they fit in [room] bytes. *)
Fixpoint utf8_fit (s : jsstring) (room : nat) : bytes :=
  match s with
  | [] => []
  | c :: s' =>
      let e := utf8_of_unit c in
      if (length e <=? room)%nat then e ++ utf8_fit s' (room - length e)
      else []
  end.

(** Overwrite [buf] from offset [off] with [src], clipped at the end of the
    buffer; the length of the buffer never changes. *)
Definition write_at (off : nat) (src : bytes) (buf : bytes) : bytes :=
  firstn off buf ++ firstn (length buf - off) src ++ skipn (off + length src) buf.

(** [buf.write(s, off, len)] with the default UTF-8 encoding. *)
Definition write_utf8 (s : jsstring) (off len : nat) (buf : bytes) : bytes :=
  write_at off (utf8_fit s (Nat.min len (length buf - off))) buf.

(** [buf.write(s, off, len, 'binary')]. *)
Definition write_binary (s : jsstring) (off len : nat) (buf : bytes) : bytes :=
  write_at off (firstn len (Buffer_from_binary s)) buf.

(** [buf.slice(a, b)] for constant, in-range or clipping offsets. *)
Definition slice (a b : nat) (buf : bytes) : bytes :=
  firstn (b - a) (skipn a buf).

(** Big-endian bytes of an unsigned 32-bit value. *)
Definition be32 (u : Z) : bytes :=
  [u / 16777216 mod 256; u / 65536 mod 256; u / 256 mod 256; u mod 256].

Definition u32_of (b0 b1 b2 b3 : Z) : Z :=
  b0 * 16777216 + b1 * 65536 + b2 * 256 + b3.

Definition writeUInt32BE (v : Z) (off : nat) (buf : bytes) : outcome bytes :=
  if (0 <=? v) && (v <=? 4294967295) && (off + 4 <=? length buf)%nat
  then Ret (write_at off (be32 v) buf)
  else Throw RangeError.

Definition writeInt32BE (v : Z) (off : nat) (buf : bytes) : outcome bytes :=
  if (-2147483648 <=? v) && (v <=? 2147483647) && (off + 4 <=? length buf)%nat
  then Ret (write_at off (be32 (v mod 4294967296)) buf)
  else Throw RangeError.

Definition readUInt32BE (buf : bytes) (off : nat) : outcome Z :=
  match skipn off buf with
  | b0 :: b1 :: b2 :: b3 :: _ => Ret (u32_of b0 b1 b2 b3)
  | _ => Throw RangeError
  end.

Definition readInt32BE (buf : bytes) (off : nat) : outcome Z :=
  u <- readUInt32BE buf off ;;
  Ret (if 2147483648 <=? u then u - 4294967296 else u).

(** [String.prototype.substr(start, length)]; [None] is an omitted length. *)
Definition substr (s : jsstring) (start : Z) (len : option Z) : jsstring :=
  let n := Z.of_nat (length s) in
  let st := if start <? 0 then Z.max (n + start) 0 else Z.min start n in
  let ln := match len with
            | None => n - st
            | Some l => Z.min (Z.max l 0) (n - st)
            end in
  firstn (Z.to_nat ln) (skipn (Z.to_nat st) s).

(** [padEnd(n, '\x00')]. *)
Definition padEnd_nul (s : jsstring) (n : nat) : jsstring :=
  s ++ repeat 0 (n - length s).

(** ** Adler-32 (npm package adler32, RFC 1950) *)

Definition adler32_step (st : Z * Z) (byte : Z) : Z * Z :=
  let a := (fst st + byte) mod 65521 in
  (a, (snd st + a) mod 65521).

Definition adler32_sum (buf : bytes) : Z :=
  let st := fold_left adler32_step buf (1, 0) in
  snd st * 65536 + fst st.

(** ** src/message.js *)

Module MessageJs.

Section HeaderKey.

(** [generateACPKeystream] is imported from './keystream', which is not
    among the sources; it is a parameter of the header-key derivation. *)
Variable generateACPKeystream : Z -> jsstring.

(** [s.charCodeAt(i)]: NaN out of range, which [^] reads as 0. *)
Definition charCodeAt_or0 (s : jsstring) (i : nat) : Z := nth i s 0.

(** [String.fromCharCode(n)]. *)
Definition fromCharCode (n : Z) : Z := n mod 65536.

(** The [for] loop of [generateACPHeaderKey], [i] running from [i] up to
    [password_length - 1] with [fuel] iterations left. *)
Fixpoint header_key_loop (password_key password_buffer : jsstring)
  (i fuel : nat) (encrypted_password_buffer : jsstring) : jsstring :=
  match fuel with
  | O => encrypted_password_buffer
  | S fuel' =>
      header_key_loop password_key password_buffer (S i) fuel'
        (encrypted_password_buffer ++
           [fromCharCode (Z.lxor (charCodeAt_or0 password_key i)
                                 (charCodeAt_or0 password_buffer i))])
  end.

Definition generateACPHeaderKey (password : jsstring) : jsstring :=
  let password_length := 32 in
  let password_key := generateACPKeystream password_length in
  let password_buffer :=
    padEnd_nul (substr password 0 (Some password_length))
               (Z.to_nat password_length) in
  header_key_loop password_key password_buffer 0 (Z.to_nat password_length) [].

End HeaderKey.

Definition HEADER_MAGIC : jsstring := str "acpp".
Definition HEADER_SIZE : nat := 128.

Record Message : Type := mkMessage {
  version : Z;
  flags : Z;
  unused : Z;
  command : Z;
  error_code : Z;
  body_size : Z;
  body_checksum : Z;
  key : jsstring;
  body : option jsstring
}.

(** [new Message(version, flags, unused, command, error_code, key, body,
    body_size)]; [None] stands for an [undefined] argument. *)
Definition new_Message (version flags unused command error_code : Z)
  (key : jsstring) (body : option jsstring) (body_size : option Z) : Message :=
  match body with
  | None =>
      mkMessage version flags unused command error_code
        (match body_size with Some n => n | None => -1 end)
        1 key body
  | Some b =>
      mkMessage version flags unused command error_code
        (match body_size with Some n => n | None => Z.of_nat (length b) end)
        (adler32_sum (Buffer_from_binary b)) key body
  end.

Record HeaderData : Type := mkHeaderData {
  h_magic : jsstring;
  h_version : Z;
  h_header_checksum : Z;
  h_body_checksum : Z;
  h_body_size : Z;
  h_flags : Z;
  h_unused : Z;
  h_command : Z;
  h_error_code : Z;
  h_key : jsstring;
  h_pad1 : jsstring;
  h_pad2 : jsstring
}.

Definition unpackHeader (header_data : jsstring) : outcome HeaderData :=
  if negb (length header_data =? HEADER_SIZE)%nat then Throw HeaderDataMustBe128
  else
    let buffer := Buffer_from_binary header_data in
    let magic := toString_utf8 (slice 0 4 buffer) in
    version <- readInt32BE buffer 4 ;;
    header_checksum <- readUInt32BE buffer 8 ;;
    body_checksum <- readUInt32BE buffer 12 ;;
    body_size <- readInt32BE buffer 16 ;;
    flags <- readInt32BE buffer 20 ;;
    unused <- readInt32BE buffer 24 ;;
    command <- readInt32BE buffer 28 ;;
    error_code <- readInt32BE buffer 32 ;;
    let pad1 := toString_binary (slice 36 (36 + 12) buffer) in
    let key := toString_binary (slice 48 (48 + 32) buffer) in
    let pad2 := toString_binary (slice 80 (80 + 48) buffer) in
    Ret (mkHeaderData magic version header_checksum body_checksum body_size
           flags unused command error_code key pad1 pad2).

(** [x || ''.padEnd(n, '\u0000')]: the empty string is falsy. *)
Definition or_nuls (x : jsstring) (n : nat) : jsstring :=
  match x with
  | [] => padEnd_nul [] n
  | _ => x
  end.

Definition packHeader (header_data : HeaderData) : outcome jsstring :=
  let buffer := Buffer_alloc 128 in
  let buffer := write_utf8 (h_magic header_data) 0 4 buffer in
  buffer <- writeInt32BE (h_version header_data) 4 buffer ;;
  buffer <- writeUInt32BE (h_header_checksum header_data) 8 buffer ;;
  buffer <- writeUInt32BE (h_body_checksum header_data) 12 buffer ;;
  buffer <- writeInt32BE (h_body_size header_data) 16 buffer ;;
  buffer <- writeInt32BE (h_flags header_data) 20 buffer ;;
  buffer <- writeInt32BE (h_unused header_data) 24 buffer ;;
  buffer <- writeInt32BE (h_command header_data) 28 buffer ;;
  buffer <- writeInt32BE (h_error_code header_data) 32 buffer ;;
  let buffer := write_binary (or_nuls (h_pad1 header_data) 12) 36 (36 + 12) buffer in
  let buffer := write_binary (h_key header_data) 48 (48 + 32) buffer in
  let buffer := write_binary (or_nuls (h_pad2 header_data) 48) 80 (80 + 48) buffer in
  Ret (toString_binary buffer).

Definition versions : list Z := [1; 196609].
Definition commands : list Z := [1; 3; 4; 5; 6; 20; 21; 22; 23; 24; 25; 26; 27].

Definition includes (l : list Z) (x : Z) : bool := existsb (Z.eqb x) l.

(** Truthiness of a possibly [undefined] string. *)
Definition truthy (s : option jsstring) : bool :=
  match s with
  | Some (_ :: _) => true
  | _ => false
  end.

Definition str_length (s : option jsstring) : Z :=
  match s with
  | Some s => Z.of_nat (length s)
  | None => 0
  end.

Inductive Parsed : Type :=
| PMessage (m : Message)
| PWithRemaining (m : Message) (remaining : jsstring).

(** The message of a result of [parseRaw]; without [return_remaining]
    the result is the message itself. *)
Definition message_of (p : Parsed) : Message :=
  match p with
  | PMessage m => m
  | PWithRemaining m _ => m
  end.

Definition parseRaw (data : jsstring) (return_remaining : bool) : outcome Parsed :=
  if (length data <? HEADER_SIZE)%nat then Throw NeedAtLeastHeaderSize
  else
    let header_data := substr data 0 (Some (Z.of_nat HEADER_SIZE)) in
    let body_data :=
      if (HEADER_SIZE <? length data)%nat
      then Some (substr data (Z.of_nat HEADER_SIZE) None) else None in
    h <- unpackHeader header_data ;;
    if negb (jsstring_eqb (h_magic h) HEADER_MAGIC) then Throw BadHeaderMagic
    else if negb (includes versions (h_version h)) then Throw (UnknownVersion (h_version h))
    else
      tmphdr <- packHeader
        (mkHeaderData (h_magic h) (h_version h) 0 (h_body_checksum h)
           (h_body_size h) (h_flags h) (h_unused h) (h_command h)
           (h_error_code h) (h_key h) (h_pad1 h) (h_pad2 h)) ;;
      let expected_header_checksum := adler32_sum (Buffer_from_binary tmphdr) in
      if negb (h_header_checksum h =? expected_header_checksum)
      then Throw HeaderChecksumMismatch
      else
        let body_data :=
          if truthy body_data && return_remaining
          then match body_data with
               | Some b => Some (substr b 0 (Some (h_body_size h)))
               | None => None
               end
          else body_data in
        if truthy body_data && (h_body_size h =? -1) then Throw StreamHeaderWithData
        else if truthy body_data && negb (h_body_size h =? str_length body_data)
        then Throw BodySizeMismatch
        else if truthy body_data &&
                negb (h_body_checksum h =?
                      adler32_sum (Buffer_from_binary
                                     (match body_data with Some b => b | None => [] end)))
        then Throw BodyChecksumMismatch
        else if negb (includes commands (h_command h))
        then Throw (UnknownCommand (h_command h))
        else
          let message := new_Message (h_version h) (h_flags h) (h_unused h)
                           (h_command h) (h_error_code h) (h_key h)
                           body_data (Some (h_body_size h)) in
          if return_remaining
          then Ret (PWithRemaining message
                      (substr data (Z.of_nat HEADER_SIZE + h_body_size h) None))
          else Ret (PMessage message).

Definition composeHeader (m : Message) : outcome jsstring :=
  tmphdr <- packHeader
    (mkHeaderData HEADER_MAGIC (version m) 0 (body_checksum m) (body_size m)
       (flags m) (unused m) (command m) (error_code m) (key m) [] []) ;;
  packHeader
    (mkHeaderData HEADER_MAGIC (version m)
       (adler32_sum (Buffer_from_binary tmphdr))
       (body_checksum m) (body_size m)
       (flags m) (unused m) (command m) (error_code m) (key m) [] []).

Definition composeRawPacket (m : Message) : outcome jsstring :=
  reply <- composeHeader m ;;
  if truthy (body m)
  then Ret (reply ++ match body m with Some b => b | None => [] end)
  else Ret reply.

Section Commands.

Variable generateACPKeystream : Z -> jsstring.

(** The [compose...Command] factories differ only in the command number. *)
Definition composeCommand (command flags : Z) (password : jsstring)
  (payload : option jsstring) : Message :=
  new_Message 196609 flags 0 command 0
    (generateACPHeaderKey generateACPKeystream password) payload None.

Definition composeGetPropCommand := composeCommand 20.
Definition composeSetPropCommand := composeCommand 21.

Definition composeFeatCommand (flags : Z) (payload : option jsstring) : Message :=
  new_Message 196609 flags 0 27 0
    (generateACPHeaderKey generateACPKeystream []) payload None.

End Commands.

End MessageJs.

(** ** ./message as client.ts calls it *)

Module MessageTs.

(** Modelled from the spec: [Message.parseRaw] of src/lib/message.ts,
    which client.ts imports as './message' and calls on a received
    Buffer; the file is not among the sources, and [parseRaw] of
    src/message.js, called on a Buffer, would throw a TypeError at
    [data.substr].  The spec states the parsing contract on the bytes of
    a packet (magic, version, header checksum, command, body size and
    body checksum); the function is modelled by that contract as
    [MessageJs.parseRaw] carries it out, on the binary string of the
    bytes received. *)
Definition parseRaw (data : bytes) : outcome MessageJs.Parsed :=
  MessageJs.parseRaw (toString_binary data) false.

End MessageTs.

(** ** The header layout, read off the table of the format

    These definitions follow the documented layout (offsets and widths of
    the 128-byte header), independently of [packHeader] / [unpackHeader];
    the theorems relate the two. *)

Module MessageSpec.
Import MessageJs.

Definition in_i32 (v : Z) : Prop := -2147483648 <= v <= 2147483647.
Definition in_u32 (v : Z) : Prop := 0 <= v <= 4294967295.

(** The unsigned big-endian 32-bit field at offset [off]. *)
Definition field_u32 (h : bytes) (off : nat) : Z :=
  match skipn off h with
  | b0 :: b1 :: b2 :: b3 :: _ => u32_of b0 b1 b2 b3
  | _ => 0
  end.

(** The same field read as a two's-complement value. *)
Definition field_i32 (h : bytes) (off : nat) : Z :=
  let u := field_u32 h off in
  if 2147483648 <=? u then u - 4294967296 else u.

(** The header with the four bytes of its checksum field (offset 8) zeroed. *)
Definition zero_checksum_field (h : bytes) : bytes :=
  firstn 8 h ++ [0; 0; 0; 0] ++ skipn 12 h.

(** The twelve fields of a header, by offset. *)
Definition fields_of (h : bytes) : HeaderData :=
  mkHeaderData (toString_utf8 (firstn 4 h)) (field_i32 h 4) (field_u32 h 8)
    (field_u32 h 12) (field_i32 h 16) (field_i32 h 20) (field_i32 h 24)
    (field_i32 h 28) (field_i32 h 32) (slice 48 80 h) (slice 36 48 h)
    (slice 80 128 h).

(** The 128 bytes a header record serialises to. *)
Definition layout (hd : HeaderData) : bytes :=
  str "acpp" ++ be32 (h_version hd mod 4294967296) ++ be32 (h_header_checksum hd)
    ++ be32 (h_body_checksum hd) ++ be32 (h_body_size hd mod 4294967296)
    ++ be32 (h_flags hd mod 4294967296) ++ be32 (h_unused hd mod 4294967296)
    ++ be32 (h_command hd mod 4294967296) ++ be32 (h_error_code hd mod 4294967296)
    ++ or_nuls (h_pad1 hd) 12 ++ h_key hd ++ or_nuls (h_pad2 hd) 48.

Definition header_of (data : jsstring) : bytes := firstn 128 data.
Definition body_of (data : jsstring) : bytes := skipn 128 data.

(** A body is supplied when bytes follow the header. *)
Definition has_body (data : jsstring) : Prop := (128 < length data)%nat.

(** The eight documented reasons for [parseRaw] to fail. *)
Definition parse_fails (data : jsstring) : Prop :=
  (length data < 128)%nat
  \/ firstn 4 (header_of data) <> str "acpp"
  \/ ~ In (field_i32 (header_of data) 4) versions
  \/ field_u32 (header_of data) 8
       <> adler32_sum (zero_checksum_field (header_of data))
  \/ ~ In (field_i32 (header_of data) 28) commands
  \/ (has_body data /\
        Z.of_nat (length (body_of data)) <> field_i32 (header_of data) 16)
  \/ (has_body data /\
        adler32_sum (body_of data) <> field_u32 (header_of data) 12)
  \/ (has_body data /\ field_i32 (header_of data) 16 = -1).

(** The message a well-formed packet denotes: the header fields, and the
    bytes after the header as body when there are any. *)
Definition parsed_message (data : jsstring) : Message :=
  let h := header_of data in
  new_Message (field_i32 h 4) (field_i32 h 20) (field_i32 h 24) (field_i32 h 28)
    (field_i32 h 32) (slice 48 80 h)
    (if (128 <? length data)%nat then Some (body_of data) else None)
    (Some (field_i32 h 16)).

(** The header record [composeHeader] packs for a message, with
    [header_checksum] set to [hc]. *)
Definition header_record (m : Message) (hc : Z) : HeaderData :=
  mkHeaderData HEADER_MAGIC (version m) hc (body_checksum m) (body_size m)
    (flags m) (unused m) (command m) (error_code m) (key m) [] [].

(** Messages whose fields fit the header encoding. *)
Record encodable (m : Message) : Prop := {
  enc_version : in_i32 (version m);
  enc_flags : in_i32 (flags m);
  enc_unused : in_i32 (unused m);
  enc_command : in_i32 (command m);
  enc_error_code : in_i32 (error_code m);
  enc_body_size : in_i32 (body_size m);
  enc_body_checksum : in_u32 (body_checksum m);
  enc_key_length : length (key m) = 32%nat;
  enc_key_bytes : is_bytes (key m)
}.

(** A GetProp request carrying the four bytes "syAP", as sent on the
    wire. *)
Definition sample_packet : jsstring :=
  Eval vm_compute in
    match composeRawPacket
            (new_Message 196609 4 0 20 0 (repeat 0 32) (Some (str "syAP")) None) with
    | Ret raw => raw
    | Throw _ => []
    end.

End MessageSpec.

(** ** The header key, as documented *)

Module HeaderKeySpec.

Definition is_units (s : jsstring) : Prop := Forall (fun c => 0 <= c < 65536) s.

(** Byte-for-byte XOR of two sequences. *)
Definition xor_with (a b : list Z) : list Z :=
  map (fun p => Z.lxor (fst p) (snd p)) (combine a b).

(** The first 32 bytes of the keystream XORed with the password truncated
    to 32 and right-padded with NUL to 32. *)
Definition spec_header_key (keystream password : jsstring) : jsstring :=
  xor_with (firstn 32 keystream)
    (firstn 32 password ++ repeat 0 (32 - length (firstn 32 password))).

(** A keystream to run the derivation on. *)
Definition sample_keystream (n : Z) : jsstring :=
  map (fun i => 3 * Z.of_nat i + 1) (seq 0 (Z.to_nat n)).

End HeaderKeySpec.

(** ** properties.ts: the property catalogue *)

Module PropertiesTs.

(** The three forms of validator the catalogue uses. *)
Inductive Validator : Type :=
| VRange (from to : Z)        (* Validators.range(from, to) *)
| VValues (accepted : list Z) (* an array literal such as [0, 1] *)
| VLengthIs (n : Z).          (* value => value.length === n *)

(** [Prop<T>]: the triple [type, description, validator]. *)
Definition Prop_ : Type := (jsstring * jsstring * option Validator)%type.

Definition entry (name type description : String.string)
  (validator : option Validator) : jsstring * Prop_ :=
  (str name, (str type, str description, validator)).
Arguments entry (name type description)%_string_scope validator.

(** [Validators.range]: big-endian value of the whole buffer, which
    [readUIntBE] accepts for 1 to 6 bytes only. *)
Definition readUIntBE_all (value : bytes) : outcome Z :=
  if (1 <=? length value)%nat && (length value <=? 6)%nat
  then Ret (fold_left (fun acc b => acc * 256 + b) value 0)
  else Throw RangeError.

(** The entries of [_props], in source order (the order of
    [Object.entries]); commented-out entries are absent. *)
Definition acp_properties : list (jsstring * Prop_) := [
  entry "buil" "str" "Build string?" None;
  entry "DynS" "cfb" "DNS/Bonjour" None;
  entry "cfpf" "cfb" "??" None;
  entry "cloD" "cfb" "??" None;
  entry "fire" "cfb" "Firewall" None;
  entry "srcv" "str" "Source version" None;
  entry "syNm" "str" "Device name" None;
  entry "syPW" "str" "Router administration password" None;
  entry "syPR" "str" "syPR string???" None;
  entry "syGP" "str" "Router guest password???" None;
  entry "syDs" "str" "System description" None;
  entry "syVs" "str" "System version" None;
  entry "syVr" "str" "System version???" None;
  entry "syIn" "str" "System information???" None;
  entry "syFl" "hex" "????" None;
  entry "syAM" "str" "Model identifier" None;
  entry "syAP" "u32" "Product ID" None;
  entry "sySN" "str" "Serial number" None;
  entry "ssSK" "str" "Apple SKU" None;
  entry "syRe" "u32" "Country" (Some (VRange 0 54));
  entry "syLR" "cfb" "syLR blob" None;
  entry "syAR" "cfb" "syAR blob" None;
  entry "syUT" "u32" "System uptime" None;
  entry "minS" "str" "apple-minver" None;
  entry "chip" "str" "SoC description" None;
  entry "card" "str" "Hareware information??" None;
  entry "sySI" "cfb" "System info blob?" None;
  entry "TMEn" "hex" "TMEn???" None;
  entry "CLTM" "cfb" "CLTM???" None;
  entry "sPLL" "cfb" "??" None;
  entry "sySt" "cfb" "System Sstatus" None;
  entry "syIg" "cfb" "Ignored status codes" None;
  entry "syBL" "str" "Bootloader version string" None;
  entry "time" "u32" "System time" None;
  entry "timz" "cfb" "Timezone config blob" None;
  entry "usrd" "cfb" "Disk Sharing users" None;
  entry "uuid" "uid" "Device UUID" None;
  entry "sttE" "boo" "Send AirPort Analytics data to Apple" None;
  entry "stat" "cfb" "System debug data" None;
  entry "dSpn" "cfb" "Disk spin status?" None;
  entry "syMS" "str" "MLB serial number" None;
  entry "IGMP" "boo" "Enable IGMP Snooping" None;
  entry "diag" "ui8" "diag???" None;
  entry "raNm" "str" "Radio name" None;
  entry "raMA" "mac" "Wi-Fi MAC address" None;
  entry "raDS" "boo" "Enable DHCP server" None;
  entry "raNA" "boo" "Enable NAT" None;
  entry "raPo" "str" "Transmit Power" None;
  entry "raSL" "cfb" "Connected Wi-Fi clients" None;
  entry "raSR" "cfb" "Wi-Fi scan results" None;
  entry "WiFi" "cfb" "Wi-Fi configuration" None;
  entry "rCAL" "cfb" "Radio calibration data?" None;
  entry "peUN" "str" "PPPoE username" None;
  entry "pePW" "str" "PPPoE password" None;
  entry "waCV" "hex" "WAN config mode?" None;
  entry "waIn" "bin" "WAN interface mode?" None;
  entry "waD1" "ip4" "IPv4 DNS server #1" None;
  entry "waD2" "ip4" "IPv4 DNS server #2" None;
  entry "waD3" "ip4" "IPv4 DNS server #3" None;
  entry "waC1" "ip4" "Automatically obtained IPv4 DNS server #1" None;
  entry "waC2" "ip4" "Automatically obtained IPv4 DNS server #2" None;
  entry "waC3" "ip4" "Automatically obtained IPv4 DNS server #3" None;
  entry "waIP" "ip4" "WAN IPv4 address" None;
  entry "waSM" "ip4" "WAN IPv4 subnet mask" None;
  entry "waRA" "ip4" "WAN IPv4 router address" None;
  entry "waDC" "str" "WAN DHCP client ID" None;
  entry "waMA" "mac" "WAN MAC address" None;
  entry "waDN" "str" "DNS search domain" None;
  entry "waNM" "boo" "Disable setup over WAN" None;
  entry "waSD" "u32" "??" None;
  entry "waLL" "ip4" "IPv4 local link address??" None;
  entry "waDI" "cfb" "WAN DHCP info?" None;
  entry "laIP" "ip4" "LAN IPv4 address" None;
  entry "laSM" "ip4" "LAN IPv4 subnet mask" None;
  entry "laMA" "mac" "LAN MAC address" None;
  entry "dhBg" "ip4" "DHCP server start address" None;
  entry "dhEn" "ip4" "DHCP server end address" None;
  entry "dhSN" "ip4" "DHCP server subnet mask" None;
  entry "dhRo" "ip4" "??" None;
  entry "dhLe" "u32" "DHCP server lease time" None;
  entry "DRes" "cfb" "DHCP reservations" None;
  entry "dhSL" "cfb" "DHCP server leases" None;
  entry "gnFl" "u32" "??" None;
  entry "gnBg" "ip4" "Guest Network DHCP server start address" None;
  entry "gnEn" "ip4" "Guest Network DHCP server end address" None;
  entry "gnSN" "ip4" "Guest Network DHCP server subnet mask" None;
  entry "gnRo" "ip4" "Guest Network DHCP server router address" None;
  entry "gnLe" "u32" "Guest Network DHCP server lease time" None;
  entry "naFl" "u32" "Enable NAT-PMP" (Some (VValues [0; 1]));
  entry "nDMZ" "ip4" "NAT Default Host" None;
  entry "tACL" "cfb" "Timed Access Control" None;
  entry "ntSV" "str" "NTP Server Hostname" None;
  entry "slvl" "u32" "System log level" (Some (VRange 0 7));
  entry "logm" "log" "System log data" None;
  entry "snAF" "u32" "Disable SNMP over WAN" (Some (VValues [0; 1]));
  entry "USBi" "cfb" "USB Info" None;
  entry "prni" "cfb" "USB Printer Info" None;
  entry "prnI" "str" "USB Printer Name" None;
  entry "prnR" "bin" "USB Priner Info???" None;
  entry "MaSt" "cfb" "USB Mass Storage Info" None;
  entry "seFl" "bin" "????" None;
  entry "dbug" "hex" "Debug flags" (Some (VRange 0 4294967295));
  entry "ctim" "hex" "Default Settings ??" None;
  entry "isAC" "ui8" "Power" (Some (VValues [0; 1]));
  entry "Prof" "cfb" "Restore Profile Blob" None;
  entry "leAc" "u32" "Status light" (Some (VValues [1; 2]));
  entry "APID" "u32" "Model" None;
  entry "lcVs" "str" "lcVs Version String?" None;
  entry "wsci" "cfb" "wsci Blob" None;
  entry "OTPR" "hex" "machdep.otpval" None;
  entry "acRB" "dec" "Reboot device flag" (Some (VValues [0]));
  entry "acRI" "dec" "Reload services??" (Some (VValues [0]));
  entry "acRN" "dec" "Resets something... (?)" (Some (VValues [0]));
  entry "acRF" "dec" "Reset to factory defaults" (Some (VValues [0]));
  entry "LEDc" "u32" "LED colour/pattern" (Some (VRange 0 3));
  entry "GPIs" "bin" "GPIOs values" (Some (VLengthIs 8));
  entry "auNP" "str" "AirPlay Password" None;
  entry "auRR" "u16" "Enable AirPlay" (Some (VValues [0; 1]));
  entry "auHK" "bpl" "AirPlay HomeKit pairing data" None;
  entry "auHE" "boo" "HomeKit pairing enabled" None;
  entry "fe01" "hex" "????" None;
  entry "feat" "str" "Supported features?" None;
  entry "prop" "str" "Valid acp properties" None;
  entry "hw01" "hex" "????" None;
  entry "pECC" "cfb" "PCIe ECC Blob?" None;
  entry "fugp" "str" "Firmware upgrade progress" None;
  entry "cks0" "hex" "Bootloader Flash Checksum" None;
  entry "cks1" "hex" "Primary Flash Checksum" None;
  entry "cks2" "hex" "Secondary Flash Checksum" None;
  entry "6cfg" "u32" "IPv6 mode" None;
  entry "6aut" "boo" "IPv6 autoconfiguration" None;
  entry "6Wad" "ip6" "WAN IPv6 address" None;
  entry "6Wgw" "ip6" "WAN IPv6 router address" None;
  entry "6Wte" "ip4" "IPv6 tunnel endpoint" None;
  entry "6Lfw" "boo" "Enable LAN IPv6" None;
  entry "6Lad" "ip6" "LAN IPv6 address" None;
  entry "6Lfx" "u32" "LAN IPv6 prefix length" (Some (VRange 0 128));
  entry "6sfw" "boo" "Enable IPv6 firewall" None;
  entry "6trd" "boo" "Allow Teredo" None;
  entry "6fwl" "cfb" "IPv6 firewall" None;
  entry "6NS1" "ip6" "IPv6 DNS server #1" None;
  entry "6NS2" "ip6" "IPv6 DNS server #2" None;
  entry "6NS3" "ip6" "IPv6 DNS server #3" None;
  entry "6PDa" "ip6" "LAN IPv6 address block" None;
  entry "6PDl" "u32" "LAN IPv6 prefix length" (Some (VRange 0 128));
  entry "6CWa" "ip6" "WAN IPv6 tunnel address" None;
  entry "6CWp" "u32" "WAN IPv6 tunnel prefix length" (Some (VRange 0 128));
  entry "6CWg" "ip6" "WAN IPv6 6to4 address" None;
  entry "6CLa" "ip6" "LAN IPv6 address" None;
  entry "6NSa" "ip6" "IPv6 DNS server #1" None;
  entry "6NSb" "ip6" "IPv6 DNS server #2" None;
  entry "6NSc" "ip6" "IPv6 DNS server #3" None;
  entry "6CPa" "ip6" "LAN IPv6 address" None;
  entry "6CPl" "u32" "LAN IPv6 prefix length" None;
  entry "6!at" "ui8" "??" None;
  entry "rteI" "cfb" "rteI Blob" None;
  entry "wbEn" "boo" "Enable wide-area Bonjour" None;
  entry "wbHN" "str" "Wide-area Bonjour hostname" None;
  entry "wbHU" "str" "Wide-area Bonjour TSIG key" None;
  entry "wbHP" "str" "Wide-area Bonjour TSIG pass" None;
  entry "wbAC" "boo" "Enable wide-area Bonjour DNS-SD" None;
  entry "iCld" "cfb" "Back to My Mac (iCloud) accounts" None;
  entry "iCLH" "cfb" "iCloud status" None;
  entry "SUEn" "boo" "Check for firmware update" None;
  entry "SUFq" "u32" "Update frequency" None
].

End PropertiesTs.

(** ** property.ts *)

Module PropertyTs.
Import PropertiesTs.

Record PropData : Type := mkPropData {
  pd_name : jsstring;
  pd_type : jsstring;
  pd_description : jsstring;
  pd_validator : option Validator
}.

Definition includes_str (l : list jsstring) (x : jsstring) : bool :=
  existsb (jsstring_eqb x) l.

Definition types : list jsstring :=
  [str "str"; str "dec"; str "hex"; str "log"; str "mac"; str "cfb"; str "bin"].

(** The [for] loop of [generateACPProperties] over the remaining entries. *)
Fixpoint generate_loop (entries : list (jsstring * Prop_)) (props : list PropData)
  : outcome (list PropData) :=
  match entries with
  | [] => Ret props
  | (name, (type, description, validator)) :: rest =>
      if negb (length name =? 4)%nat then Throw (BadNameInList name)
      else if negb (includes_str types type) then Throw (BadTypeInList name type)
      else match description with
           | [] => Throw (MissingDescriptionInList name)
           | _ => generate_loop rest
                    (props ++ [mkPropData name type description validator])
           end
  end.

Definition generateACPProperties (acp_properties : list (jsstring * Prop_))
  : outcome (list PropData) :=
  generate_loop acp_properties [].

Definition HEADER_SIZE : nat := 12.

(** The JavaScript values a property can be given.  Objects other than
    Buffers, booleans and null are not modelled. *)
Inductive Value : Type :=
| VUndefined
| VNumber (n : Z)
| VString (s : jsstring)
| VBuffer (b : bytes).

Definition truthy_value (v : Value) : bool :=
  match v with
  | VUndefined => false
  | VNumber n => negb (n =? 0)
  | VString [] => false
  | VString _ => true
  | VBuffer _ => true
  end.

Definition truthy_name (n : option jsstring) : bool :=
  match n with
  | Some (_ :: _) => true
  | _ => false
  end.

Definition NUL4 : jsstring := [0; 0; 0; 0].

Definition hex_digit (c : Z) : option Z :=
  if (48 <=? c) && (c <=? 57) then Some (c - 48)
  else if (97 <=? c) && (c <=? 102) then Some (c - 87)
  else if (65 <=? c) && (c <=? 70) then Some (c - 55)
  else None.

(** [Buffer.from(s, 'hex')]: stops at the first pair that is not hex. *)
Fixpoint Buffer_from_hex (s : jsstring) : bytes :=
  match s with
  | hi :: lo :: r =>
      match hex_digit hi, hex_digit lo with
      | Some h, Some l => (16 * h + l) :: Buffer_from_hex r
      | _, _ => []
      end
  | _ => []
  end.

(** [s.split(':')], [cur] being the segment read so far. *)
Fixpoint split_colon (s cur : jsstring) : list jsstring :=
  match s with
  | [] => [cur]
  | c :: r => if c =? 58 then cur :: split_colon r []
              else split_colon r (cur ++ [c])
  end.

Definition number_to_buffer (value : Z) : outcome bytes :=
  writeUInt32BE value 0 (Buffer_alloc 4).

Definition init_number_or_bytes (value : Value) : outcome bytes :=
  match value with
  | VBuffer b => Ret b
  | VNumber n => number_to_buffer n
  | VString s => Ret (Buffer_from_binary s)
  | VUndefined => Throw InvalidInitialiserValue
  end.

Definition init_bytes (value : Value) : outcome bytes :=
  match value with
  | VBuffer b => Ret b
  | VString s => Ret (Buffer_from_binary s)
  | _ => Throw InvalidInitialiserValue
  end.

Definition init_mac (value : Value) : outcome bytes :=
  match value with
  | VBuffer b => Ret b
  | VString s =>
      if (length s =? 6)%nat then Ret (Buffer_from_binary s)
      else
        let mac_bytes := split_colon s [] in
        if (length mac_bytes =? 6)%nat then Ret (Buffer_from_hex (concat mac_bytes))
        else Throw InvalidInitialiserValue
  | _ => Throw InvalidInitialiserValue
  end.

(** [ValueInitialisers[prop_type]]; [None] when there is no such key. *)
Definition ValueInitialisers (prop_type : jsstring) : option (Value -> outcome bytes) :=
  if jsstring_eqb prop_type (str "dec") then Some init_number_or_bytes
  else if jsstring_eqb prop_type (str "hex") then Some init_number_or_bytes
  else if jsstring_eqb prop_type (str "mac") then Some init_mac
  else if jsstring_eqb prop_type (str "bin") then Some init_bytes
  else if jsstring_eqb prop_type (str "cfb") then Some init_bytes
  else if jsstring_eqb prop_type (str "log") then Some init_bytes
  else if jsstring_eqb prop_type (str "str") then Some init_bytes
  else None.

(** Calling a catalogue validator on an encoded value; an array is not
    callable. *)
Definition call_validator (v : Validator) (value : bytes) : outcome bool :=
  match v with
  | VRange from to =>
      n0 <- readUIntBE_all value ;;
      let n := n0 - from in
      Ret ((0 <=? n) && (n <=? to - from))
  | VValues _ => Throw ValidatorNotAFunction
  | VLengthIs n => Ret (Z.of_nat (length value) =? n)
  end.

Record Property : Type := mkProperty {
  name : option jsstring;
  value : Value
}.

Record HeaderData : Type := mkHeaderData {
  h_name : jsstring;
  h_flags : Z;
  h_size : Z
}.

Section Table.

(** The module-level table [props = generateACPProperties()]. *)
Variable props : list PropData.

Definition getSupportedPropertyNames : list jsstring := map pd_name props.

Definition find_prop (propName : jsstring) : option PropData :=
  find (fun p => jsstring_eqb (pd_name p) propName) props.

(** [getPropertyInfoString(propName, 'type')]. *)
Definition getPropertyInfoString_type (propName : option jsstring) : option jsstring :=
  if truthy_name propName then
    match find_prop (match propName with Some n => n | None => [] end) with
    | None => None
    | Some prop => match pd_type prop with [] => None | t => Some t end
    end
  else None.

(** [getPropertyInfoString(propName, 'validator')]. *)
Definition getPropertyInfoString_validator (propName : option jsstring)
  : option Validator :=
  if truthy_name propName then
    match find_prop (match propName with Some n => n | None => [] end) with
    | None => None
    | Some prop => pd_validator prop
    end
  else None.

Definition is_NUL4_string (v : Value) : bool :=
  match v with
  | VString s => jsstring_eqb s NUL4
  | _ => false
  end.

(** [new Property(name, value)]. *)
Definition new_Property (name : option jsstring) (value : Value) : outcome Property :=
  let sentinel :=
    match name with
    | Some n => jsstring_eqb n NUL4 && is_NUL4_string value
    | None => false
    end in
  let name := if sentinel then None else name in
  let value := if sentinel then VUndefined else value in
  if truthy_name name &&
     negb (includes_str getSupportedPropertyNames
             (match name with Some n => n | None => [] end))
  then Throw (InvalidPropertyName (match name with Some n => n | None => [] end))
  else if truthy_value value then
    match getPropertyInfoString_type name with
    | None => Throw MissingHandler
    | Some prop_type =>
        match ValueInitialisers prop_type with
        | None => Throw MissingHandler
        | Some initialiser =>
            v <- initialiser value ;;
            match getPropertyInfoString_validator name with
            | None => Ret (mkProperty name (VBuffer v))
            | Some validator =>
                ok <- call_validator validator v ;;
                if negb ok
                then Throw (InvalidValueForValidator
                              (match name with Some n => n | None => [] end))
                else Ret (mkProperty name (VBuffer v))
            end
        end
    end
  else Ret (mkProperty name value).

End Table.

Definition packHeader (header_data : HeaderData) : outcome bytes :=
  let buffer := Buffer_alloc 12 in
  let buffer := write_utf8 (h_name header_data) 0 4 buffer in
  buffer <- writeUInt32BE (h_flags header_data) 4 buffer ;;
  buffer <- writeUInt32BE (h_size header_data) 8 buffer ;;
  Ret buffer.

Definition composeRawElementHeader (name : jsstring) (flags size : Z) : outcome bytes :=
  packHeader (mkHeaderData name flags size).

Definition unpackHeader (header_data : bytes) : outcome HeaderData :=
  if negb (length header_data =? HEADER_SIZE)%nat then Throw ElementHeaderMustBe12
  else
    let buffer := header_data in
    let name := toString_utf8 (slice 0 4 buffer) in
    flags <- readUInt32BE buffer 4 ;;
    size <- readUInt32BE buffer 8 ;;
    Ret (mkHeaderData name flags size).

(** [Property.composeRawElement(flags, property)]. *)
Definition composeRawElement (flags : Z) (property : Property) : outcome bytes :=
  let name := if truthy_name (name property)
              then match name property with Some n => n | None => [] end
              else NUL4 in
  let value :=
    match value property with
    | VBuffer b => VBuffer b
    | VNumber n => VNumber n
    | v => if truthy_value v
           then match v with
                | VString s => VBuffer (Buffer_from_binary s)
                | _ => v
                end
           else VBuffer (Buffer_from_binary NUL4)
    end in
  match value with
  | VNumber n =>
      buffer <- number_to_buffer n ;;
      header <- composeRawElementHeader name flags 4 ;;
      Ret (header ++ buffer)
  | VBuffer b =>
      header <- composeRawElementHeader name flags (Z.of_nat (length b)) ;;
      Ret (header ++ b)
  | _ => Throw UnhandledPropertyType
  end.

Section Elements.

Variable props : list PropData.

(** [Property.parseRawElement(data)] for a Buffer: the size and the flags
    of the header are read and ignored, the value is everything after
    the header. *)
Definition parseRawElement (data : bytes) : outcome Property :=
  h <- unpackHeader (slice 0 HEADER_SIZE data) ;;
  new_Property props (Some (h_name h)) (VBuffer (skipn HEADER_SIZE data)).

End Elements.

(** [buf.toString('hex')]: two lower-case digits per byte. *)
Definition hex_char (d : Z) : Z := if d <? 10 then 48 + d else 87 + d.

Definition toString_hex (b : bytes) : jsstring :=
  flat_map (fun x => [hex_char (x / 16); hex_char (x mod 16)]) b.

(** [a.join(sep)]. *)
Fixpoint join (sep : jsstring) (l : list jsstring) : jsstring :=
  match l with
  | [] => []
  | [x] => x
  | x :: r => x ++ sep ++ join sep r
  end.

(** [s.split('\x00')], [cur] being the segment read so far. *)
Fixpoint split_nul (s cur : jsstring) : list jsstring :=
  match s with
  | [] => [cur]
  | c :: r => if c =? 0 then cur :: split_nul r []
              else split_nul r (cur ++ [c])
  end.

(** White space and line terminators, as [String.prototype.trim] sees
    them. *)
Definition is_white_space (c : Z) : bool :=
  existsb (Z.eqb c)
    [9; 10; 11; 12; 13; 32; 160; 5760; 8232; 8233; 8239; 8287; 12288; 65279]
  || ((8192 <=? c) && (c <=? 8202)).

Fixpoint trim_start (s : jsstring) : jsstring :=
  match s with
  | [] => []
  | c :: r => if is_white_space c then trim_start r else s
  end.

Definition trim (s : jsstring) : jsstring :=
  rev (trim_start (rev (trim_start s))).

Section Formatters.

(** [CFLBinaryPList.parse] is imported from './cflbinary', which is not
    among the sources: the type of parsed values and the parser are
    parameters. *)
Context {CFLValue : Type}.
Variable CFLBinaryPList_parse : bytes -> outcome CFLValue.

(** The JavaScript values [format] can return. *)
Inductive Formatted : Type :=
| FNumber (n : Z)
| FString (s : jsstring)
| FBuffer (b : bytes)
| FParsed (v : CFLValue).

Definition format_dec (value : bytes) : outcome Formatted :=
  n <- readUIntBE_all value ;;
  Ret (FNumber n).

Definition format_hex (value : bytes) : outcome Formatted :=
  Ret (FString (str "0x" ++ toString_hex value)).

(** The [for] loop of the mac formatter pushes the hex form of
    [value.slice(i)], the bytes from [i] to the end, for [i] from 0 to 5. *)
Definition format_mac (value : bytes) : outcome Formatted :=
  let mac_bytes := map (fun i => toString_hex (skipn i value)) (seq 0 6) in
  Ret (FString (join (str ":") mac_bytes)).

Definition format_bin (value : bytes) : outcome Formatted :=
  Ret (FBuffer value).

Definition format_cfb (value : bytes) : outcome Formatted :=
  v <- CFLBinaryPList_parse value ;;
  Ret (FParsed v).

Definition format_log (value : bytes) : outcome Formatted :=
  Ret (FString (concat (map (fun line => trim line ++ [10])
                            (split_nul (toString_binary value) [])))).

Definition format_str (value : bytes) : outcome Formatted :=
  Ret (FString (toString_utf8 value)).

(** [ValueFormatters[type]]; [None] when there is no such key. *)
Definition ValueFormatters (type : jsstring) : option (bytes -> outcome Formatted) :=
  if jsstring_eqb type (str "dec") then Some format_dec
  else if jsstring_eqb type (str "hex") then Some format_hex
  else if jsstring_eqb type (str "mac") then Some format_mac
  else if jsstring_eqb type (str "bin") then Some format_bin
  else if jsstring_eqb type (str "cfb") then Some format_cfb
  else if jsstring_eqb type (str "log") then Some format_log
  else if jsstring_eqb type (str "str") then Some format_str
  else None.

End Formatters.

Arguments Formatted : clear implicits.

End PropertyTs.

(** ** session.ts *)

Module SessionTs.

(** What an asynchronous call has done by the end of the observed run:
    returned, thrown, or still suspended. *)
Inductive step (A : Type) : Type :=
| Done (a : A)
| Raised (e : Error)
| Pending.
Arguments Done {A} a.
Arguments Raised {A} e.
Arguments Pending {A}.

Definition lift {A} (c : outcome A) : step A :=
  match c with
  | Ret a => Done a
  | Throw e => Raised e
  end.

(** [buf.slice(start, end)] with Node's treatment of negative and
    out-of-range indices; [None] is an omitted [end]. *)
Definition clamp_index (n i : Z) : Z :=
  if i <? 0 then Z.max (n + i) 0 else Z.min i n.

Definition Buffer_slice (buf : bytes) (start : Z) (stop : option Z) : bytes :=
  let n := Z.of_nat (length buf) in
  let s := clamp_index n start in
  let e := clamp_index n (match stop with Some e => e | None => n end) in
  firstn (Z.to_nat (e - s)) (skipn (Z.to_nat s) buf).

(** One turn of the polling loop of [receiveSize]: the clock read by the
    loop test, the chunks the socket hands to the 'data' handler during
    the 1 ms sleep, and the clock read after the sleep. *)
Record Tick : Type := mkTick {
  tick_check : Z;
  tick_chunks : list bytes;
  tick_stamp : Z
}.

(** A stream cipher object of [crypto]: key, IV and bytes processed. *)
Record CipherCtx : Type := mkCipherCtx {
  ctx_key : bytes;
  ctx_iv : bytes;
  ctx_done : Z
}.

Record EncryptionContext : Type := mkEncryptionContext {
  cipher : CipherCtx;
  decipher : CipherCtx
}.

Inductive Role : Type := ClientEncryption | ServerEncryption.

Record Encryption : Type := mkEncryption {
  role : Role;
  key : bytes;
  client_iv : bytes;
  server_iv : bytes;
  derived_client_key : bytes;
  derived_server_key : bytes;
  client_context : EncryptionContext;
  server_context : EncryptionContext
}.

Definition PBKDF_salt0 : bytes :=
  [240; 114; 250; 63; 102; 180; 16; 161; 53; 250; 232; 230; 209; 212; 61; 95].
Definition PBKDF_salt1 : bytes :=
  [189; 6; 130; 201; 254; 121; 50; 91; 199; 54; 85; 244; 23; 75; 153; 108].

Section Session.

(** [CFLBinaryPList] is imported from '..' and not among the sources: the
    type of parsed values and the parser ([None] when it throws) are
    parameters.  So are the primitives of Node's [crypto]; exceptions of
    [crypto] are not modelled: [createCipheriv] takes keys and IVs of 16
    bytes for aes-128-ctr and throws on others, and the model is for
    those lengths. *)
Context {CFLValue : Type}.
Variable CFLBinaryPList_parse : bytes -> option CFLValue.
Variable pbkdf2Sync_sha1 : bytes -> bytes -> Z -> Z -> bytes.
Variable aes_128_ctr : bytes -> bytes -> Z -> bytes -> bytes.

Inductive Event : Type :=
| EvRawData (data : bytes)
| EvData (data : bytes)
| EvMonitorData (data : CFLValue).

Inductive ConsoleLine : Type :=
| WarnUnknownData (data : bytes)
| ErrorParsingMonitorData
| ErrorHandlingData (e : Error).

Record Session : Type := mkSession {
  socket : bool;
  buffer : bytes;
  reading : Z;
  encryption : option Encryption;
  emitted : list Event;
  console : list ConsoleLine;
  written : list bytes
}.

(** The session together with the client's [authenticating] flag, the
    clock, and the turns of the polling loop still to come. *)
Record World : Type := mkWorld {
  session : Session;
  authenticating : bool;
  now : Z;
  future : list Tick
}.

Definition io (A : Type) : Type := World -> step A * World.

Definition io_ret {A} (a : A) : io A := fun w => (Done a, w).
Definition io_raise {A} (e : Error) : io A := fun w => (Raised e, w).
Definition io_lift {A} (c : outcome A) : io A := fun w => (lift c, w).

Definition io_bind {A B} (c : io A) (k : A -> io B) : io B :=
  fun w =>
    match c w with
    | (Done a, w') => k a w'
    | (Raised e, w') => (Raised e, w')
    | (Pending, w') => (Pending, w')
    end.

Definition set_session (s : Session) (w : World) : World :=
  mkWorld s (authenticating w) (now w) (future w).

Definition set_buffer (b : bytes) (s : Session) : Session :=
  mkSession (socket s) b (reading s) (encryption s) (emitted s) (console s) (written s).

Definition set_reading (r : Z) (s : Session) : Session :=
  mkSession (socket s) (buffer s) r (encryption s) (emitted s) (console s) (written s).

Definition set_encryption (e : option Encryption) (s : Session) : Session :=
  mkSession (socket s) (buffer s) (reading s) e (emitted s) (console s) (written s).

Definition emit (ev : Event) (s : Session) : Session :=
  mkSession (socket s) (buffer s) (reading s) (encryption s) (emitted s ++ [ev])
    (console s) (written s).

Definition log (l : ConsoleLine) (s : Session) : Session :=
  mkSession (socket s) (buffer s) (reading s) (encryption s) (emitted s)
    (console s ++ [l]) (written s).

Definition socket_write (data : bytes) (s : Session) : Session :=
  mkSession (socket s) (buffer s) (reading s) (encryption s) (emitted s)
    (console s) (written s ++ [data]).

(** [cipher.update(data)]. *)
Definition cipher_update (c : CipherCtx) (data : bytes) : bytes * CipherCtx :=
  (aes_128_ctr (ctx_key c) (ctx_iv c) (ctx_done c) data,
   mkCipherCtx (ctx_key c) (ctx_iv c) (ctx_done c + Z.of_nat (length data))).

Definition createEncryptionContext (key iv : bytes) : EncryptionContext :=
  mkEncryptionContext (mkCipherCtx key iv 0) (mkCipherCtx key iv 0).

(** The constructor of [Encryption], shared by both subclasses.
    [crypto.createCipheriv('aes-128-ctr', key, iv)] throws unless the key
    and the IV have 16 bytes each; this is the object built when they
    have.  The keys are what [pbkdf2Sync(..., 16, 'sha1')] returns, the IVs
    are the caller's. *)
Definition new_Encryption (r : Role) (key client_iv server_iv : bytes) : Encryption :=
  let derived_client_key := pbkdf2Sync_sha1 key PBKDF_salt0 5 16 in
  let derived_server_key := pbkdf2Sync_sha1 key PBKDF_salt1 7 16 in
  mkEncryption r key client_iv server_iv derived_client_key derived_server_key
    (createEncryptionContext derived_client_key client_iv)
    (createEncryptionContext derived_server_key server_iv).

Definition with_client_context (c : EncryptionContext) (e : Encryption) : Encryption :=
  mkEncryption (role e) (key e) (client_iv e) (server_iv e) (derived_client_key e)
    (derived_server_key e) c (server_context e).

Definition with_server_context (c : EncryptionContext) (e : Encryption) : Encryption :=
  mkEncryption (role e) (key e) (client_iv e) (server_iv e) (derived_client_key e)
    (derived_server_key e) (client_context e) c.

Definition clientEncrypt (e : Encryption) (data : bytes) : bytes * Encryption :=
  let (out, c) := cipher_update (cipher (client_context e)) data in
  (out, with_client_context (mkEncryptionContext c (decipher (client_context e))) e).

Definition clientDecrypt (e : Encryption) (data : bytes) : bytes * Encryption :=
  let (out, c) := cipher_update (decipher (client_context e)) data in
  (out, with_client_context (mkEncryptionContext (cipher (client_context e)) c) e).

Definition serverEncrypt (e : Encryption) (data : bytes) : bytes * Encryption :=
  let (out, c) := cipher_update (cipher (server_context e)) data in
  (out, with_server_context (mkEncryptionContext c (decipher (server_context e))) e).

Definition serverDecrypt (e : Encryption) (data : bytes) : bytes * Encryption :=
  let (out, c) := cipher_update (decipher (server_context e)) data in
  (out, with_server_context (mkEncryptionContext (cipher (server_context e)) c) e).

Definition encrypt (e : Encryption) (data : bytes) : bytes * Encryption :=
  match role e with
  | ClientEncryption => clientEncrypt e data
  | ServerEncryption => serverEncrypt e data
  end.

Definition decrypt (e : Encryption) (data : bytes) : bytes * Encryption :=
  match role e with
  | ClientEncryption => serverDecrypt e data
  | ServerEncryption => clientDecrypt e data
  end.

Definition enableEncryption (key client_iv server_iv : bytes) (s : Session) : Session :=
  set_encryption (Some (new_Encryption ClientEncryption key client_iv server_iv)) s.

Definition enableServerEncryption (key client_iv server_iv : bytes) (s : Session)
  : Session :=
  set_encryption (Some (new_Encryption ServerEncryption key client_iv server_iv)) s.

(** The socket's 'data' handler up to its last line: emit 'raw-data',
    decrypt when encryption is on, append to the buffer, emit 'data'. *)
Definition deliver (data : bytes) (s : Session) : Session :=
  let s := emit (EvRawData data) s in
  let (data, s) :=
    match encryption s with
    | Some e => let (out, e') := decrypt e data in (out, set_encryption (Some e') s)
    | None => (data, s)
    end in
  let s := set_buffer (buffer s ++ data) s in
  emit (EvData data) s.

(** The [while (waiting_for > 0)] loop of [receiveSize].  A Buffer is
    always truthy, so the [if (this.buffer)] branch is always taken.  The
    session is inside a receive here ([reading] is positive), so the last
    line of the 'data' handler, the unsolicited-data dispatch, does not
    run for the chunks that arrive during the sleep. *)
Fixpoint receive_loop (timeout : Z) (ticks : list Tick) (clock : Z)
  (s : Session) (received_chunks : bytes) (waiting_for last_received_at : Z)
  : step bytes * (Session * Z * list Tick) :=
  if 0 <? waiting_for then
    match ticks with
    | [] => (Pending, (s, clock, []))
    | t :: rest =>
        if tick_check t + timeout <? last_received_at
        then (Raised Timeout, (s, tick_check t, rest))
        else
          let s := fold_left (fun s data => deliver data s) (tick_chunks t) s in
          let received := Buffer_slice (buffer s) 0 (Some waiting_for) in
          receive_loop timeout rest (tick_stamp t)
            (set_buffer (Buffer_slice (buffer s) (Z.of_nat (length received)) None) s)
            (received_chunks ++ received)
            (waiting_for - Z.of_nat (length received))
            (tick_stamp t)
    end
  else (Done received_chunks, (s, clock, ticks)).

(** [receiveSize(size, timeout = 10000)]; the [finally] block runs when
    the call returns or throws, not while it is still suspended. *)
Definition receiveSize (size : Z) (timeout : option Z) : io bytes := fun w =>
  let timeout := match timeout with Some t => t | None => 10000 end in
  let s := set_reading (reading (session w) + 1) (session w) in
  let chunk0 := Buffer_slice (buffer s) 0 (Some size) in
  let s := set_buffer (Buffer_slice (buffer s) size None) s in
  let waiting_for := size - Z.of_nat (length chunk0) in
  let last_received_at := now w in
  match receive_loop timeout (future w) (now w) s chunk0 waiting_for
          last_received_at with
  | (Pending, (s, clock, ticks)) =>
      (Pending, mkWorld s (authenticating w) clock ticks)
  | (r, (s, clock, ticks)) =>
      (r, mkWorld (set_reading (reading s - 1) s) (authenticating w) clock ticks)
  end.

Definition receive (size : Z) (timeout : option Z) : io bytes :=
  receiveSize size timeout.

Definition receiveMessageHeader (timeout : option Z) : io bytes :=
  receive (Z.of_nat MessageJs.HEADER_SIZE) timeout.

Definition receivePropertyElementHeader (timeout : option Z) : io bytes :=
  receive (Z.of_nat PropertyTs.HEADER_SIZE) timeout.

(** [send(data)] for data already in binary form. *)
Definition send_bytes (data : bytes) : io unit := fun w =>
  let s := session w in
  let (data, s) :=
    match encryption s with
    | Some e => let (out, e') := encrypt e data in (out, set_encryption (Some e') s)
    | None => (data, s)
    end in
  if negb (socket s) then (Raised NotConnected, set_session s w)
  else (Done tt, set_session (socket_write data s) w).

(** [send(message)]. *)
Definition send (message : MessageJs.Message) : io unit := fun w =>
  match MessageJs.composeRawPacket message with
  | Throw e => (Raised e, w)
  | Ret data => send_bytes (Buffer_from_binary data) w
  end.

Definition handleMonitorData : io unit :=
  io_bind (receive 8 None) (fun header =>
  io_bind (io_lift (readUInt32BE header 4)) (fun size =>
  io_bind (receive size None) (fun body w =>
    match CFLBinaryPList_parse body with
    | Some data => (Done tt, set_session (emit (EvMonitorData data) (session w)) w)
    | None => (Done tt, set_session (log ErrorParsingMonitorData (session w)) w)
    end))).

Definition handleData (data : bytes) : io unit := fun w =>
  if jsstring_eqb (toString_binary (slice 0 2 data)) (str "XE")
  then handleMonitorData w
  else
    let s := log (WarnUnknownData data) (session w) in
    (Done tt, set_session (set_buffer [] s) w).

(** [_handleData]: at most [fuel] turns of its [while] loop; [None] when
    the fuel does not suffice. *)
Fixpoint _handleData (fuel : nat) : World -> option (step unit * World) := fun w =>
  if (reading (session w) =? 0) && negb (length (buffer (session w)) =? 0)%nat
  then
    match fuel with
    | O => None
    | S fuel' =>
        match handleData (buffer (session w)) w with
        | (Done _, w') => _handleData fuel' w'
        | (Raised e, w') =>
            _handleData fuel' (set_session (log (ErrorHandlingData e) (session w')) w')
        | (Pending, w') => Some (Pending, w')
        end
    end
  else Some (Done tt, w).

(** The socket's 'data' handler at a moment when no call is suspended. *)
Definition on_data (fuel : nat) (data : bytes) : World -> option (step unit * World) :=
  fun w =>
    let s := deliver data (session w) in
    if reading s =? 0 then _handleData fuel (set_session s w)
    else Some (Done tt, set_session s w).

End Session.

Arguments Event : clear implicits.
Arguments Session : clear implicits.
Arguments World : clear implicits.
Arguments io : clear implicits.

End SessionTs.

(** ** client.ts *)

Module ClientTs.
Import SessionTs.

Section Client.

Context {CFLValue : Type}.
Variable pbkdf2Sync_sha1 : bytes -> bytes -> Z -> Z -> bytes.
Variable aes_128_ctr : bytes -> bytes -> Z -> bytes -> bytes.
Variable generateACPKeystream : Z -> jsstring.

(** The table [props] of property.ts. *)
Variable props : list PropertyTs.PropData.

(** The SRP client object of fast-srp-hap: [checkM2] is [false] when the
    library call throws. *)
Context {Srp : Type}.
Variable checkM2 : Srp -> bytes -> bool.
Variable computeK : Srp -> bytes.

Let W : Type := World CFLValue.
Let task (A : Type) : Type := W -> option (step A * W).

(** [session.queue(callback)] with no other task queued and no 'close'
    event: the callback runs with a valid lock. *)
Definition queue {A} (callback : task A) : task A := callback.

(** The [for] loop that builds the payload of [getProperties]; appending
    a Buffer to a string converts it with [toString()]. *)
Fixpoint getProperties_payload (names : list (PropertyTs.Property + jsstring))
  (payload : jsstring) : outcome jsstring :=
  match names with
  | [] => Ret payload
  | n :: rest =>
      p <- match n with
           | inl property => Ret property
           | inr name => PropertyTs.new_Property props (Some name) PropertyTs.VUndefined
           end ;;
      element <- PropertyTs.composeRawElement 0 p ;;
      getProperties_payload rest (payload ++ toString_utf8 element)
  end.

(** The request message [getProperties] sends. *)
Definition getProperties_request (password : jsstring)
  (names : list (PropertyTs.Property + jsstring)) : outcome MessageJs.Message :=
  payload <- getProperties_payload names [] ;;
  Ret (MessageJs.composeGetPropCommand generateACPKeystream 4 password (Some payload)).

(** The [while (true)] loop of [getProperties], at most [fuel] turns. *)
Fixpoint getProperties_loop (fuel : nat) (props_with_values : list PropertyTs.Property)
  : task (list PropertyTs.Property) := fun w =>
  match fuel with
  | O => None
  | S fuel' =>
      match receivePropertyElementHeader aes_128_ctr None w with
      | (Raised e, w1) => Some (Raised e, w1)
      | (Pending, w1) => Some (Pending, w1)
      | (Done prop_header, w1) =>
          match PropertyTs.unpackHeader prop_header with
          | Throw e => Some (Raised e, w1)
          | Ret data =>
              match receive aes_128_ctr (PropertyTs.h_size data) None w1 with
              | (Raised e, w2) => Some (Raised e, w2)
              | (Pending, w2) => Some (Pending, w2)
              | (Done value, w2) =>
                  if negb (Z.land (PropertyTs.h_flags data) 1 =? 0) then
                    match readInt32BE value 0 with
                    | Throw e => Some (Raised e, w2)
                    | Ret error_code =>
                        Some (Raised (PropertyRequestError (PropertyTs.h_name data)
                                        error_code value), w2)
                    end
                  else
                    match PropertyTs.new_Property props
                            (Some (PropertyTs.h_name data)) (PropertyTs.VBuffer value) with
                    | Throw e => Some (Raised e, w2)
                    | Ret prop =>
                        match PropertyTs.name prop, PropertyTs.value prop with
                        | None, PropertyTs.VUndefined => Some (Done props_with_values, w2)
                        | _, _ => getProperties_loop fuel' (props_with_values ++ [prop]) w2
                        end
                    end
              end
          end
      end
  end.

(** [getProperties(props)]; the reply header is parsed by
    [Message.parseRaw] of './message' ([MessageTs.parseRaw]). *)
Definition getProperties (password : jsstring)
  (names : list (PropertyTs.Property + jsstring)) (fuel : nat)
  : task (list PropertyTs.Property) :=
  queue (fun w =>
    match getProperties_request password names with
    | Throw e => Some (Raised e, w)
    | Ret request =>
        match send aes_128_ctr request w with
        | (Raised e, w1) => Some (Raised e, w1)
        | (Pending, w1) => Some (Pending, w1)
        | (Done _, w1) =>
            match receiveMessageHeader aes_128_ctr None w1 with
            | (Raised e, w2) => Some (Raised e, w2)
            | (Pending, w2) => Some (Pending, w2)
            | (Done reply, w2) =>
                match MessageTs.parseRaw reply with
                | Throw e => Some (Raised e, w2)
                | Ret parsed =>
                    let reply_header := MessageJs.message_of parsed in
                    if negb (MessageJs.error_code reply_header =? 0)
                    then Some (Raised (ProtocolError (MessageJs.error_code reply_header)), w2)
                    else getProperties_loop fuel [] w2
                end
            end
        end
    end).

(** [reboot()] builds [new Property('acRB', 0)]. *)
Definition reboot_property : outcome PropertyTs.Property :=
  PropertyTs.new_Property props (Some (str "acRB")) (PropertyTs.VNumber 0).

Definition set_authenticating (b : bool) (w : W) : W :=
  mkWorld (session w) b (now w) (future w).

(** [authenticateStageFive(srpc, client_iv, data)], [data] being the pair
    of [data.response] and [data.iv]. *)
Definition authenticateStageFive (srpc : Srp) (client_iv : bytes)
  (data : bytes * bytes) : io CFLValue unit := fun w =>
  if negb (checkM2 srpc (fst data))
  then (Raised ErrorVerifyingM2, w)
  else
    let key := computeK srpc in
    let server_iv := snd data in
    (Done tt,
     set_session (enableEncryption pbkdf2Sync_sha1 key client_iv server_iv (session w)) w).

(** What [authenticateStageOne] and [authenticateStageThree] do before the
    call of [authenticateStageFive] (the exchange of stages 1 to 4) needs
    [CFLBinaryPList.compose], fast-srp-hap and [crypto.randomBytes], which
    are not among the sources: it is a parameter yielding the SRP client,
    the client IV and the stage-4 reply. *)
Variable stages_one_to_four : io CFLValue (Srp * bytes * (bytes * bytes)).

Definition authenticateStageOne : io CFLValue unit :=
  io_bind stages_one_to_four (fun r =>
    authenticateStageFive (fst (fst r)) (snd (fst r)) (snd r)).

(** [authenticate()]: the [finally] block clears [authenticating] once
    the attempt has returned or thrown.  A call that finds an attempt in
    flight returns that attempt's promise, which is still pending. *)
Definition authenticate : io CFLValue unit := fun w =>
  match encryption (session w) with
  | Some _ => (Raised EncryptionAlreadyEnabled, w)
  | None =>
      if authenticating w then (Pending, w)
      else
        match authenticateStageOne (set_authenticating true w) with
        | (Pending, w') => (Pending, w')
        | (r, w') => (r, set_authenticating false w')
        end
  end.

Record PropSetResponse : Type := mkPropSetResponse {
  r_name : jsstring;
  r_flags : Z;
  r_size : Z;
  r_value : bytes
}.

(** The [while (true)] loop of [setProperties], at most [fuel] turns; the
    lines of [setProperties] before the loop build the request and read
    the reply header with the Message class of './message' and are not
    embedded.  The
    error thrown for an element with bit 0 of its flags set carries the
    name, the code and the value of the element, as the one thrown by
    [getProperties] does; the text of the two messages differs in one
    word, and they share a constructor.  What the loop prints with
    [console.log] is not recorded. *)
Fixpoint setProperties_loop (fuel : nat) (response : list PropSetResponse)
  : task (list PropSetResponse) := fun w =>
  match fuel with
  | O => None
  | S fuel' =>
      match receivePropertyElementHeader aes_128_ctr None w with
      | (Raised e, w1) => Some (Raised e, w1)
      | (Pending, w1) => Some (Pending, w1)
      | (Done prop_header, w1) =>
          match PropertyTs.unpackHeader prop_header with
          | Throw e => Some (Raised e, w1)
          | Ret data =>
              match receive aes_128_ctr (PropertyTs.h_size data) None w1 with
              | (Raised e, w2) => Some (Raised e, w2)
              | (Pending, w2) => Some (Pending, w2)
              | (Done value, w2) =>
                  if negb (Z.land (PropertyTs.h_flags data) 1 =? 0) then
                    match readUInt32BE value 0 with
                    | Throw e => Some (Raised e, w2)
                    | Ret error_code =>
                        Some (Raised (PropertyRequestError (PropertyTs.h_name data)
                                        error_code value), w2)
                    end
                  else if jsstring_eqb (PropertyTs.h_name data) PropertyTs.NUL4
                  then Some (Done response, w2)
                  else
                    setProperties_loop fuel'
                      (response ++
                         [mkPropSetResponse (PropertyTs.h_name data)
                            (PropertyTs.h_flags data) (PropertyTs.h_size data) value])
                      w2
              end
          end
      end
  end.

End Client.

End ClientTs.

(** ** The byte stream a session reads

    The bytes a session will ever see, in arrival order: what is buffered
    followed by what the coming turns of the polling loop deliver, after
    decryption when encryption is on. *)

Module SessionSpec.
Import SessionTs.

Section Stream.

Context {CFLValue : Type}.
Variable aes_128_ctr : bytes -> bytes -> Z -> bytes -> bytes.

(** The plaintext of a sequence of chunks, from a given cipher state. *)
Fixpoint plaintext (e : option Encryption) (chunks : list bytes) : bytes :=
  match chunks with
  | [] => []
  | c :: rest =>
      match e with
      | Some enc =>
          fst (decrypt aes_128_ctr enc c)
          ++ plaintext (Some (snd (decrypt aes_128_ctr enc c))) rest
      | None => c ++ plaintext None rest
      end
  end.

(** The cipher state after a sequence of chunks. *)
Fixpoint cipher_after (e : option Encryption) (chunks : list bytes)
  : option Encryption :=
  match chunks with
  | [] => e
  | c :: rest =>
      match e with
      | Some enc => cipher_after (Some (snd (decrypt aes_128_ctr enc c))) rest
      | None => cipher_after None rest
      end
  end.

Definition chunks_of (ticks : list Tick) : list bytes :=
  concat (map tick_chunks ticks).

Definition stream (w : World CFLValue) : bytes :=
  buffer (session w)
  ++ plaintext (encryption (session w)) (chunks_of (future w)).

(** The values published as monitor events so far. *)
Definition monitor_events (s : Session CFLValue) : list CFLValue :=
  flat_map (fun ev => match ev with EvMonitorData v => [v] | _ => [] end)
           (emitted s).

(** What a read leaves alone: the socket, what was written to it, the
    console and the monitor events. *)
Definition same_channel (s s' : Session CFLValue) : Prop :=
  socket s' = socket s /\
  written s' = written s /\
  console s' = console s /\
  monitor_events s' = monitor_events s.

End Stream.

(** Successive readings of [Date.now()] never decrease. *)
Fixpoint clock_monotone (t : Z) (ticks : list Tick) : Prop :=
  match ticks with
  | [] => True
  | k :: rest =>
      t <= tick_check k /\ tick_check k <= tick_stamp k /\
      clock_monotone (tick_stamp k) rest
  end.

End SessionSpec.

(** ** The documented property types and the table of the catalogue *)

Module PropertySpec.
Import PropertiesTs PropertyTs.

(** The sixteen logical type tags of the documentation. *)
Definition documented_types : list jsstring :=
  [str "str"; str "dec"; str "hex"; str "log"; str "mac"; str "cfb"; str "bin";
   str "u8"; str "u16"; str "u32"; str "ui8"; str "ip4"; str "ip6"; str "uid";
   str "boo"; str "bpl"].

Definition entry_type (e : jsstring * Prop_) : jsstring := fst (fst (snd e)).

(** The catalogue's type for a tag. *)
Definition catalogue_type (name : jsstring) : option jsstring :=
  option_map entry_type (find (fun e => jsstring_eqb (fst e) name) acp_properties).

(** The table [generateACPProperties] builds from entries it accepts: one
    record per entry, in order. *)
Definition table_of (entries : list (jsstring * Prop_)) : list PropData :=
  map (fun e => mkPropData (fst e) (fst (fst (snd e))) (snd (fst (snd e))) (snd (snd e)))
      entries.

(** The table with every entry of the shipped catalogue. *)
Definition catalogue_table : list PropData := table_of acp_properties.

Definition is_ascii (s : jsstring) : Prop := Forall (fun c => 0 <= c < 128) s.

End PropertySpec.

(** ** Fixtures for concrete runs of the client *)

Module ClientSpec.
Import SessionTs.

(** A keystream and a cipher to run the client on; the runs below use
    neither the key bytes nor encryption. *)
Definition zero_keystream (n : Z) : jsstring := repeat 0 (Z.to_nat n).
Definition identity_cipher (key iv : bytes) (done : Z) (data : bytes) : bytes := data.

(** A connected, idle, unencrypted session holding [inbound] in its
    buffer, with no further arrivals. *)
Definition world_with (inbound : bytes) : World unit :=
  mkWorld (mkSession true inbound 0 None [] [] []) false 0 [].

(** The header of a GetProp reply without error. *)
Definition ok_reply_header : bytes :=
  match MessageJs.composeHeader
          (MessageJs.new_Message 196609 0 0 20 0 (repeat 0 32) None (Some 0)) with
  | Ret h => h
  | Throw _ => []
  end.

(** The end-of-list element: four NUL name bytes, flags 0, size 4, four
    NUL value bytes. *)
Definition terminator : bytes :=
  [0; 0; 0; 0] ++ [0; 0; 0; 0] ++ [0; 0; 0; 4] ++ [0; 0; 0; 0].

End ClientSpec.
(** ** Vocabulary for the codec properties *)

Module CodecSpec.
Import MessageJs MessageSpec.

(** The integer fields of a message that [packHeader] writes with range
    checks. *)
Definition fields_fit (m : Message) : Prop :=
  in_i32 (version m) /\ in_u32 (body_checksum m) /\ in_i32 (body_size m) /\
  in_i32 (flags m) /\ in_i32 (unused m) /\ in_i32 (command m) /\
  in_i32 (error_code m).

(** A header record whose fields fit the 128-byte encoding. *)
Record packable (hd : HeaderData) : Prop := {
  pk_magic : h_magic hd = HEADER_MAGIC;
  pk_version : in_i32 (h_version hd);
  pk_header_checksum : in_u32 (h_header_checksum hd);
  pk_body_checksum : in_u32 (h_body_checksum hd);
  pk_body_size : in_i32 (h_body_size hd);
  pk_flags : in_i32 (h_flags hd);
  pk_unused : in_i32 (h_unused hd);
  pk_command : in_i32 (h_command hd);
  pk_error_code : in_i32 (h_error_code hd);
  pk_pad1 : length (h_pad1 hd) = 12%nat /\ is_bytes (h_pad1 hd);
  pk_key : length (h_key hd) = 32%nat /\ is_bytes (h_key hd);
  pk_pad2 : length (h_pad2 hd) = 48%nat /\ is_bytes (h_pad2 hd)
}.

Definition is_ascii_bytes (l : list Z) : Prop := Forall (fun c => 0 <= c < 128) l.

(** The header [composeHeader] produces for a message: the layout with the
    Adler-32 sum of the layout with a zero checksum. *)
Definition composed_header (m : Message) : bytes :=
  layout (header_record m (adler32_sum (layout (header_record m 0)))).

(** A header record to run the codec on. *)
Definition sample_header : HeaderData :=
  mkHeaderData HEADER_MAGIC 196609 305419896 1 (-1) 4 0 20 (-10)
    (map Z.of_nat (seq 1 32)) (repeat 0 12%nat) (map Z.of_nat (seq 100 48)).

(** The header of the sample GetProp packet. *)
Definition sample_packet_header : jsstring := firstn 128 sample_packet.

End CodecSpec.

(** ** Vocabulary for the property codec *)

Module ElementSpec.
Import PropertiesTs PropertyTs.

(** The usual text of a MAC address: two hex digits per byte, separated
    by colons. *)
Definition mac_text (b : bytes) : jsstring :=
  join (str ":") (map (fun x => toString_hex [x]) b).

(** An entry the initialiser of the table accepts. *)
Definition entry_ok (e : jsstring * Prop_) : Prop :=
  length (fst e) = 4%nat /\ In (fst (fst (snd e))) types /\ snd (fst (snd e)) <> [].

(** A small table in the shape the initialiser accepts. *)
Definition sample_table : list PropData :=
  [mkPropData (str "dbug") (str "hex") (str "Debug flags") (Some (VRange 0 4294967295));
   mkPropData (str "acRB") (str "dec") (str "Reboot device flag") (Some (VValues [0]));
   mkPropData (str "GPIs") (str "bin") (str "GPIOs values") (Some (VLengthIs 8));
   mkPropData (str "raMA") (str "mac") (str "MAC address") None;
   mkPropData (str "LEDc") (str "dec") (str "LED colour/pattern") (Some (VRange 0 3));
   mkPropData (str "syAP") (str "u32") (str "Model") None].

End ElementSpec.

(** ** Vocabulary for encrypted sessions *)

Module TransportSpec.
Import SessionTs.

(** The cipher object an [Encryption] encrypts outgoing data with, and
    the one it decrypts incoming data with. *)
Definition sending_context (e : Encryption) : CipherCtx :=
  match role e with
  | ClientEncryption => cipher (client_context e)
  | ServerEncryption => cipher (server_context e)
  end.

Definition receiving_context (e : Encryption) : CipherCtx :=
  match role e with
  | ClientEncryption => decipher (server_context e)
  | ServerEncryption => decipher (client_context e)
  end.

(** The receiver is at the sender's position in the sender's keystream. *)
Definition in_step (sender receiver : Encryption) : Prop :=
  sending_context sender = receiving_context receiver.

(** A monitor frame on the wire: "XE", two more bytes, the length of the
    body as a big-endian 32-bit word, and the body. *)
Definition monitor_frame (f : Z * Z * bytes) : bytes :=
  str "XE" ++ [fst (fst f); snd (fst f)] ++ be32 (Z.of_nat (length (snd f))) ++ snd f.

Section Monitor.

Context {CFLValue : Type}.
Variable CFLBinaryPList_parse : bytes -> option CFLValue.

(** What is published and what is logged for a monitor frame. *)
Definition published (f : Z * Z * bytes) : list CFLValue :=
  match CFLBinaryPList_parse (snd f) with
  | Some v => [v]
  | None => []
  end.

Definition complaints (f : Z * Z * bytes) : list ConsoleLine :=
  match CFLBinaryPList_parse (snd f) with
  | Some _ => []
  | None => [ErrorParsingMonitorData]
  end.

End Monitor.

(** A key derivation and a cipher to run encrypted sessions on: the
    cipher XORs every byte with the low byte of its position plus the
    first key byte. *)
Definition sample_pbkdf2 (key salt : bytes) (iterations keylen : Z) : bytes :=
  firstn (Z.to_nat keylen) (map (fun p => (fst p + snd p + iterations) mod 256)
                                (combine (key ++ repeat 0 16) (salt ++ repeat 0 16))).

Fixpoint sample_ctr_from (k : Z) (pos : Z) (data : bytes) : bytes :=
  match data with
  | [] => []
  | x :: r => Z.lxor x ((k + pos) mod 256) :: sample_ctr_from k (pos + 1) r
  end.

Definition sample_ctr (key iv : bytes) (position : Z) (data : bytes) : bytes :=
  sample_ctr_from (nth 0 key 0 + nth 0 iv 0) position data.

End TransportSpec.

(** ** Vocabulary for the exchanges of the client *)

Module ExchangeSpec.
Import PropertyTs ClientTs MessageSpec PropertySpec.

(** An element on the wire: the header (name, flags, size) and the value. *)
Definition element_bytes (r : PropSetResponse) : bytes :=
  r_name r ++ be32 (r_flags r) ++ be32 (r_size r) ++ r_value r.

(** An element whose header describes its value. *)
Definition well_formed (r : PropSetResponse) : Prop :=
  length (r_name r) = 4%nat /\ is_ascii (r_name r) /\ in_u32 (r_flags r) /\
  in_u32 (r_size r) /\ r_size r = Z.of_nat (length (r_value r)).

(** An acknowledgement: bit 0 of the flags is clear and the name is not
    the four NULs of the end marker. *)
Definition acknowledgement (r : PropSetResponse) : Prop :=
  well_formed r /\ Z.land (r_flags r) 1 = 0 /\ r_name r <> NUL4.

(** The end marker: the four-NUL name with bit 0 of the flags clear. *)
Definition end_marker (r : PropSetResponse) : Prop :=
  well_formed r /\ Z.land (r_flags r) 1 = 0 /\ r_name r = NUL4.

(** An acknowledgement of acRB, an element refused with error code
    4294967286 (-10 as a signed number), and the end marker. *)
Definition sample_ack : PropSetResponse :=
  mkPropSetResponse (str "acRB") 0 4 [0; 0; 0; 0].
Definition sample_refusal : PropSetResponse :=
  mkPropSetResponse (str "syNm") 1 4 [255; 255; 255; 246].
Definition sample_marker : PropSetResponse :=
  mkPropSetResponse NUL4 0 4 [0; 0; 0; 0].

End ExchangeSpec.

(** * Theorems *)

(** ** Lists cut at a known length *)

Module ListFacts.

Lemma firstn_app_exact {A} (l r : list A) n :
  length l = n -> firstn n (l ++ r) = l.
Proof.
  intros <-. rewrite firstn_app, Nat.sub_diag, firstn_all. simpl. apply app_nil_r.
Qed.

Lemma skipn_app_exact {A} (l r : list A) n :
  length l = n -> skipn n (l ++ r) = r.
Proof.
  intros <-. rewrite skipn_app, Nat.sub_diag, skipn_all. reflexivity.
Qed.

(** A range condition on every element, decided by computation. *)
Lemma Forall_range_check (lo hi : Z) (l : list Z) :
  forallb (fun c => (lo <=? c) && (c <? hi)) l = true ->
  Forall (fun c => lo <= c < hi) l.
Proof.
  intros H. apply Forall_forall. intros x Hx.
  rewrite forallb_forall in H. specialize (H x Hx).
  apply andb_true_iff in H. destruct H as [H1 H2].
  apply Z.leb_le in H1. apply Z.ltb_lt in H2. lia.
Qed.

End ListFacts.

(** ** UTF-8 decoding of ASCII bytes *)

Module Utf8Facts.

Lemma utf8_decode_ascii_head c rest :
  c < 128 -> utf8_decode None (c :: rest) = c :: utf8_decode None rest.
Proof.
  intros H. cbn [utf8_decode]. unfold utf8_lead.
  destruct (Z.ltb_spec c 128); [reflexivity | lia].
Qed.

Lemma toString_utf8_ascii b :
  Forall (fun c => c < 128) b -> toString_utf8 b = b.
Proof.
  unfold toString_utf8. induction 1 as [|c rest Hc _ IH]; [reflexivity|].
  rewrite utf8_decode_ascii_head by assumption. now rewrite IH.
Qed.

(** A sequence that has been opened ends in a code unit outside ASCII. *)
Lemma code_units_high cp tl : 128 <= cp -> high_head (code_units cp ++ tl).
Proof.
  intros H. unfold code_units, high_head.
  destruct (Z.ltb_spec cp 65536).
  - exists cp, tl. split; [reflexivity | lia].
  - eexists _, _. split; [reflexivity|].
    pose proof (Z.div_pos (cp - 65536) 1024). lia.
Qed.

Lemma utf8_decode_opened rest : forall st,
  opened st -> high_head (utf8_decode (Some st) rest).
Proof.
  induction rest as [|c rest IH]; intros [[[cp needed] lower] upper] Hst.
  - exists 65533, []. split; [reflexivity | lia].
  - cbn [utf8_decode]. destruct Hst as (Hlo & Hcp & Hn).
    destruct ((lower <=? c) && (c <=? upper)) eqn:E.
    + apply andb_true_iff in E. destruct E as [E1 _]. apply Z.leb_le in E1.
      destruct Hn as [[-> Hq] | [[-> Hq] | [-> Hq]]]; cbn [Z.eqb Pos.eqb].
      * apply code_units_high. lia.
      * apply IH. cbn. lia.
      * apply IH. cbn. lia.
    + destruct (utf8_lead c) as [out st'].
      eexists _, _. split; [reflexivity | lia].
Qed.

Lemma utf8_decode_high_head c rest :
  128 <= c -> high_head (utf8_decode None (c :: rest)).
Proof.
  intros H. cbn [utf8_decode]. unfold utf8_lead.
  destruct (Z.ltb_spec c 128); [lia|].
  destruct ((194 <=? c) && (c <=? 223)) eqn:E2.
  { apply andb_true_iff in E2. destruct E2 as [L U]. apply Z.leb_le in L, U.
    cbn [app]. apply utf8_decode_opened. cbn. lia. }
  destruct ((224 <=? c) && (c <=? 239)) eqn:E3.
  { apply andb_true_iff in E3. destruct E3 as [L U]. apply Z.leb_le in L, U.
    cbn [app]. apply utf8_decode_opened. cbn.
    destruct (Z.eqb_spec c 224); lia. }
  destruct ((240 <=? c) && (c <=? 244)) eqn:E4.
  { apply andb_true_iff in E4. destruct E4 as [L U]. apply Z.leb_le in L, U.
    cbn [app]. apply utf8_decode_opened. cbn.
    destruct (Z.eqb_spec c 240); lia. }
  eexists _, _. split; [reflexivity | lia].
Qed.

(** A decoded string that is all ASCII is the bytes themselves. *)
Lemma toString_utf8_ascii_inv b s :
  toString_utf8 b = s -> Forall (fun c => c < 128) s -> b = s.
Proof.
  unfold toString_utf8. revert s.
  induction b as [|c rest IH]; intros s E Hs.
  - now subst.
  - destruct (Z.lt_ge_cases c 128) as [Hc | Hc].
    + rewrite utf8_decode_ascii_head in E by assumption.
      subst s. inversion Hs; subst. f_equal. now apply IH.
    + destruct (utf8_decode_high_head c rest Hc) as (u & tl & Eu & Hu).
      rewrite Eu in E. subst s. inversion Hs; subst. lia.
Qed.

End Utf8Facts.

(** ** The message codec *)

Module MessageProofs.
Import MessageJs MessageSpec.

Lemma u32_of_range b0 b1 b2 b3 :
  is_byte b0 -> is_byte b1 -> is_byte b2 -> is_byte b3 ->
  0 <= u32_of b0 b1 b2 b3 < 4294967296.
Proof. unfold is_byte, u32_of. lia. Qed.

Lemma be32_u32_of b0 b1 b2 b3 :
  is_byte b0 -> is_byte b1 -> is_byte b2 -> is_byte b3 ->
  be32 (u32_of b0 b1 b2 b3) = [b0; b1; b2; b3].
Proof.
  unfold is_byte, u32_of, be32. intros.
  repeat f_equal; Z.div_mod_to_equations; lia.
Qed.

Lemma u32_of_be32 u :
  0 <= u < 4294967296 ->
  u32_of (u / 16777216 mod 256) (u / 65536 mod 256) (u / 256 mod 256) (u mod 256) = u.
Proof. unfold u32_of. intros. Z.div_mod_to_equations. lia. Qed.

Lemma be32_is_bytes u : is_bytes (be32 u).
Proof.
  unfold be32, is_bytes, is_byte.
  repeat constructor; apply Z.mod_pos_bound; lia.
Qed.

Lemma adler32_fold_range l a b :
  0 <= a < 65521 -> 0 <= b < 65521 ->
  0 <= fst (fold_left adler32_step l (a, b)) < 65521 /\
  0 <= snd (fold_left adler32_step l (a, b)) < 65521.
Proof.
  revert a b. induction l as [|x l IH]; intros a b Ha Hb; simpl.
  - auto.
  - apply IH; apply Z.mod_pos_bound; lia.
Qed.

Lemma adler32_sum_range l : 0 <= adler32_sum l < 4294967296.
Proof.
  unfold adler32_sum.
  destruct (adler32_fold_range l 1 0) as [Ha Hb]; lia.
Qed.

Lemma writeInt32BE_ok v off buf :
  in_i32 v -> (off + 4 <= length buf)%nat ->
  writeInt32BE v off buf = Ret (write_at off (be32 (v mod 4294967296)) buf).
Proof.
  unfold in_i32, writeInt32BE. intros Hv Hl.
  replace (-2147483648 <=? v) with true by (symmetry; apply Z.leb_le; lia).
  replace (v <=? 2147483647) with true by (symmetry; apply Z.leb_le; lia).
  replace (off + 4 <=? length buf)%nat with true by (symmetry; apply Nat.leb_le; lia).
  reflexivity.
Qed.

Lemma writeUInt32BE_ok v off buf :
  in_u32 v -> (off + 4 <= length buf)%nat ->
  writeUInt32BE v off buf = Ret (write_at off (be32 v) buf).
Proof.
  unfold in_u32, writeUInt32BE. intros Hv Hl.
  replace (0 <=? v) with true by (symmetry; apply Z.leb_le; lia).
  replace (v <=? 4294967295) with true by (symmetry; apply Z.leb_le; lia).
  replace (off + 4 <=? length buf)%nat with true by (symmetry; apply Nat.leb_le; lia).
  reflexivity.
Qed.

Ltac explode l H :=
  let rec go :=
    lazymatch type of H with
    | length ?l' = S ?n =>
        let x := fresh "b" in
        destruct l' as [| x l']; [discriminate H |];
        simpl in H; apply Nat.succ_inj in H; go
    | length ?l' = O =>
        destruct l'; [clear H | discriminate H]
    end in
  go.

Lemma write_at_length off src buf : length (write_at off src buf) = length buf.
Proof.
  unfold write_at. rewrite !length_app, !length_firstn, length_skipn. lia.
Qed.

Lemma Buffer_from_binary_id l : is_bytes l -> Buffer_from_binary l = l.
Proof.
  unfold is_bytes, Buffer_from_binary. induction 1 as [|x l Hx _ IH]; simpl.
  - reflexivity.
  - rewrite IH. f_equal. apply Z.mod_small. exact Hx.
Qed.

Lemma packHeader_layout hd :
  h_magic hd = HEADER_MAGIC ->
  in_i32 (h_version hd) -> in_u32 (h_header_checksum hd) ->
  in_u32 (h_body_checksum hd) -> in_i32 (h_body_size hd) ->
  in_i32 (h_flags hd) -> in_i32 (h_unused hd) -> in_i32 (h_command hd) ->
  in_i32 (h_error_code hd) ->
  length (or_nuls (h_pad1 hd) 12) = 12%nat -> is_bytes (h_pad1 hd) ->
  length (h_key hd) = 32%nat -> is_bytes (h_key hd) ->
  length (or_nuls (h_pad2 hd) 48) = 48%nat -> is_bytes (h_pad2 hd) ->
  packHeader hd = Ret (layout hd).
Proof.
  destruct hd as [mg v hc bc bs fl un cm ec k p1 p2]; simpl.
  intros -> Hv Hhc Hbc Hbs Hfl Hun Hcm Hec Hp1 Bp1 Hk Bk Hp2 Bp2.
  unfold packHeader, layout; simpl h_magic; simpl h_version.
  cbn [h_header_checksum h_body_checksum h_body_size h_flags h_unused h_command
       h_error_code h_key h_pad1 h_pad2].
  assert (Bo1 : is_bytes (or_nuls p1 12)).
  { destruct p1; [repeat constructor; unfold is_byte; lia | exact Bp1]. }
  assert (Bo2 : is_bytes (or_nuls p2 48)).
  { destruct p2; [repeat constructor; unfold is_byte; lia | exact Bp2]. }
  unfold write_binary.
  rewrite (Buffer_from_binary_id _ Bo1), (Buffer_from_binary_id _ Bk),
    (Buffer_from_binary_id _ Bo2).
  generalize dependent (or_nuls p1 12). intros q1 Hq1 _.
  generalize dependent (or_nuls p2 48). intros q2 Hq2 _.
  clear Bp1 Bp2 Bk.
  explode q1 Hq1. explode k Hk. explode q2 Hq2.
  repeat (first [rewrite writeInt32BE_ok by (assumption || (rewrite ?write_at_length; simpl; lia))
                | rewrite writeUInt32BE_ok by (assumption || (rewrite ?write_at_length; simpl; lia))];
          unfold bind at 1).
  reflexivity.
Qed.

Lemma unpackHeader_fields h :
  length h = 128%nat -> is_bytes h -> unpackHeader h = Ret (fields_of h).
Proof.
  intros Hl Hb. unfold unpackHeader.
  rewrite Hl. simpl negb. cbv iota.
  rewrite (Buffer_from_binary_id _ Hb). clear Hb.
  explode h Hl. reflexivity.
Qed.

Lemma toString_utf8_acpp m :
  length m = 4%nat -> is_bytes m ->
  jsstring_eqb (toString_utf8 m) HEADER_MAGIC = true <-> m = str "acpp".
Proof.
  intros _ _. unfold jsstring_eqb, HEADER_MAGIC.
  destruct (list_eq_dec Z.eq_dec _ _) as [E|E]; split; intros H; try discriminate.
  - apply Utf8Facts.toString_utf8_ascii_inv in E; [exact E|].
    repeat constructor.
  - reflexivity.
  - exfalso. apply E. subst m. reflexivity.
Qed.

Lemma be32_s32 b0 b1 b2 b3 :
  is_byte b0 -> is_byte b1 -> is_byte b2 -> is_byte b3 ->
  be32 ((if 2147483648 <=? u32_of b0 b1 b2 b3
         then u32_of b0 b1 b2 b3 - 4294967296 else u32_of b0 b1 b2 b3)
        mod 4294967296) = [b0; b1; b2; b3].
Proof.
  intros H0 H1 H2 H3.
  transitivity (be32 (u32_of b0 b1 b2 b3)); [| apply be32_u32_of; assumption].
  f_equal.
  pose proof (u32_of_range _ _ _ _ H0 H1 H2 H3) as Hr.
  destruct (Z.leb_spec 2147483648 (u32_of b0 b1 b2 b3)).
  - replace (u32_of b0 b1 b2 b3 - 4294967296)
      with (u32_of b0 b1 b2 b3 + (-1) * 4294967296) by ring.
    rewrite Z.mod_add by lia. apply Z.mod_small. lia.
  - apply Z.mod_small. lia.
Qed.

Lemma field_i32_range h off :
  is_bytes h -> in_i32 (field_i32 h off).
Proof.
  intros Hb. unfold field_i32, field_u32, in_i32.
  assert (Hs : is_bytes (skipn off h)).
  { unfold is_bytes in *. rewrite Forall_forall in *. intros x Hx.
    apply Hb. rewrite <- (firstn_skipn off h). apply in_or_app. right. exact Hx. }
  destruct (skipn off h) as [|b0 [|b1 [|b2 [|b3 r]]]]; try (simpl; lia).
  inversion Hs as [|? ? H0 Hs1]; subst. inversion Hs1 as [|? ? H1 Hs2]; subst.
  inversion Hs2 as [|? ? H2 Hs3]; subst. inversion Hs3 as [|? ? H3 _]; subst.
  pose proof (u32_of_range _ _ _ _ H0 H1 H2 H3).
  destruct (Z.leb_spec 2147483648 (u32_of b0 b1 b2 b3)); lia.
Qed.

Lemma field_u32_range h off :
  is_bytes h -> in_u32 (field_u32 h off).
Proof.
  intros Hb. unfold field_u32, in_u32.
  assert (Hs : is_bytes (skipn off h)).
  { unfold is_bytes in *. rewrite Forall_forall in *. intros x Hx.
    apply Hb. rewrite <- (firstn_skipn off h). apply in_or_app. right. exact Hx. }
  destruct (skipn off h) as [|b0 [|b1 [|b2 [|b3 r]]]]; try (simpl; lia).
  inversion Hs as [|? ? H0 Hs1]; subst. inversion Hs1 as [|? ? H1 Hs2]; subst.
  inversion Hs2 as [|? ? H2 Hs3]; subst. inversion Hs3 as [|? ? H3 _]; subst.
  pose proof (u32_of_range _ _ _ _ H0 H1 H2 H3). lia.
Qed.

Lemma is_bytes_firstn n l : is_bytes l -> is_bytes (firstn n l).
Proof.
  unfold is_bytes. rewrite !Forall_forall. intros H x Hx. apply H.
  rewrite <- (firstn_skipn n l). apply in_or_app. left. exact Hx.
Qed.

Lemma is_bytes_skipn n l : is_bytes l -> is_bytes (skipn n l).
Proof.
  unfold is_bytes. rewrite !Forall_forall. intros H x Hx. apply H.
  rewrite <- (firstn_skipn n l). apply in_or_app. right. exact Hx.
Qed.

Ltac bytes_of H :=
  unfold is_bytes in H;
  repeat match type of H with
         | Forall _ (_ :: _) =>
             let Hx := fresh "Hb" in
             apply Forall_cons_iff in H; destruct H as [Hx H]
         end.

Lemma repack_zeroes h :
  length h = 128%nat -> is_bytes h -> firstn 4 h = str "acpp" ->
  packHeader
    (mkHeaderData (toString_utf8 (firstn 4 h)) (field_i32 h 4) 0 (field_u32 h 12)
       (field_i32 h 16) (field_i32 h 20) (field_i32 h 24) (field_i32 h 28)
       (field_i32 h 32) (slice 48 80 h) (slice 36 48 h) (slice 80 128 h))
  = Ret (zero_checksum_field h).
Proof.
  intros Hl Hb Hm.
  assert (Hs : forall a b, is_bytes (slice a b h)).
  { intros a b. unfold slice. apply is_bytes_firstn, is_bytes_skipn, Hb. }
  pose proof (fun off => field_i32_range h off Hb) as Hi.
  pose proof (fun off => field_u32_range h off Hb) as Hu.
  rewrite Hm.
  explode h Hl. injection Hm as -> -> -> ->.
  rewrite packHeader_layout;
    cbn [h_magic h_version h_header_checksum h_body_checksum h_body_size
         h_flags h_unused h_command h_error_code h_key h_pad1 h_pad2];
    try apply Hi; try apply Hu; try apply Hs;
    try (unfold in_u32; lia); try reflexivity.
  f_equal. clear Hs Hi Hu.
  unfold layout. cbn -[be32 Z.modulo].
  bytes_of Hb.
  unfold field_i32, field_u32; cbn [skipn].
  rewrite !be32_s32, be32_u32_of by assumption.
  reflexivity.
Qed.

Lemma substr_header data :
  (128 <= length data)%nat -> substr data 0 (Some 128) = firstn 128 data.
Proof.
  intros H. unfold substr.
  replace (0 <? 0) with false by reflexivity.
  replace (Z.min 0 (Z.of_nat (length data))) with 0 by lia.
  replace (Z.min (Z.max 128 0) (Z.of_nat (length data) - 0)) with 128 by lia.
  reflexivity.
Qed.

Lemma substr_tail data :
  (128 <= length data)%nat -> substr data 128 None = skipn 128 data.
Proof.
  intros H. unfold substr.
  replace (128 <? 0) with false by reflexivity.
  replace (Z.min 128 (Z.of_nat (length data))) with 128 by lia.
  replace (Z.to_nat 128) with 128%nat by reflexivity.
  apply firstn_all2. rewrite length_skipn. lia.
Qed.

Lemma includes_In l x : includes l x = true <-> In x l.
Proof.
  unfold includes. rewrite existsb_exists. split.
  - intros [y [Hy E]]. apply Z.eqb_eq in E. subst. exact Hy.
  - intros H. exists x. split; [exact H | apply Z.eqb_refl].
Qed.

Lemma zero_checksum_field_bytes h : is_bytes h -> is_bytes (zero_checksum_field h).
Proof.
  intros H. unfold zero_checksum_field, is_bytes.
  apply Forall_app. split; [apply is_bytes_firstn, H|].
  apply Forall_app. split; [|apply is_bytes_skipn, H].
  repeat constructor; unfold is_byte; lia.
Qed.

Lemma body_of_nonempty data :
  (128 < length data)%nat -> exists x r, body_of data = x :: r.
Proof.
  intros H. unfold body_of.
  destruct (skipn 128 data) as [|x r] eqn:E.
  - apply (f_equal (@length Z)) in E. rewrite length_skipn in E. simpl in E. lia.
  - eauto.
Qed.

Ltac fails_by tac :=
  left; split; [ tac | eexists; reflexivity ].

(** [parseRaw] decides the documented failure conditions: either one of
    them holds and it throws, or none holds and it returns the message. *)
Lemma parseRaw_decides (data : jsstring) :
  is_bytes data ->
  (parse_fails data /\ throws (parseRaw data false)) \/
  (~ parse_fails data /\ parseRaw data false = Ret (PMessage (parsed_message data))).
Proof.
  intros Hb. unfold parseRaw, parse_fails, parsed_message, has_body.
  change HEADER_SIZE with 128%nat.
  destruct (Nat.ltb_spec (length data) 128) as [Hlt | Hge].
  { fails_by ltac:(left; exact Hlt). }
  change (Z.of_nat 128) with 128.
  rewrite substr_header, substr_tail by exact Hge.
  fold (header_of data). fold (body_of data).
  assert (Hhl : length (header_of data) = 128%nat).
  { unfold header_of. rewrite length_firstn. lia. }
  assert (Hhb : is_bytes (header_of data)) by (apply is_bytes_firstn; exact Hb).
  assert (Hbb : is_bytes (body_of data)) by (apply is_bytes_skipn; exact Hb).
  rewrite (unpackHeader_fields _ Hhl Hhb).
  cbn [bind fields_of h_magic h_version h_header_checksum h_body_checksum
       h_body_size h_flags h_unused h_command h_error_code h_key h_pad1 h_pad2].
  rewrite andb_false_r.
  assert (Hm4 : length (firstn 4 (header_of data)) = 4%nat).
  { rewrite length_firstn. lia. }
  pose proof (toString_utf8_acpp _ Hm4 (is_bytes_firstn 4 _ Hhb)) as Hmagic.
  destruct (jsstring_eqb (toString_utf8 (firstn 4 (header_of data))) HEADER_MAGIC).
  2:{ fails_by ltac:(right; left; intros E; apply Hmagic in E; discriminate E). }
  assert (Hm : firstn 4 (header_of data) = str "acpp") by (apply Hmagic; reflexivity).
  cbn [negb].
  pose proof (includes_In versions (field_i32 (header_of data) 4)) as Hver.
  destruct (includes versions (field_i32 (header_of data) 4)).
  2:{ fails_by ltac:(do 2 right; left; intros E; apply Hver in E; discriminate E). }
  cbn [negb].
  rewrite (repack_zeroes _ Hhl Hhb Hm). cbn [bind].
  rewrite (Buffer_from_binary_id _ (zero_checksum_field_bytes _ Hhb)).
  destruct (Z.eqb_spec (field_u32 (header_of data) 8)
              (adler32_sum (zero_checksum_field (header_of data)))) as [Ehc | Nhc].
  2:{ fails_by ltac:(do 3 right; left; exact Nhc). }
  cbn [negb].
  pose proof (includes_In commands (field_i32 (header_of data) 28)) as Hcmd.
  destruct (Nat.ltb_spec 128 (length data)) as [Hbody | Hnobody].
  - destruct (body_of_nonempty data Hbody) as [x [r Ebody]].
    rewrite (Buffer_from_binary_id _ Hbb).
    rewrite Ebody. cbn [truthy andb str_length]. rewrite <- Ebody.
    destruct (Z.eqb_spec (field_i32 (header_of data) 16) (-1)) as [Es | Ns].
    { fails_by ltac:(do 7 right; split; assumption). }
    destruct (Z.eqb_spec (field_i32 (header_of data) 16)
                (Z.of_nat (length (body_of data)))) as [El | Nl].
    2:{ fails_by ltac:(do 5 right; left; split; [assumption | congruence]). }
    cbn [negb].
    destruct (Z.eqb_spec (field_u32 (header_of data) 12)
                (adler32_sum (body_of data))) as [Ec | Nc].
    2:{ fails_by ltac:(do 6 right; left; split; [assumption | congruence]). }
    cbn [negb].
    destruct (includes commands (field_i32 (header_of data) 28)).
    2:{ fails_by ltac:(do 4 right; left; intros E; apply Hcmd in E; discriminate E). }
    cbn [negb].
    right. split; [|reflexivity].
    intros [H|[H|[H|[H|[H|[[_ H]|[[_ H]|[_ H]]]]]]]]; try congruence; try lia.
    + apply H, Hver; reflexivity.
    + apply H, Hcmd; reflexivity.
  - cbn [truthy andb].
    destruct (includes commands (field_i32 (header_of data) 28)).
    2:{ fails_by ltac:(do 4 right; left; intros E; apply Hcmd in E; discriminate E). }
    cbn [negb].
    right. split; [|reflexivity].
    intros [H|[H|[H|[H|[H|[[H _]|[[H _]|[H _]]]]]]]]; try congruence; try lia.
    + apply H, Hver; reflexivity.
    + apply H, Hcmd; reflexivity.
Qed.

(** C2: on a byte string, [parseRaw] throws exactly in the eight
    documented cases, and otherwise returns the message read from the
    header with the bytes after the header as its body. *)
Theorem parseRaw_fails_exactly (data : jsstring) :
  is_bytes data ->
  (throws (parseRaw data false) <-> parse_fails data) /\
  (~ parse_fails data -> parseRaw data false = Ret (PMessage (parsed_message data))).
Proof.
  intros Hb.
  destruct (parseRaw_decides data Hb) as [[Hfail Hthrow] | [Hok Hret]].
  - split.
    + split; intros _; assumption.
    + intros Hnot. contradiction.
  - split.
    + split.
      * intros [e He]. rewrite Hret in He. discriminate He.
      * intros Hfail. contradiction.
    + intros _. exact Hret.
Qed.

Lemma parseRaw_fails_exactly_witness :
  (throws (parseRaw sample_packet false) <-> parse_fails sample_packet) /\
  (~ parse_fails sample_packet ->
   parseRaw sample_packet false = Ret (PMessage (parsed_message sample_packet))).
Proof.
  apply (parseRaw_fails_exactly sample_packet).
  apply (ListFacts.Forall_range_check 0 256). vm_compute. reflexivity.
Defined.

End MessageProofs.

(** ** Composing and parsing a message *)

Module MessageRoundTrip.
Import MessageJs MessageSpec MessageProofs ListFacts.

Lemma acpp_units : str "acpp" = [97; 99; 112; 112].
Proof. reflexivity. Qed.

Lemma s32_of_be32 v :
  in_i32 v -> field_i32 (be32 (v mod 4294967296)) 0 = v.
Proof.
  unfold in_i32, field_i32, field_u32, be32. intros Hv. cbn [skipn].
  assert (Hr : 0 <= v mod 4294967296 < 4294967296) by (apply Z.mod_pos_bound; lia).
  rewrite (u32_of_be32 _ Hr).
  destruct (Z.leb_spec 2147483648 (v mod 4294967296)) as [H|H];
    Z.div_mod_to_equations; lia.
Qed.

Lemma field_u32_be32 u : in_u32 u -> field_u32 (be32 u) 0 = u.
Proof.
  unfold in_u32, field_u32, be32. intros Hu. cbn [skipn].
  apply u32_of_be32. lia.
Qed.

Lemma In_versions_i32 v : In v versions -> in_i32 v.
Proof. unfold versions, in_i32. simpl. intros [<-|[<-|[]]]; lia. Qed.

Lemma In_commands_i32 c : In c commands -> in_i32 c.
Proof.
  unfold commands, in_i32. simpl.
  intros H. repeat (destruct H as [<-|H]; [lia|]). destruct H.
Qed.

Lemma header_record_packs m hc :
  encodable m -> in_u32 hc ->
  packHeader (header_record m hc) = Ret (layout (header_record m hc)).
Proof.
  intros [] Hhc. apply packHeader_layout; cbn; auto; constructor.
Qed.

Lemma layout_length m hc :
  encodable m -> length (layout (header_record m hc)) = 128%nat.
Proof.
  intros []. unfold layout. cbn. rewrite length_app. cbn.
  rewrite enc_key_length0. reflexivity.
Qed.

Lemma layout_bytes m hc :
  encodable m -> is_bytes (layout (header_record m hc)).
Proof.
  intros []. unfold layout, is_bytes.
  repeat (apply Forall_app; split); try apply be32_is_bytes; try assumption;
    cbn; repeat constructor; unfold is_byte; lia.
Qed.

Lemma layout_fields m hc :
  encodable m -> in_u32 hc ->
  let h := layout (header_record m hc) in
  firstn 4 h = str "acpp" /\ field_i32 h 4 = version m /\ field_u32 h 8 = hc /\
  field_u32 h 12 = body_checksum m /\ field_i32 h 16 = body_size m /\
  field_i32 h 20 = flags m /\ field_i32 h 24 = unused m /\
  field_i32 h 28 = command m /\ field_i32 h 32 = error_code m /\
  slice 48 80 h = key m /\
  zero_checksum_field h = layout (header_record m 0).
Proof.
  intros [] Hhc h. subst h. unfold layout, HEADER_MAGIC.
  cbn [header_record h_magic h_version h_header_checksum h_body_checksum
       h_body_size h_flags h_unused h_command h_error_code h_key h_pad1 h_pad2].
  rewrite acpp_units.
  repeat split.
  - rewrite <- (s32_of_be32 (version m)) at 2 by assumption. reflexivity.
  - rewrite <- (field_u32_be32 hc Hhc) at 2. reflexivity.
  - rewrite <- (field_u32_be32 (body_checksum m)) at 2 by assumption. reflexivity.
  - rewrite <- (s32_of_be32 (body_size m)) at 2 by assumption. reflexivity.
  - rewrite <- (s32_of_be32 (flags m)) at 2 by assumption. reflexivity.
  - rewrite <- (s32_of_be32 (unused m)) at 2 by assumption. reflexivity.
  - rewrite <- (s32_of_be32 (command m)) at 2 by assumption. reflexivity.
  - rewrite <- (s32_of_be32 (error_code m)) at 2 by assumption. reflexivity.
  - unfold slice. cbn [app be32 skipn or_nuls padEnd_nul repeat length Nat.sub].
    change (80 - 48)%nat with 32%nat.
    apply firstn_app_exact. assumption.
Qed.

Lemma new_Message_encodable v f u c e k b :
  In v versions -> In c commands -> in_i32 f -> in_i32 u -> in_i32 e ->
  length k = 32%nat -> is_bytes k -> Z.of_nat (length b) <= 2147483647 ->
  encodable (new_Message v f u c e k (Some b) None).
Proof.
  intros Hv Hc Hf Hu He Hk Bk Lb.
  constructor; cbn; auto using In_versions_i32, In_commands_i32.
  - unfold in_i32. lia.
  - pose proof (adler32_sum_range (Buffer_from_binary b)). unfold in_u32. lia.
Qed.

(** C1, amended: for every message built by the constructor from a
    recognised version and command, flags / unused / error code in the
    signed 32-bit range, a 32-byte key and a non-empty body of bytes
    (body_size and body_checksum as the constructor computes them),
    [composeRawPacket] succeeds, its output begins with "acpp", and
    [parseRaw] returns the message itself. *)
Theorem compose_parse_roundtrip (v f u c e : Z) (k b : jsstring) :
  In v versions -> In c commands ->
  in_i32 f -> in_i32 u -> in_i32 e ->
  length k = 32%nat -> is_bytes k ->
  b <> [] -> is_bytes b -> Z.of_nat (length b) <= 2147483647 ->
  let m := new_Message v f u c e k (Some b) None in
  exists raw,
    composeRawPacket m = Ret raw /\
    firstn 4 raw = str "acpp" /\
    parseRaw raw false = Ret (PMessage m).
Proof.
  intros Hv Hc Hf Hu He Hk Bk Hb Bb Lb m.
  assert (Hm : encodable m) by (apply new_Message_encodable; assumption).
  set (h0 := layout (header_record m 0)).
  set (hc := adler32_sum (Buffer_from_binary h0)).
  assert (Hhc : in_u32 hc).
  { pose proof (adler32_sum_range (Buffer_from_binary h0)). unfold in_u32. fold hc in H. lia. }
  set (h1 := layout (header_record m hc)).
  assert (Hcompose : composeRawPacket m = Ret (h1 ++ b)).
  { unfold composeRawPacket, composeHeader.
    fold (header_record m 0).
    rewrite (header_record_packs m 0 Hm) by (unfold in_u32; lia).
    cbn [bind]. fold h0. fold hc. fold (header_record m hc).
    rewrite (header_record_packs m hc Hm Hhc). cbn [bind].
    subst m. cbn [new_Message body truthy].
    destruct b; [contradiction Hb; reflexivity | reflexivity]. }
  destruct (layout_fields m hc Hm Hhc)
    as (F0 & F1 & F2 & F3 & F4 & F5 & F6 & F7 & F8 & F9 & F10).
  fold h1 in F0, F1, F2, F3, F4, F5, F6, F7, F8, F9, F10. fold h0 in F10.
  assert (Hl1 : length h1 = 128%nat) by (apply layout_length; exact Hm).
  assert (Hhd : header_of (h1 ++ b) = h1).
  { unfold header_of. apply firstn_app_exact. exact Hl1. }
  assert (Hbd : body_of (h1 ++ b) = b).
  { unfold body_of. apply skipn_app_exact. exact Hl1. }
  assert (Hlen : (128 < length (h1 ++ b))%nat).
  { rewrite length_app, Hl1. destruct b; [contradiction Hb; reflexivity | cbn; lia]. }
  exists (h1 ++ b). split; [exact Hcompose | split].
  - rewrite <- (firstn_skipn 4 h1), <- app_assoc, F0.
    apply firstn_app_exact. reflexivity.
  - assert (Braw : is_bytes (h1 ++ b)).
    { apply Forall_app. split; [apply layout_bytes; exact Hm | exact Bb]. }
    destruct (parseRaw_decides (h1 ++ b) Braw) as [[Hfail _] | [_ Hok]].
    2:{ rewrite Hok. unfold parsed_message.
        rewrite Hhd, Hbd, F1, F4, F5, F6, F7, F8, F9.
        apply Nat.ltb_lt in Hlen. rewrite Hlen. reflexivity. }
    exfalso. revert Hfail.
    unfold parse_fails, has_body. rewrite Hhd, Hbd, F0, F1, F2, F3, F4, F7, F10.
    subst hc. rewrite (Buffer_from_binary_id h0) by (apply layout_bytes; exact Hm).
    subst m. cbn [new_Message version command body_size body_checksum].
    rewrite (Buffer_from_binary_id b Bb).
    intros [H|[H|[H|[H|[H|[[_ H]|[[_ H]|[_ H]]]]]]]];
      try (apply H; (reflexivity || assumption)); lia.
Qed.

(** C1 as stated fails on a message with an attached but empty body: the
    packet is the bare header, and parsing it yields a message whose body
    is [undefined], not the empty string. *)
Lemma roundtrip_loses_empty_body :
  let m := new_Message 196609 4 0 20 0 (repeat 0 32) (Some []) None in
  In (version m) versions /\ In (command m) commands /\
  body_size m = Z.of_nat (length (@nil Z)) /\
  (exists raw, composeRawPacket m = Ret raw /\
     exists m', parseRaw raw false = Ret (PMessage m') /\ body m' = None /\ m' <> m).
Proof.
  cbv zeta. split; [vm_compute; tauto|]. split; [vm_compute; tauto|].
  split; [reflexivity|].
  eexists. split; [vm_compute; reflexivity|].
  eexists. split; [vm_compute; reflexivity|].
  split; [reflexivity | discriminate].
Qed.

(** The round trip also needs the integer fields to fit the signed
    32-bit writes of [packHeader] ... *)
Lemma compose_rejects_wide_flags :
  composeRawPacket
    (new_Message 196609 2147483648 0 20 0 (repeat 0 32) (Some (str "syAP")) None)
  = Throw RangeError.
Proof. vm_compute. reflexivity. Qed.

(** ... and the key to fill its 32-byte field: a shorter key comes back
    padded with NUL bytes. *)
Lemma roundtrip_pads_short_key :
  exists raw m',
    composeRawPacket
      (new_Message 196609 4 0 20 0 (str "key") (Some (str "syAP")) None) = Ret raw /\
    parseRaw raw false = Ret (PMessage m') /\
    key m' = str "key" ++ repeat 0 29.
Proof.
  eexists. eexists. split; [vm_compute; reflexivity|].
  split; [vm_compute; reflexivity | reflexivity].
Qed.

Lemma compose_parse_roundtrip_witness :
  exists raw,
    composeRawPacket (new_Message 196609 4 0 20 0 (repeat 0 32) (Some (str "syAP")) None)
      = Ret raw /\
    firstn 4 raw = str "acpp" /\
    parseRaw raw false
      = Ret (PMessage (new_Message 196609 4 0 20 0 (repeat 0 32) (Some (str "syAP")) None)).
Proof.
  apply (compose_parse_roundtrip 196609 4 0 20 0 (repeat 0 32) (str "syAP")).
  - right; left; reflexivity.
  - vm_compute; tauto.
  - unfold in_i32; lia.
  - unfold in_i32; lia.
  - unfold in_i32; lia.
  - reflexivity.
  - apply (Forall_range_check 0 256). vm_compute. reflexivity.
  - discriminate.
  - apply (Forall_range_check 0 256). vm_compute. reflexivity.
  - vm_compute; discriminate.
Defined.

End MessageRoundTrip.

(** ** The header key *)

Module HeaderKeyProofs.
Import MessageJs HeaderKeySpec.

Lemma lxor_unit a b :
  0 <= a < 65536 -> 0 <= b < 65536 -> 0 <= Z.lxor a b < 65536.
Proof.
  intros Ha Hb. split.
  - apply Z.lxor_nonneg. lia.
  - destruct (Z.eq_dec (Z.lxor a b) 0) as [E|N]; [lia|].
    assert (Hp : 0 < Z.lxor a b) by (pose proof (proj2 (Z.lxor_nonneg a b)); lia).
    change 65536 with (2 ^ 16). apply Z.log2_lt_pow2; [exact Hp|].
    pose proof (Z.log2_lxor a b (proj1 Ha) (proj1 Hb)) as Hl.
    assert (Z.log2 a < 16).
    { destruct (Z.eq_dec a 0) as [->|]; [reflexivity|].
      apply Z.log2_lt_pow2; [lia | change (2 ^ 16) with 65536; lia]. }
    assert (Z.log2 b < 16).
    { destruct (Z.eq_dec b 0) as [->|]; [reflexivity|].
      apply Z.log2_lt_pow2; [lia | change (2 ^ 16) with 65536; lia]. }
    lia.
Qed.

Lemma header_key_loop_map K B i fuel acc :
  header_key_loop K B i fuel acc =
  acc ++ map (fun j => fromCharCode (Z.lxor (charCodeAt_or0 K j) (charCodeAt_or0 B j)))
             (seq i fuel).
Proof.
  revert i acc. induction fuel as [|fuel IH]; intros i acc; simpl.
  - symmetry. apply app_nil_r.
  - rewrite IH, <- app_assoc. reflexivity.
Qed.

Lemma map_nth_combine (g : Z -> Z -> Z) K B n :
  length K = n -> length B = n ->
  map (fun j => g (nth j K 0) (nth j B 0)) (seq 0 n) =
  map (fun p => g (fst p) (snd p)) (combine K B).
Proof.
  revert K B. induction n as [|n IH]; intros K B HK HB.
  - destruct K; [reflexivity | discriminate].
  - destruct K as [|x K]; [discriminate|]. destruct B as [|y B]; [discriminate|].
    simpl. f_equal. rewrite <- seq_shift, map_map. simpl.
    apply IH; [injection HK | injection HB]; auto.
Qed.

Lemma xor_with_zeros l : xor_with l (repeat 0 (length l)) = l.
Proof.
  unfold xor_with. induction l as [|x l IH]; simpl.
  - reflexivity.
  - rewrite Z.lxor_0_r. f_equal. exact IH.
Qed.

Lemma substr_prefix s n :
  0 <= n -> substr s 0 (Some n) = firstn (Z.to_nat n) s.
Proof.
  intros Hn. unfold substr.
  replace (0 <? 0) with false by reflexivity.
  replace (Z.min 0 (Z.of_nat (length s))) with 0 by lia.
  change (Z.to_nat 0) with 0%nat. cbn [skipn].
  rewrite Z.sub_0_r, Z.max_l by lia.
  destruct (Z.le_ge_cases n (Z.of_nat (length s))).
  - rewrite Z.min_l by lia. reflexivity.
  - rewrite Z.min_r by lia. rewrite Nat2Z.id.
    rewrite !firstn_all2 by lia. reflexivity.
Qed.

(** C6: the derived key is the first 32 bytes of the keystream XORed
    byte-for-byte with the password truncated to 32 and NUL-padded to 32;
    the empty password yields the keystream itself, and "admin" yields the
    keystream XORed with "admin" followed by 27 NUL bytes. *)
Theorem generateACPHeaderKey_spec (generateACPKeystream : Z -> jsstring)
  (password : jsstring) :
  length (generateACPKeystream 32) = 32%nat ->
  is_units (generateACPKeystream 32) ->
  is_units password ->
  generateACPHeaderKey generateACPKeystream password
    = spec_header_key (generateACPKeystream 32) password
  /\ generateACPHeaderKey generateACPKeystream (str "")
    = firstn 32 (generateACPKeystream 32)
  /\ generateACPHeaderKey generateACPKeystream (str "admin")
    = xor_with (firstn 32 (generateACPKeystream 32)) (str "admin" ++ repeat 0 27).
Proof.
  intros HL HK HP.
  assert (Hgen : forall p, is_units p ->
            generateACPHeaderKey generateACPKeystream p
            = spec_header_key (generateACPKeystream 32) p).
  { intros p Hp. unfold generateACPHeaderKey, spec_header_key, xor_with.
    rewrite header_key_loop_map. cbn [app].
    rewrite (substr_prefix p 32) by lia.
    change (Z.to_nat 32) with 32%nat.
    unfold padEnd_nul, charCodeAt_or0.
    rewrite (firstn_all2 (n := 32) (generateACPKeystream 32)) by lia.
    set (K := generateACPKeystream 32) in *.
    set (B := firstn 32 p ++ repeat 0 (32 - length (firstn 32 p))).
    assert (HB : length B = 32%nat).
    { unfold B. rewrite length_app, repeat_length, length_firstn. lia. }
    assert (UB : is_units B).
    { unfold B, is_units. apply Forall_app. split.
      - unfold is_units in Hp. rewrite Forall_forall in *. intros x Hx.
        apply Hp. rewrite <- (firstn_skipn 32 p). apply in_or_app. left. exact Hx.
      - apply Forall_forall. intros x Hx. apply repeat_spec in Hx. subst. lia. }
    rewrite (map_nth_combine (fun a b => fromCharCode (Z.lxor a b)) K B 32 HL HB).
    apply map_ext_in. intros [a b] Hin. cbn [fst snd].
    unfold fromCharCode. apply Z.mod_small. apply lxor_unit.
    + unfold is_units in HK. rewrite Forall_forall in HK. apply HK.
      eapply in_combine_l; exact Hin.
    + unfold is_units in UB. rewrite Forall_forall in UB. apply UB.
      eapply in_combine_r; exact Hin. }
  split; [apply Hgen; exact HP | split].
  - rewrite Hgen by constructor.
    unfold spec_header_key. change (str "") with (@nil Z).
    change (firstn 32 (@nil Z)) with (@nil Z). cbn [length app Nat.sub].
    rewrite <- (xor_with_zeros (firstn 32 (generateACPKeystream 32))) at 2.
    rewrite length_firstn, HL. reflexivity.
  - rewrite Hgen; [reflexivity|].
    repeat constructor; cbn; lia.
Qed.

Lemma generateACPHeaderKey_spec_witness :
  generateACPHeaderKey sample_keystream (str "admin")
    = spec_header_key (sample_keystream 32) (str "admin")
  /\ generateACPHeaderKey sample_keystream (str "")
     = firstn 32 (sample_keystream 32)
  /\ generateACPHeaderKey sample_keystream (str "admin")
     = xor_with (firstn 32 (sample_keystream 32)) (str "admin" ++ repeat 0 27).
Proof.
  apply (generateACPHeaderKey_spec sample_keystream (str "admin")).
  - reflexivity.
  - apply (ListFacts.Forall_range_check 0 65536). vm_compute. reflexivity.
  - apply (ListFacts.Forall_range_check 0 65536). vm_compute. reflexivity.
Defined.

End HeaderKeyProofs.

(** ** The session transport *)

Module SessionProofs.
Import SessionTs SessionSpec ListFacts.

Lemma Buffer_slice_prefix buf n :
  0 <= n -> Buffer_slice buf 0 (Some n) = firstn (Z.to_nat n) buf.
Proof.
  intros Hn. unfold Buffer_slice, clamp_index.
  replace (0 <? 0) with false by reflexivity.
  replace (n <? 0) with false by (symmetry; apply Z.ltb_ge; lia).
  replace (Z.min 0 (Z.of_nat (length buf))) with 0 by lia.
  change (Z.to_nat 0) with 0%nat. cbn [skipn]. rewrite Z.sub_0_r.
  destruct (Z.le_ge_cases n (Z.of_nat (length buf))).
  - rewrite Z.min_l by lia. reflexivity.
  - rewrite Z.min_r by lia. rewrite Nat2Z.id, !firstn_all2 by lia. reflexivity.
Qed.

Lemma Buffer_slice_suffix buf n :
  0 <= n -> Buffer_slice buf n None = skipn (Z.to_nat n) buf.
Proof.
  intros Hn. unfold Buffer_slice, clamp_index.
  replace (n <? 0) with false by (symmetry; apply Z.ltb_ge; lia).
  replace (Z.of_nat (length buf) <? 0) with false by (symmetry; apply Z.ltb_ge; lia).
  rewrite Z.min_id.
  destruct (Z.le_ge_cases n (Z.of_nat (length buf))).
  - rewrite Z.min_l by lia. apply firstn_all2. rewrite length_skipn. lia.
  - rewrite Z.min_r by lia. rewrite Nat2Z.id, skipn_all.
    rewrite skipn_all2 by lia. apply firstn_nil.
Qed.

Section Receive.

Context {CFLValue : Type}.
Variable aes_128_ctr : bytes -> bytes -> Z -> bytes -> bytes.
Implicit Types (w : World CFLValue) (s : Session CFLValue).

Lemma plaintext_app e a b :
  plaintext aes_128_ctr e (a ++ b)
  = plaintext aes_128_ctr e a
    ++ plaintext aes_128_ctr (cipher_after aes_128_ctr e a) b.
Proof.
  revert e. induction a as [|c a IH]; intros e; cbn [app plaintext cipher_after].
  - reflexivity.
  - destruct e as [enc|]; rewrite IH, app_assoc; reflexivity.
Qed.

Lemma cipher_after_app e a b :
  cipher_after aes_128_ctr e (a ++ b)
  = cipher_after aes_128_ctr (cipher_after aes_128_ctr e a) b.
Proof.
  revert e. induction a as [|c a IH]; intros e; cbn [app cipher_after].
  - reflexivity.
  - destruct e as [enc|]; apply IH.
Qed.

Lemma same_channel_refl s : same_channel s s.
Proof. unfold same_channel. auto. Qed.

Lemma same_channel_trans s1 s2 s3 :
  same_channel s1 s2 -> same_channel s2 s3 -> same_channel s1 s3.
Proof.
  unfold same_channel. intros (A1 & A2 & A3 & A4) (B1 & B2 & B3 & B4).
  repeat split; congruence.
Qed.

(** What the 'data' handler does to a session that is inside a receive. *)
Lemma deliver_effect data s :
  buffer (deliver aes_128_ctr data s)
    = buffer s ++ plaintext aes_128_ctr (encryption s) [data] /\
  encryption (deliver aes_128_ctr data s)
    = cipher_after aes_128_ctr (encryption s) [data] /\
  reading (deliver aes_128_ctr data s) = reading s /\
  same_channel s (deliver aes_128_ctr data s).
Proof.
  unfold deliver, same_channel, monitor_events.
  cbn [emit encryption buffer reading socket written console emitted].
  destruct (encryption s) as [enc|] eqn:E; cbn [plaintext cipher_after].
  - destruct (decrypt aes_128_ctr enc data) as [out enc'].
    cbn [fst snd set_encryption set_buffer emit encryption buffer reading socket
         written console emitted].
    rewrite !flat_map_app. cbn [flat_map]. rewrite !app_nil_r.
    repeat split; reflexivity.
  - cbn [set_buffer emit encryption buffer reading socket written console emitted].
    rewrite !flat_map_app. cbn [flat_map]. rewrite !app_nil_r, E.
    repeat split; reflexivity.
Qed.

Lemma fold_deliver_effect chunks : forall s,
  let s' := fold_left (fun s data => deliver aes_128_ctr data s) chunks s in
  buffer s' = buffer s ++ plaintext aes_128_ctr (encryption s) chunks /\
  encryption s' = cipher_after aes_128_ctr (encryption s) chunks /\
  reading s' = reading s /\
  same_channel s s'.
Proof.
  induction chunks as [|c chunks IH]; intros s; cbn [fold_left].
  - cbn. rewrite app_nil_r. auto using same_channel_refl.
  - destruct (deliver_effect c s) as (B & E & R & C).
    destruct (IH (deliver aes_128_ctr c s)) as (B' & E' & R' & C').
    cbv zeta. rewrite B', E', R', B, E, R.
    change (c :: chunks) with ([c] ++ chunks).
    rewrite plaintext_app, cipher_after_app, app_assoc.
    split; [reflexivity | split; [reflexivity | split; [reflexivity|]]].
    eapply same_channel_trans; eassumption.
Qed.

(** What the polling loop returns, in terms of the stream it reads. *)
Lemma receive_loop_stream timeout :
  0 <= timeout ->
  forall ticks s chunks waiting last,
    clock_monotone last ticks ->
    (0 < waiting -> buffer s = []) ->
    let all := buffer s ++ plaintext aes_128_ctr (encryption s) (chunks_of ticks) in
    match receive_loop aes_128_ctr timeout ticks last s chunks waiting last with
    | (Done out, (s', clock', ticks')) =>
        out = chunks ++ firstn (Z.to_nat waiting) all /\
        all = firstn (Z.to_nat waiting) all ++ buffer s'
              ++ plaintext aes_128_ctr (encryption s') (chunks_of ticks') /\
        (Z.to_nat waiting <= length all)%nat /\
        clock_monotone clock' ticks' /\
        reading s' = reading s /\
        same_channel s s'
    | (Pending, (s', _, _)) =>
        Z.of_nat (length all) < waiting /\ reading s' = reading s
    | (Raised _, _) => False
    end.
Proof.
  intros Ht. induction ticks as [|t rest IH]; intros s chunks waiting last Hm Hinv all.
  - subst all. cbn [receive_loop chunks_of map concat plaintext].
    rewrite app_nil_r.
    destruct (Z.ltb_spec 0 waiting) as [Hw|Hw].
    + rewrite (Hinv Hw). cbn. split; [lia | reflexivity].
    + replace (Z.to_nat waiting) with 0%nat by lia. cbn [firstn app].
      rewrite !app_nil_r. repeat split; try lia; auto.
  - cbn [receive_loop]. destruct (Z.ltb_spec 0 waiting) as [Hw|Hw].
    + destruct Hm as (H1 & H2 & H3).
      replace (tick_check t + timeout <? last) with false
        by (symmetry; apply Z.ltb_ge; lia).
      destruct (fold_deliver_effect (tick_chunks t) s) as (B1 & E1 & R1 & C1).
      set (s1 := fold_left (fun s data => deliver aes_128_ctr data s) (tick_chunks t) s) in *.
      rewrite Buffer_slice_prefix by lia.
      rewrite Buffer_slice_suffix by lia. rewrite Nat2Z.id.
      set (n := Z.to_nat waiting).
      set (A := plaintext aes_128_ctr (encryption s) (tick_chunks t)) in *.
      rewrite (Hinv Hw) in B1. cbn [app] in B1.
      assert (Hall : all = A ++ plaintext aes_128_ctr (encryption s1) (chunks_of rest)).
      { subst all. rewrite (Hinv Hw). cbn [app chunks_of map concat].
        fold (chunks_of rest). rewrite plaintext_app, E1. reflexivity. }
      rewrite B1.
      set (received := firstn n A).
      set (s2 := set_buffer (skipn (length received) A) s1).
      assert (Hlen : (length received <= n)%nat)
        by (unfold received; rewrite length_firstn; lia).
      assert (Hinv' : 0 < waiting - Z.of_nat (length received) -> buffer s2 = []).
      { intros Hpos. cbn [s2 set_buffer buffer]. apply skipn_all2. unfold received in *.
        rewrite length_firstn in *. lia. }
      specialize (IH s2 (chunks ++ received) (waiting - Z.of_nat (length received))
                    (tick_stamp t) H3 Hinv').
      cbv zeta in IH. cbn [s2 set_buffer buffer encryption reading] in IH.
      fold s2 in IH.
      replace (Z.to_nat (waiting - Z.of_nat (length received)))
        with (n - length received)%nat in IH by lia.
      assert (Hta : A = received ++ skipn (length received) A).
      { unfold received. rewrite length_firstn.
        destruct (Nat.le_ge_cases n (length A)).
        - rewrite Nat.min_l by lia. symmetry. apply firstn_skipn.
        - rewrite Nat.min_r by lia. rewrite firstn_all2, skipn_all by lia.
          symmetry. apply app_nil_r. }
      set (tail := plaintext aes_128_ctr (encryption s1) (chunks_of rest)) in *.
      assert (Hfirst : firstn n all
                = received ++ firstn (n - length received)
                                (skipn (length received) A ++ tail)).
      { rewrite Hall. rewrite Hta at 1. rewrite <- app_assoc.
        rewrite firstn_app.
        rewrite (firstn_all2 (n := n) received) by lia. reflexivity. }
      assert (Hch : same_channel s s2).
      { eapply same_channel_trans; [exact C1|].
        unfold same_channel, monitor_events. cbn. auto. }
      destruct (receive_loop aes_128_ctr timeout rest (tick_stamp t) s2
                  (chunks ++ received) (waiting - Z.of_nat (length received))
                  (tick_stamp t)) as [[out| e |] [[s' clock'] ticks']].
      * destruct IH as (Hout & Hsplit & Hle & Hmono & Hread & Hchan).
        split; [rewrite Hout, Hfirst, app_assoc; reflexivity|].
        split.
        { rewrite Hfirst, <- app_assoc, <- Hsplit.
          rewrite Hall. rewrite Hta at 1. rewrite <- app_assoc. reflexivity. }
        split.
        { rewrite Hall. rewrite Hta at 1. rewrite <- app_assoc, length_app.
          rewrite length_app in Hle |- *. lia. }
        split; [exact Hmono|].
        split; [cbn [s2 set_buffer reading] in Hread; congruence|].
        eapply same_channel_trans; eassumption.
      * exact IH.
      * destruct IH as (Hshort & Hread).
        split; [| cbn [s2 set_buffer reading] in Hread; congruence].
        rewrite Hall, length_app. rewrite length_app, length_skipn in Hshort.
        unfold received in *. rewrite length_firstn in *. lia.
    + replace (Z.to_nat waiting) with 0%nat by lia. cbn [firstn app].
      rewrite app_nil_r.
      split; [reflexivity | split; [reflexivity | split; [lia | split; [exact Hm|]]]].
      split; [reflexivity | apply same_channel_refl].
Qed.

(** What [receive] does, in terms of the stream: with a clock that never
    runs backwards it cannot throw; it returns the first [size] bytes of
    the stream when the stream has that many, leaving the rest of the
    stream to later reads, and is still suspended otherwise. *)
Lemma receive_stream w size timeout :
  0 <= size ->
  0 <= match timeout with Some t => t | None => 10000 end ->
  clock_monotone (now w) (future w) ->
  match receive aes_128_ctr size timeout w with
  | (Done out, w') =>
      out = firstn (Z.to_nat size) (stream aes_128_ctr w) /\
      stream aes_128_ctr w = out ++ stream aes_128_ctr w' /\
      (Z.to_nat size <= length (stream aes_128_ctr w))%nat /\
      reading (session w') = reading (session w) /\
      same_channel (session w) (session w') /\
      authenticating w' = authenticating w /\
      clock_monotone (now w') (future w')
  | (Pending, w') =>
      Z.of_nat (length (stream aes_128_ctr w)) < size /\
      reading (session w') = reading (session w) + 1
  | (Raised _, _) => False
  end.
Proof.
  intros Hs Ht Hm. unfold receive, receiveSize.
  cbn [buffer set_reading reading].
  rewrite Buffer_slice_prefix, Buffer_slice_suffix by exact Hs.
  set (n := Z.to_nat size).
  set (buf := buffer (session w)).
  set (to := match timeout with Some t => t | None => 10000 end) in *.
  set (s0 := set_buffer (skipn n buf) (set_reading (reading (session w) + 1) (session w))).
  assert (Hwait : Z.to_nat (size - Z.of_nat (length (firstn n buf)))
                  = (n - length buf)%nat).
  { rewrite length_firstn. lia. }
  assert (Hinv : 0 < size - Z.of_nat (length (firstn n buf)) -> buffer s0 = []).
  { rewrite length_firstn. intros H. cbn [s0 set_buffer buffer]. apply skipn_all2. lia. }
  pose proof (receive_loop_stream to Ht (future w) s0 (firstn n buf)
                (size - Z.of_nat (length (firstn n buf))) (now w) Hm Hinv) as L.
  cbv zeta in L. rewrite Hwait in L.
  cbn [s0 set_buffer set_reading buffer encryption reading] in L. fold s0 in L.
  set (tail := plaintext aes_128_ctr (encryption (session w)) (chunks_of (future w))) in *.
  assert (Hfirst : firstn n (stream aes_128_ctr w)
                   = firstn n buf ++ firstn (n - length buf) (skipn n buf ++ tail)).
  { unfold stream. fold buf. fold tail. rewrite firstn_app. f_equal.
    destruct (Nat.le_ge_cases n (length buf)).
    - replace (n - length buf)%nat with 0%nat by lia. reflexivity.
    - rewrite skipn_all2 by lia. reflexivity. }
  assert (Hstream : stream aes_128_ctr w = firstn n buf ++ skipn n buf ++ tail).
  { unfold stream. fold buf. fold tail. rewrite app_assoc, firstn_skipn. reflexivity. }
  assert (Hch0 : same_channel (session w) s0).
  { unfold same_channel, monitor_events. cbn. auto. }
  destruct (receive_loop aes_128_ctr to (future w) (now w) s0 (firstn n buf)
              (size - Z.of_nat (length (firstn n buf))) (now w))
    as [[out| e |] [[s' clock'] ticks']].
  - destruct L as (Hout & Hsplit & Hle & Hmono & Hread & Hchan).
    cbn [session buffer reading set_reading now future authenticating].
    split; [rewrite Hfirst; exact Hout|].
    split.
    { unfold stream at 2. cbn [session set_reading buffer encryption future].
      rewrite Hstream, Hout. rewrite Hsplit at 1. rewrite <- app_assoc. reflexivity. }
    split.
    { rewrite Hstream, length_app. rewrite length_firstn.
      destruct (Nat.le_ge_cases n (length buf)); lia. }
    split; [lia|]. split; [|split; [reflexivity | exact Hmono]].
    eapply same_channel_trans; [exact Hch0|].
    eapply same_channel_trans; [exact Hchan|].
    unfold same_channel, monitor_events. cbn. auto.
  - exact L.
  - destruct L as (Hshort & Hread).
    cbn [session reading].
    split; [|exact Hread].
    rewrite Hstream, length_app, length_firstn.
    destruct (Nat.le_ge_cases n (length buf)); lia.
Qed.

Lemma receive_cannot_time_out w size timeout :
  0 <= size ->
  0 <= match timeout with Some t => t | None => 10000 end ->
  clock_monotone (now w) (future w) ->
  fst (receive aes_128_ctr size timeout w) <> Raised Timeout.
Proof.
  intros Hs Ht Hm. pose proof (receive_stream w size timeout Hs Ht Hm) as R.
  destruct (receive aes_128_ctr size timeout w) as [[out| e |] w']; cbn;
    try discriminate.
  destruct R.
Qed.

Lemma XE_prefix data :
  jsstring_eqb (toString_binary (slice 0 2 data)) (str "XE") = true
  <-> firstn 2 data = str "XE".
Proof.
  unfold jsstring_eqb, toString_binary, slice. cbn [Nat.sub skipn].
  destruct (list_eq_dec Z.eq_dec (firstn 2 data) (str "XE")); split; intros H;
    try assumption; try reflexivity; try discriminate; contradiction.
Qed.

Variable CFLBinaryPList_parse : bytes -> option CFLValue.

(** What one call of [handleData] does: a buffer that does not begin
    with "XE" is logged as unknown data and emptied; one that does is
    read as a monitor frame: the 8-byte header, the body whose length is
    the big-endian u32 at offset 4, and the parsed body published as a
    monitor event, the rest of the stream being left for later reads. *)
Theorem handleData_dispatch w :
  let data := buffer (session w) in
  (firstn 2 data <> str "XE" ->
   handleData CFLBinaryPList_parse aes_128_ctr data w
   = (Done tt, set_session (set_buffer [] (log (WarnUnknownData data) (session w))) w))
  /\
  (firstn 2 data = str "XE" ->
   is_bytes (stream aes_128_ctr w) ->
   clock_monotone (now w) (future w) ->
   let size := MessageSpec.field_u32 (stream aes_128_ctr w) 4 in
   let body := firstn (Z.to_nat size) (skipn 8 (stream aes_128_ctr w)) in
   8 + size <= Z.of_nat (length (stream aes_128_ctr w)) ->
   exists w',
     handleData CFLBinaryPList_parse aes_128_ctr data w = (Done tt, w') /\
     stream aes_128_ctr w' = skipn (8 + Z.to_nat size) (stream aes_128_ctr w) /\
     reading (session w') = reading (session w) /\
     socket (session w') = socket (session w) /\
     written (session w') = written (session w) /\
     match CFLBinaryPList_parse body with
     | Some value =>
         monitor_events (session w') = monitor_events (session w) ++ [value] /\
         console (session w') = console (session w)
     | None =>
         monitor_events (session w') = monitor_events (session w) /\
         console (session w') = console (session w) ++ [ErrorParsingMonitorData]
     end).
Proof.
  intros data. split.
  - intros Hne. unfold handleData.
    destruct (jsstring_eqb (toString_binary (slice 0 2 data)) (str "XE")) eqn:E.
    + apply XE_prefix in E. contradiction.
    + reflexivity.
  - intros Hxe Hbytes Hm size body Hlen.
    assert (Hsize : 0 <= size).
    { pose proof (MessageProofs.field_u32_range (stream aes_128_ctr w) 4 Hbytes) as H.
      unfold MessageSpec.in_u32 in H. unfold size. lia. }
    unfold handleData. rewrite (proj2 (XE_prefix data) Hxe).
    unfold handleMonitorData, io_bind.
    pose proof (receive_stream w 8 None ltac:(lia) ltac:(cbn; lia) Hm) as R1.
    destruct (receive aes_128_ctr 8 None w) as [[header| e |] w1];
      [| destruct R1 | lia].
    destruct R1 as (Hhead & Hsplit1 & Hle1 & Hread1 & Hchan1 & _ & Hm1).
    change (Z.to_nat 8) with 8%nat in *.
    assert (Hhl : length header = 8%nat).
    { rewrite Hhead, length_firstn. lia. }
    assert (Hrest : stream aes_128_ctr w1 = skipn 8 (stream aes_128_ctr w)).
    { rewrite Hsplit1. symmetry. apply skipn_app_exact. exact Hhl. }
    assert (Hsz : readUInt32BE header 4 = Ret size).
    { unfold size, MessageSpec.field_u32, readUInt32BE. rewrite Hsplit1.
      destruct header as [|h0 [|h1 [|h2 [|h3 [|h4 [|h5 [|h6 [|h7 [|]]]]]]]]];
        try discriminate Hhl. reflexivity. }
    unfold io_lift. rewrite Hsz. cbn [lift].
    pose proof (receive_stream w1 size None Hsize ltac:(cbn; lia) Hm1) as R2.
    destruct (receive aes_128_ctr size None w1) as [[payload| e |] w2];
      [| destruct R2 |].
    2:{ destruct R2 as [Hshort _]. rewrite Hrest, length_skipn in Hshort. lia. }
    destruct R2 as (Hbody & Hsplit2 & Hle2 & Hread2 & Hchan2 & _ & Hm2).
    destruct Hchan1 as (C1 & C2 & C3 & C4).
    destruct Hchan2 as (D1 & D2 & D3 & D4).
    assert (Hpl : length payload = Z.to_nat size).
    { rewrite Hbody, length_firstn. lia. }
    assert (Hfinal : stream aes_128_ctr w2
                     = skipn (8 + Z.to_nat size) (stream aes_128_ctr w)).
    { rewrite Hsplit1, Hsplit2, app_assoc. symmetry.
      apply skipn_app_exact. rewrite length_app. lia. }
    assert (Hbody' : payload = body).
    { unfold body. rewrite <- Hrest. exact Hbody. }
    rewrite Hbody'.
    destruct (CFLBinaryPList_parse body) as [value|].
    + eexists. split; [reflexivity|].
      split; [exact Hfinal|].
      split; [cbn; congruence|]. split; [cbn; congruence|].
      split; [cbn; congruence|]. split; [|cbn; congruence].
      unfold monitor_events in *. cbn [session set_session emit emitted].
      rewrite flat_map_app. cbn [flat_map app]. congruence.
    + eexists. split; [reflexivity|].
      split; [exact Hfinal|].
      split; [cbn; congruence|]. split; [cbn; congruence|].
      split; [cbn; congruence|]. split; [|cbn; congruence].
      unfold monitor_events in *. cbn [session set_session log emitted]. congruence.
Qed.

(** The unsolicited-data loop does nothing while a receive is in
    progress or when the buffer is empty. *)
Lemma _handleData_guard fuel w :
  reading (session w) <> 0 \/ buffer (session w) = [] ->
  _handleData CFLBinaryPList_parse aes_128_ctr fuel w = Some (Done tt, w).
Proof.
  intros H. destruct fuel; cbn [_handleData];
    (destruct H as [H|H];
     [ destruct (Z.eqb_spec (reading (session w)) 0); [contradiction | reflexivity]
     | rewrite H; cbn; rewrite andb_false_r; reflexivity ]).
Qed.

(** One turn of the loop at reading depth 0 with bytes buffered hands the
    buffer to [handleData]. *)
Lemma _handleData_turn fuel w :
  reading (session w) = 0 -> buffer (session w) <> [] ->
  _handleData CFLBinaryPList_parse aes_128_ctr (S fuel) w
  = match handleData CFLBinaryPList_parse aes_128_ctr (buffer (session w)) w with
    | (Done _, w') => _handleData CFLBinaryPList_parse aes_128_ctr fuel w'
    | (Raised e, w') =>
        _handleData CFLBinaryPList_parse aes_128_ctr fuel
          (set_session (log (ErrorHandlingData e) (session w')) w')
    | (Pending, w') => Some (Pending, w')
    end.
Proof.
  intros Hr Hb. cbn [_handleData]. rewrite Hr.
  destruct (buffer (session w)); [contradiction Hb; reflexivity | reflexivity].
Qed.

(** C8, amended: the dispatch happens when a chunk arrives from the
    socket while the session is not inside a receive (reading depth 0).
    The 'data' handler appends the chunk (decrypted when encryption is
    on) to the buffer and starts the loop of [_handleData]; when the
    buffered bytes then begin with "XE" and the stream holds the whole
    frame, the first turn consumes the 8-byte header and the body whose
    length is the big-endian u32 at offset 4 of the header, publishes
    the parsed body as a monitor event (or logs the parse error), and
    the loop goes on with what follows; when they begin otherwise, the
    whole buffer is logged as unknown data and emptied, which ends the
    loop. *)
Theorem on_data_dispatch (fuel : nat) (chunk : bytes) w :
  reading (session w) = 0 ->
  let w0 := set_session (deliver aes_128_ctr chunk (session w)) w in
  let data := buffer (session w0) in
  data <> [] ->
  (firstn 2 data <> str "XE" ->
   on_data CFLBinaryPList_parse aes_128_ctr (S fuel) chunk w
   = Some (Done tt,
           set_session (set_buffer [] (log (WarnUnknownData data) (session w0))) w0))
  /\
  (firstn 2 data = str "XE" ->
   is_bytes (stream aes_128_ctr w0) ->
   clock_monotone (now w) (future w) ->
   let size := MessageSpec.field_u32 (stream aes_128_ctr w0) 4 in
   let body := firstn (Z.to_nat size) (skipn 8 (stream aes_128_ctr w0)) in
   8 + size <= Z.of_nat (length (stream aes_128_ctr w0)) ->
   exists w1,
     on_data CFLBinaryPList_parse aes_128_ctr (S fuel) chunk w
       = _handleData CFLBinaryPList_parse aes_128_ctr fuel w1 /\
     stream aes_128_ctr w1 = skipn (8 + Z.to_nat size) (stream aes_128_ctr w0) /\
     reading (session w1) = 0 /\
     socket (session w1) = socket (session w) /\
     written (session w1) = written (session w) /\
     match CFLBinaryPList_parse body with
     | Some value =>
         monitor_events (session w1) = monitor_events (session w) ++ [value] /\
         console (session w1) = console (session w)
     | None =>
         monitor_events (session w1) = monitor_events (session w) /\
         console (session w1) = console (session w) ++ [ErrorParsingMonitorData]
     end).
Proof.
  intros Hr w0 data Hne.
  destruct (deliver_effect chunk (session w)) as (_ & _ & Hrd & (Cs & Cw & Cc & Cm)).
  assert (Hr0 : reading (session w0) = 0) by (cbn [w0 session set_session]; congruence).
  assert (Hrun : on_data CFLBinaryPList_parse aes_128_ctr (S fuel) chunk w
                 = match handleData CFLBinaryPList_parse aes_128_ctr data w0 with
                   | (Done _, w') => _handleData CFLBinaryPList_parse aes_128_ctr fuel w'
                   | (Raised e, w') =>
                       _handleData CFLBinaryPList_parse aes_128_ctr fuel
                         (set_session (log (ErrorHandlingData e) (session w')) w')
                   | (Pending, w') => Some (Pending, w')
                   end).
  { unfold on_data. rewrite Hrd, Hr. cbn [Z.eqb]. fold w0.
    apply (_handleData_turn fuel w0 Hr0 Hne). }
  destruct (handleData_dispatch w0) as [Hother Hframe]. fold data in Hother, Hframe.
  split.
  - intros Hx. rewrite Hrun, (Hother Hx).
    apply _handleData_guard. right. reflexivity.
  - intros Hx Hb Hm size body Hlen.
    destruct (Hframe Hx Hb Hm Hlen) as (w1 & E & Hs & Hrd1 & Hso & Hwr & Hev).
    exists w1. rewrite Hrun, E.
    split; [reflexivity|]. split; [exact Hs|]. split; [congruence|].
    cbn [w0 session set_session] in Hso, Hwr, Hev.
    split; [congruence|]. split; [congruence|].
    subst body size. fold w0 in Hev.
    match type of Hev with
    | match ?t with _ => _ end => destruct t
    end; destruct Hev as [H1 H2]; split; congruence.
Qed.

End Receive.

(** C8 as stated fails: a monitor frame that arrives while a receive is
    in progress is only appended to the buffer.  When the receive has
    returned, the session is at reading depth 0 with a buffer that
    begins with "XE", yet nothing is published or logged and the frame
    stays where it is; the next read gets its bytes. *)
Lemma frame_left_by_receive_stays_buffered :
  let frame := str "XE" ++ [0; 149; 0; 0; 0; 1; 208] in
  let w : World bytes :=
    mkWorld (mkSession true [] 0 None [] [] []) false 0 [mkTick 1 [7 :: frame] 2] in
  exists w',
    receive ClientSpec.identity_cipher 1 None w = (Done [7], w') /\
    reading (session w') = 0 /\
    buffer (session w') = frame /\
    firstn 2 (buffer (session w')) = str "XE" /\
    monitor_events (session w') = [] /\
    console (session w') = [] /\
    future w' = [] /\
    fst (receive ClientSpec.identity_cipher 8 None w') = Done (firstn 8 frame).
Proof.
  cbv zeta. eexists. split; [vm_compute; reflexivity|].
  repeat split.
Qed.

Lemma on_data_dispatch_witness :
  let w : World bytes := mkWorld (mkSession true [] 0 None [] [] []) false 0 [] in
  let chunk := str "XE" ++ [0; 149; 0; 0; 0; 2; 208; 0] in
  let w0 := set_session (deliver ClientSpec.identity_cipher chunk (session w)) w in
  exists w1,
    on_data (fun body => Some body) ClientSpec.identity_cipher 3 chunk w
      = _handleData (fun body => Some body) ClientSpec.identity_cipher 2 w1 /\
    stream ClientSpec.identity_cipher w1
      = skipn (8 + Z.to_nat 2) (stream ClientSpec.identity_cipher w0) /\
    reading (session w1) = 0 /\
    socket (session w1) = socket (session w) /\
    written (session w1) = written (session w) /\
    monitor_events (session w1) = monitor_events (session w) ++ [[208; 0]] /\
    console (session w1) = console (session w).
Proof.
  intros w chunk w0.
  apply (proj2 (on_data_dispatch ClientSpec.identity_cipher (fun body => Some body) 2
                  chunk w eq_refl ltac:(vm_compute; discriminate))).
  - reflexivity.
  - apply (Forall_range_check 0 256). vm_compute. reflexivity.
  - vm_compute. exact I.
  - vm_compute. discriminate.
Defined.

(** C5, where it fails: one byte is requested (default timeout, 10 s)
    and nothing arrives while the clock advances by a minute; the call is
    still suspended and has not thrown the timeout. *)
Theorem receive_pending_after_a_minute :
  let silence := [mkTick 1 [] 2; mkTick 5000 [] 5001; mkTick 10001 [] 10002;
                  mkTick 30000 [] 30001; mkTick 60000 [] 60001] in
  let w : World unit := mkWorld (mkSession true [] 0 None [] [] []) false 0 silence in
  fst (receive ClientSpec.identity_cipher 1 None w) = Pending /\
  reading (session (snd (receive ClientSpec.identity_cipher 1 None w))) = 1 /\
  now (snd (receive ClientSpec.identity_cipher 1 None w)) = 60001.
Proof. cbv zeta. repeat split. Qed.

Lemma handleData_dispatch_witness :
  let w : World bytes :=
    mkWorld (mkSession true (str "XE" ++ [0; 149; 0; 0]) 0 None [] [] [])
      false 0 [mkTick 1 [[0; 2; 208]; [0; 88]] 2] in
  exists w',
    handleData (fun body => Some body) ClientSpec.identity_cipher (buffer (session w)) w
      = (Done tt, w') /\
    stream ClientSpec.identity_cipher w'
      = skipn (8 + Z.to_nat 2) (stream ClientSpec.identity_cipher w) /\
    reading (session w') = reading (session w) /\
    socket (session w') = socket (session w) /\
    written (session w') = written (session w) /\
    monitor_events (session w') = monitor_events (session w) ++ [[208; 0]] /\
    console (session w') = console (session w).
Proof.
  intros w.
  apply (proj2 (handleData_dispatch ClientSpec.identity_cipher (fun body => Some body) w)).
  - reflexivity.
  - apply (Forall_range_check 0 256). vm_compute. reflexivity.
  - vm_compute. intuition discriminate.
  - vm_compute. discriminate.
Defined.

End SessionProofs.

(** ** The property catalogue and the property codec *)

Module PropertyProofs.
Import PropertiesTs PropertyTs PropertySpec MessageSpec MessageProofs.

Lemma jsstring_eqb_eq a b : jsstring_eqb a b = true <-> a = b.
Proof.
  unfold jsstring_eqb. destruct (list_eq_dec Z.eq_dec a b); split; intros H;
    try assumption; try reflexivity; try discriminate; contradiction.
Qed.

Lemma includes_str_In l x : includes_str l x = true <-> In x l.
Proof.
  unfold includes_str. rewrite existsb_exists. split.
  - intros [y [Hy E]]. apply jsstring_eqb_eq in E. subst. exact Hy.
  - intros H. exists x. split; [exact H | apply jsstring_eqb_eq; reflexivity].
Qed.

(** When the initialiser accepts a list of entries, its result is the
    table of those entries, and every entry has one of the seven types
    the initialiser knows. *)
Lemma generate_loop_accepts entries : forall props props',
  generate_loop entries props = Ret props' ->
  props' = props ++ table_of entries /\
  Forall (fun e => In (entry_type e) types) entries.
Proof.
  induction entries as [|[name [[type description] validator]] rest IH];
    intros props props' H; cbn [generate_loop] in H.
  - injection H as <-. split; [symmetry; apply app_nil_r | constructor].
  - destruct (negb (length name =? 4)%nat); [discriminate|].
    destruct (includes_str types type) eqn:Et; [|discriminate].
    cbn [negb] in H. destruct description as [|d ds]; [discriminate|].
    apply IH in H. destruct H as [-> Hall]. split.
    + rewrite <- app_assoc. reflexivity.
    + constructor; [|exact Hall]. apply includes_str_In. exact Et.
Qed.

(** C9, on the shipped catalogue: every entry carries a documented type
    tag, the tags named in the documentation have the stated types, and
    [generateACPProperties] throws 'Bad type' at the entry syAP. *)
Theorem generateACPProperties_rejects_catalogue :
  Forall (fun e => In (entry_type e) documented_types) acp_properties /\
  catalogue_type (str "syAP") = Some (str "u32") /\
  catalogue_type (str "syUT") = Some (str "u32") /\
  catalogue_type (str "uuid") = Some (str "uid") /\
  catalogue_type (str "isAC") = Some (str "ui8") /\
  catalogue_type (str "auRR") = Some (str "u16") /\
  catalogue_type (str "6cfg") = Some (str "u32") /\
  catalogue_type (str "auHK") = Some (str "bpl") /\
  generateACPProperties acp_properties
    = Throw (BadTypeInList (str "syAP") (str "u32")).
Proof.
  split.
  - apply Forall_forall. intros e He. apply includes_str_In.
    revert e He. apply forallb_forall. vm_compute. reflexivity.
  - repeat split; vm_compute; reflexivity.
Qed.

(** Every name of the catalogue is four ASCII characters. *)
Lemma catalogue_names_ascii4 :
  Forall (fun e => length (fst e) = 4%nat /\ is_ascii (fst e)) acp_properties.
Proof.
  apply Forall_forall. intros e He.
  assert (H : forallb (fun e => (length (fst e) =? 4)%nat
                         && forallb (fun c => (0 <=? c) && (c <? 128)) (fst e))
                acp_properties = true) by (vm_compute; reflexivity).
  rewrite forallb_forall in H. specialize (H e He).
  apply andb_true_iff in H. destruct H as [H1 H2]. split.
  - apply Nat.eqb_eq. exact H1.
  - apply (ListFacts.Forall_range_check 0 128). exact H2.
Qed.

Lemma utf8_fit_ascii4 c0 c1 c2 c3 :
  is_ascii [c0; c1; c2; c3] -> utf8_fit [c0; c1; c2; c3] 4 = [c0; c1; c2; c3].
Proof.
  unfold is_ascii. intros H.
  apply Forall_cons_iff in H. destruct H as [H0 H].
  apply Forall_cons_iff in H. destruct H as [H1 H].
  apply Forall_cons_iff in H. destruct H as [H2 H].
  apply Forall_cons_iff in H. destruct H as [H3 _].
  unfold utf8_fit, utf8_of_unit.
  rewrite !(proj2 (Z.ltb_lt _ 128)) by lia. reflexivity.
Qed.

Lemma packHeader_layout12 nm flags size :
  length nm = 4%nat -> is_ascii nm -> in_u32 flags -> in_u32 size ->
  PropertyTs.packHeader (PropertyTs.mkHeaderData nm flags size)
  = Ret (nm ++ be32 flags ++ be32 size).
Proof.
  intros Hl Ha Hf Hs. explode nm Hl.
  unfold PropertyTs.packHeader. cbn [PropertyTs.h_name PropertyTs.h_flags PropertyTs.h_size].
  unfold write_utf8. cbn [Buffer_alloc repeat length Nat.sub Nat.min].
  rewrite (utf8_fit_ascii4 _ _ _ _ Ha).
  rewrite writeUInt32BE_ok by (assumption || (rewrite write_at_length; cbn; lia)).
  cbn [bind].
  rewrite writeUInt32BE_ok by (assumption || (rewrite !write_at_length; cbn; lia)).
  reflexivity.
Qed.

Section Table.

Variable props : list PropData.

(** C10: a property built from a catalogue name and the number 0 keeps
    the number 0 as its value (neither the value initialiser nor the
    validator runs), and [composeRawElement] encodes it as the 12-byte
    header (name, flags, size 4) followed by the four bytes of 0. *)
Theorem number_zero_property (nm : jsstring) (flags : Z) :
  In nm (getSupportedPropertyNames props) ->
  length nm = 4%nat -> is_ascii nm -> in_u32 flags ->
  new_Property props (Some nm) (VNumber 0) = Ret (mkProperty (Some nm) (VNumber 0)) /\
  composeRawElement flags (mkProperty (Some nm) (VNumber 0))
  = Ret (nm ++ be32 flags ++ [0; 0; 0; 4] ++ [0; 0; 0; 0]).
Proof.
  intros Hin Hl Ha Hf. split.
  - unfold new_Property. cbn [is_NUL4_string]. rewrite andb_false_r.
    destruct nm as [|c nm']; [discriminate Hl|].
    cbn [truthy_name]. rewrite (proj2 (includes_str_In _ _) Hin).
    reflexivity.
  - unfold composeRawElement. cbn [name value].
    destruct nm as [|c nm'] eqn:E; [discriminate Hl|].
    cbn [truthy_name]. rewrite <- E in *.
    unfold number_to_buffer. cbn [bind writeUInt32BE Z.leb Z.compare andb
      Buffer_alloc repeat length Nat.add Nat.leb].
    unfold composeRawElementHeader.
    rewrite (packHeader_layout12 nm flags 4 Hl Ha Hf) by (unfold in_u32; lia).
    cbn [bind]. rewrite <- !app_assoc. reflexivity.
Qed.

End Table.

Lemma number_zero_property_witness :
  new_Property catalogue_table (Some (str "acRB")) (VNumber 0)
    = Ret (mkProperty (Some (str "acRB")) (VNumber 0)) /\
  composeRawElement 0 (mkProperty (Some (str "acRB")) (VNumber 0))
    = Ret (str "acRB" ++ be32 0 ++ [0; 0; 0; 4] ++ [0; 0; 0; 0]).
Proof.
  apply (number_zero_property catalogue_table (str "acRB") 0).
  - apply includes_str_In. vm_compute. reflexivity.
  - reflexivity.
  - apply (ListFacts.Forall_range_check 0 128). vm_compute. reflexivity.
  - unfold in_u32; lia.
Defined.

End PropertyProofs.

(** ** The client facade *)

Module ClientProofs.
Import SessionTs ClientTs PropertiesTs PropertyTs PropertySpec ClientSpec.
Import PropertyProofs.

Section Client.

Context {CFLValue : Type}.
Variable pbkdf2Sync_sha1 : bytes -> bytes -> Z -> Z -> bytes.
Variable aes_128_ctr : bytes -> bytes -> Z -> bytes -> bytes.
Variable generateACPKeystream : Z -> jsstring.
Variable props : list PropData.

(** C7, amended: the body of the GetProp request for the single tag
    "syAP" is the 16 bytes "syAP", flags 0, size 4, and four NUL value
    bytes. *)
Theorem getProperties_syAP_body (password : jsstring) :
  In (str "syAP") (getSupportedPropertyNames props) ->
  exists request,
    getProperties_request generateACPKeystream props password [inr (str "syAP")]
      = Ret request /\
    MessageJs.command request = 20 /\ MessageJs.flags request = 4 /\
    MessageJs.body request
      = Some (str "syAP" ++ [0; 0; 0; 0] ++ [0; 0; 0; 4] ++ [0; 0; 0; 0]).
Proof.
  intros Hin. unfold getProperties_request, getProperties_payload.
  assert (Hnew : new_Property props (Some (str "syAP")) VUndefined
                 = Ret (mkProperty (Some (str "syAP")) VUndefined)).
  { unfold new_Property. cbn [is_NUL4_string]. rewrite andb_false_r.
    change (truthy_name (Some (str "syAP"))) with true.
    rewrite (proj2 (includes_str_In _ _) Hin). reflexivity. }
  rewrite Hnew. cbn [bind].
  change (composeRawElement 0 (mkProperty (Some (str "syAP")) VUndefined))
    with (Ret (str "syAP" ++ [0; 0; 0; 0] ++ [0; 0; 0; 4] ++ [0; 0; 0; 0])).
  cbn [bind]. eexists. split; [reflexivity|].
  repeat split.
Qed.

(** A property built from a received value never has an [undefined]
    value: the end-of-list test of the constructor compares the value
    with a string, and a received value is a Buffer. *)
Lemma new_Property_of_buffer nm v p :
  new_Property props (Some nm) (VBuffer v) = Ret p ->
  exists b, value p = VBuffer b.
Proof.
  unfold new_Property. cbn [is_NUL4_string]. rewrite andb_false_r.
  destruct (truthy_name (Some nm) && _); [discriminate|].
  cbn [truthy_value].
  destruct (getPropertyInfoString_type props (Some nm)) as [t|]; [|discriminate].
  destruct (ValueInitialisers t) as [init|]; [|discriminate].
  destruct (init (VBuffer v)) as [b|e]; [|discriminate]. cbn [bind].
  destruct (getPropertyInfoString_validator props (Some nm)) as [val|].
  - destruct (call_validator val b) as [ok|e]; [|discriminate]. cbn [bind].
    destruct (negb ok); [discriminate|]. intros H. injection H as <-.
    eexists. reflexivity.
  - intros H. injection H as <-. eexists. reflexivity.
Qed.

(** The reading loop of [getProperties] has no run that returns. *)
Lemma getProperties_loop_never_returns fuel :
  forall acc (w : World CFLValue) l w',
    getProperties_loop aes_128_ctr props fuel acc w <> Some (Done l, w').
Proof.
  induction fuel as [|fuel IH]; intros acc w l w'; cbn [getProperties_loop].
  - discriminate.
  - destruct (receivePropertyElementHeader aes_128_ctr None w) as [[hdr| e |] w1]; try discriminate.
    destruct (PropertyTs.unpackHeader hdr) as [data|e]; [|discriminate].
    destruct (receive aes_128_ctr (h_size data) None w1) as [[v| e |] w2]; try discriminate.
    destruct (negb (Z.land (h_flags data) 1 =? 0)).
    + destruct (readInt32BE v 0); discriminate.
    + destruct (new_Property props (Some (h_name data)) (VBuffer v)) as [p|e] eqn:E;
        [|discriminate].
      destruct (new_Property_of_buffer _ _ _ E) as [b Hb].
      rewrite Hb. destruct (name p); apply IH.
Qed.

(** How [getProperties] reacts to a reply whose header carries an error
    code, once the request is sent and the header received. *)
Lemma getProperties_protocol_error password names fuel (w w1 w2 : World CFLValue)
  request reply reply_header :
  getProperties_request generateACPKeystream props password names = Ret request ->
  send aes_128_ctr request w = (Done tt, w1) ->
  receiveMessageHeader aes_128_ctr None w1 = (Done reply, w2) ->
  MessageTs.parseRaw reply = Ret (MessageJs.PMessage reply_header) ->
  MessageJs.error_code reply_header <> 0 ->
  getProperties aes_128_ctr generateACPKeystream props password names fuel w
  = Some (Raised (ProtocolError (MessageJs.error_code reply_header)), w2).
Proof.
  intros Hreq Hsend Hrecv Hparse Herr.
  unfold getProperties, queue. rewrite Hreq, Hsend, Hrecv, Hparse.
  cbn [MessageJs.message_of].
  destruct (Z.eqb_spec (MessageJs.error_code reply_header) 0); [contradiction|].
  reflexivity.
Qed.

(** An element whose flags have bit 0 set ends the loop with the
    per-property error carrying its tag and its big-endian error code. *)
Lemma getProperties_loop_property_error fuel acc (w w1 w2 : World CFLValue)
  hdr data v code :
  receivePropertyElementHeader aes_128_ctr None w = (Done hdr, w1) ->
  PropertyTs.unpackHeader hdr = Ret data ->
  receive aes_128_ctr (h_size data) None w1 = (Done v, w2) ->
  Z.land (h_flags data) 1 <> 0 ->
  readInt32BE v 0 = Ret code ->
  getProperties_loop aes_128_ctr props (S fuel) acc w
  = Some (Raised (PropertyRequestError (h_name data) code v), w2).
Proof.
  intros H1 H2 H3 H4 H5. cbn [getProperties_loop]. rewrite H1, H2, H3.
  destruct (Z.eqb_spec (Z.land (h_flags data) 1) 0); [contradiction|].
  cbn [negb]. rewrite H5. reflexivity.
Qed.

End Client.

(** C7 as stated fails: the body is not the 12 bytes "syAP" and eight
    zero bytes. *)
Lemma syAP_request_body_is_not_12_bytes :
  exists request,
    getProperties_request zero_keystream catalogue_table (str "admin") [inr (str "syAP")]
      = Ret request /\
    MessageJs.body request <> Some (str "syAP" ++ repeat 0 8) /\
    MessageJs.body_size request = 16.
Proof.
  eexists. split; [vm_compute; reflexivity|].
  split; [discriminate | reflexivity].
Qed.

Lemma getProperties_syAP_body_witness :
  exists request,
    getProperties_request zero_keystream catalogue_table (str "admin") [inr (str "syAP")]
      = Ret request /\
    MessageJs.command request = 20 /\ MessageJs.flags request = 4 /\
    MessageJs.body request
      = Some (str "syAP" ++ [0; 0; 0; 0] ++ [0; 0; 0; 4] ++ [0; 0; 0; 0]).
Proof.
  apply (getProperties_syAP_body zero_keystream catalogue_table (str "admin")).
  apply includes_str_In. vm_compute. reflexivity.
Defined.

(** C3 at the end of a list: the reply is a header without error, the
    element syNm = "ab" and the terminator element; the call throws
    'Invalid property name' at the terminator where it should return the
    list of one property. *)
Theorem getProperties_throws_at_terminator :
  exists w',
    getProperties identity_cipher zero_keystream catalogue_table (str "admin")
      [inr (str "syNm")] 4
      (world_with (ok_reply_header
                   ++ (str "syNm" ++ [0; 0; 0; 0] ++ [0; 0; 0; 2] ++ str "ab")
                   ++ terminator))
    = Some (Raised (InvalidPropertyName [0; 0; 0; 0]), w') /\
    buffer (session w') = [] /\ reading (session w') = 0.
Proof. eexists. split; [vm_compute; reflexivity | split; reflexivity]. Qed.

Section Authentication.

Context {CFLValue : Type}.
Variable pbkdf2Sync_sha1 : bytes -> bytes -> Z -> Z -> bytes.
Context {Srp : Type}.
Variable checkM2 : Srp -> bytes -> bool.
Variable computeK : Srp -> bytes.
Variable stages_one_to_four : io CFLValue (Srp * bytes * (bytes * bytes)).

(** Stage five either throws the M2 error and leaves the world as it
    was, or installs the client encryption context; it installs it only
    when M2 verifies. *)
Lemma authenticateStageFive_cases srpc client_iv data (w : World CFLValue) :
  (checkM2 srpc (fst data) = false /\
   authenticateStageFive pbkdf2Sync_sha1 checkM2 computeK srpc client_iv data w = (Raised ErrorVerifyingM2, w))
  \/
  (checkM2 srpc (fst data) = true /\
   authenticateStageFive pbkdf2Sync_sha1 checkM2 computeK srpc client_iv data w
   = (Done tt,
      set_session (enableEncryption pbkdf2Sync_sha1 (computeK srpc) client_iv
                     (snd data) (session w)) w)).
Proof.
  unfold authenticateStageFive.
  destruct (checkM2 srpc (fst data)); [right | left]; split; reflexivity.
Qed.

(** C4: when the exchange of stages 1 to 4 has produced the server's
    proof and its verification fails, [authenticate] fails with the M2
    verification error; the session is exactly as the exchange left it,
    still without an encryption context, and no attempt is marked in
    flight.  Conversely a session that has an encryption context after
    [authenticate] got it from a proof that verified. *)
Theorem authenticate_M2_failure (w w1 : World CFLValue) srpc client_iv data :
  encryption (session w) = None ->
  authenticating w = false ->
  stages_one_to_four (set_authenticating true w) = (Done (srpc, client_iv, data), w1) ->
  encryption (session w1) = None ->
  (checkM2 srpc (fst data) = false ->
   exists w',
     authenticate pbkdf2Sync_sha1 checkM2 computeK stages_one_to_four w = (Raised ErrorVerifyingM2, w') /\
     session w' = session w1 /\
     encryption (session w') = None /\
     authenticating w' = false)
  /\
  (forall r w',
     authenticate pbkdf2Sync_sha1 checkM2 computeK stages_one_to_four w = (r, w') ->
     encryption (session w') <> None ->
     checkM2 srpc (fst data) = true /\ r = Done tt /\
     encryption (session w')
     = Some (new_Encryption pbkdf2Sync_sha1 ClientEncryption (computeK srpc)
               client_iv (snd data))).
Proof.
  intros Henc Hauth Hstages Henc1.
  assert (Hrun : authenticate pbkdf2Sync_sha1 checkM2 computeK stages_one_to_four w
                 = match authenticateStageFive pbkdf2Sync_sha1 checkM2 computeK srpc client_iv data w1 with
                   | (Pending, w') => (Pending, w')
                   | (r, w') => (r, set_authenticating false w')
                   end).
  { unfold authenticate. rewrite Henc, Hauth.
    unfold authenticateStageOne, io_bind. rewrite Hstages. reflexivity. }
  destruct (authenticateStageFive_cases srpc client_iv data w1) as [[Hm Hs] | [Hm Hs]];
    rewrite Hs in Hrun; split.
  - intros _. eexists. split; [exact Hrun|]. cbn. auto.
  - intros r w' Hr Hne. rewrite Hrun in Hr. injection Hr as <- <-.
    cbn in Hne. contradiction.
  - intros Hf. congruence.
  - intros r w' Hr _. rewrite Hrun in Hr. injection Hr as <- <-.
    split; [exact Hm | split; reflexivity].
Qed.

End Authentication.

Lemma authenticate_M2_failure_witness :
  let stages : io unit (unit * bytes * (bytes * bytes)) :=
    fun w => (Done (tt, repeat 1 16, (repeat 0 20, repeat 2 16)), w) in
  let checkM2 := fun (_ : unit) (m2 : bytes) => negb (jsstring_eqb m2 (repeat 0 20)) in
  let w := world_with [] in
  exists w',
    authenticate (fun _ _ _ _ => []) checkM2 (fun _ => []) stages w
      = (Raised ErrorVerifyingM2, w') /\
    session w' = session w /\
    encryption (session w') = None /\
    authenticating w' = false.
Proof.
  intros stages checkM2 w.
  apply (authenticate_M2_failure (fun _ _ _ _ => []) checkM2 (fun _ => []) stages
           w (set_authenticating true w) tt (repeat 1 16) (repeat 0 20, repeat 2 16));
    reflexivity.
Defined.

End ClientProofs.
(** ** More of the message codec *)

Module MessageCodec.
Import MessageJs MessageSpec CodecSpec MessageProofs MessageRoundTrip ListFacts.

Lemma writeInt32BE_cases v off buf :
  (off + 4 <= length buf)%nat ->
  (in_i32 v /\ writeInt32BE v off buf = Ret (write_at off (be32 (v mod 4294967296)) buf))
  \/ (~ in_i32 v /\ writeInt32BE v off buf = Throw RangeError).
Proof.
  intros Hl. unfold writeInt32BE, in_i32.
  replace (off + 4 <=? length buf)%nat with true by (symmetry; apply Nat.leb_le; lia).
  destruct (Z.leb_spec (-2147483648) v), (Z.leb_spec v 2147483647); cbn;
    first [left; split; [lia | reflexivity] | right; split; [lia | reflexivity]].
Qed.

Lemma writeUInt32BE_cases v off buf :
  (off + 4 <= length buf)%nat ->
  (in_u32 v /\ writeUInt32BE v off buf = Ret (write_at off (be32 v) buf))
  \/ (~ in_u32 v /\ writeUInt32BE v off buf = Throw RangeError).
Proof.
  intros Hl. unfold writeUInt32BE, in_u32.
  replace (off + 4 <=? length buf)%nat with true by (symmetry; apply Nat.leb_le; lia).
  destruct (Z.leb_spec 0 v), (Z.leb_spec v 4294967295); cbn;
    first [left; split; [lia | reflexivity] | right; split; [lia | reflexivity]].
Qed.

Ltac buffer_room :=
  unfold write_binary, write_utf8; rewrite ?write_at_length;
  unfold Buffer_alloc; rewrite repeat_length; lia.

(** [packHeader] throws a RangeError when one of the eight integers does
    not fit its field, and otherwise returns 128 code units, whatever the
    magic, the key and the padding are. *)
Lemma packHeader_total hd :
  (in_i32 (h_version hd) /\ in_u32 (h_header_checksum hd) /\
   in_u32 (h_body_checksum hd) /\ in_i32 (h_body_size hd) /\
   in_i32 (h_flags hd) /\ in_i32 (h_unused hd) /\ in_i32 (h_command hd) /\
   in_i32 (h_error_code hd) /\
   exists raw, packHeader hd = Ret raw /\ length raw = 128%nat)
  \/ (~ (in_i32 (h_version hd) /\ in_u32 (h_header_checksum hd) /\
         in_u32 (h_body_checksum hd) /\ in_i32 (h_body_size hd) /\
         in_i32 (h_flags hd) /\ in_i32 (h_unused hd) /\ in_i32 (h_command hd) /\
         in_i32 (h_error_code hd)) /\
      packHeader hd = Throw RangeError).
Proof.
  unfold packHeader.
  destruct (writeInt32BE_cases (h_version hd) 4
              (write_utf8 (h_magic hd) 0 4 (Buffer_alloc 128)))
    as [[H1 ->] | [H1 ->]]; [buffer_room | | right; split; [tauto | reflexivity]].
  cbn [bind].
  match goal with |- context [writeUInt32BE ?v ?o ?b] =>
    destruct (writeUInt32BE_cases v o b) as [[H2 ->] | [H2 ->]];
      [buffer_room | | right; split; [tauto | reflexivity]] end.
  cbn [bind].
  match goal with |- context [writeUInt32BE ?v ?o ?b] =>
    destruct (writeUInt32BE_cases v o b) as [[H3 ->] | [H3 ->]];
      [buffer_room | | right; split; [tauto | reflexivity]] end.
  cbn [bind].
  match goal with |- context [writeInt32BE ?v ?o ?b] =>
    destruct (writeInt32BE_cases v o b) as [[H4 ->] | [H4 ->]];
      [buffer_room | | right; split; [tauto | reflexivity]] end.
  cbn [bind].
  match goal with |- context [writeInt32BE ?v ?o ?b] =>
    destruct (writeInt32BE_cases v o b) as [[H5 ->] | [H5 ->]];
      [buffer_room | | right; split; [tauto | reflexivity]] end.
  cbn [bind].
  match goal with |- context [writeInt32BE ?v ?o ?b] =>
    destruct (writeInt32BE_cases v o b) as [[H6 ->] | [H6 ->]];
      [buffer_room | | right; split; [tauto | reflexivity]] end.
  cbn [bind].
  match goal with |- context [writeInt32BE ?v ?o ?b] =>
    destruct (writeInt32BE_cases v o b) as [[H7 ->] | [H7 ->]];
      [buffer_room | | right; split; [tauto | reflexivity]] end.
  cbn [bind].
  match goal with |- context [writeInt32BE ?v ?o ?b] =>
    destruct (writeInt32BE_cases v o b) as [[H8 ->] | [H8 ->]];
      [buffer_room | | right; split; [tauto | reflexivity]] end.
  cbn [bind].
  left. repeat (split; [assumption|]).
  eexists. split; [reflexivity|]. unfold toString_binary. buffer_room.
Qed.

(** [composeHeader] either succeeds with 128 code units or throws a
    RangeError, according to the integer fields alone. *)
Lemma composeHeader_cases (m : Message) :
  (fields_fit m /\ exists raw, composeHeader m = Ret raw /\ length raw = 128%nat)
  \/ (~ fields_fit m /\ composeHeader m = Throw RangeError).
Proof.
  unfold fields_fit, composeHeader.
  set (hd0 := mkHeaderData HEADER_MAGIC (version m) 0 (body_checksum m) (body_size m)
                (flags m) (unused m) (command m) (error_code m) (key m) [] []).
  destruct (packHeader_total hd0) as [(H1 & _ & H3 & H4 & H5 & H6 & H7 & H8 & raw0 & E0 & _) | [N E0]];
    cbn [hd0 h_version h_header_checksum h_body_checksum h_body_size h_flags
         h_unused h_command h_error_code] in *.
  - rewrite E0. cbn [bind].
    pose proof (adler32_sum_range (Buffer_from_binary raw0)) as Hr.
    set (hc := adler32_sum (Buffer_from_binary raw0)) in *.
    set (hd1 := mkHeaderData HEADER_MAGIC (version m) hc (body_checksum m) (body_size m)
                  (flags m) (unused m) (command m) (error_code m) (key m) [] []).
    destruct (packHeader_total hd1) as [(_ & _ & _ & _ & _ & _ & _ & _ & raw & E & L) | [N _]];
      cbn [hd1 h_version h_header_checksum h_body_checksum h_body_size h_flags
           h_unused h_command h_error_code] in *.
    + left. split; [tauto | exists raw; split; assumption].
    + exfalso. apply N. unfold in_u32, in_i32 in *. lia.
  - rewrite E0. cbn [bind]. right. split; [|reflexivity].
    intros F. apply N. unfold in_u32, in_i32 in *. lia.
Qed.

(** X1: [composeHeader] returns a header of exactly 128 code units when the
    seven integer fields of the message fit their 32-bit encodings, and
    throws a RangeError otherwise; the key, whatever its length and
    content, never makes it fail. *)
Theorem composeHeader_range (m : Message) :
  (fields_fit m -> exists raw, composeHeader m = Ret raw /\ length raw = 128%nat) /\
  (~ fields_fit m -> composeHeader m = Throw RangeError).
Proof.
  destruct (composeHeader_cases m) as [[Hfit Hret] | [Hnot Hthrow]]; split; intros H;
    try assumption; contradiction.
Qed.

(** X2: a header record with the "acpp" magic, integers in range, a
    32-byte key and full-length padding is packed into 128 bytes from
    which [unpackHeader] reads the same record back. *)
Theorem pack_then_unpack (hd : HeaderData) :
  packable hd ->
  exists raw, packHeader hd = Ret raw /\ length raw = 128%nat /\
              unpackHeader raw = Ret hd.
Proof.
  intros [Hm Hv Hhc Hbc Hbs Hfl Hun Hcm Hec [Lp1 Bp1] [Lk Bk] [Lp2 Bp2]].
  destruct hd as [mg v hc bc bs fl un cm ec k p1 p2].
  cbn [h_magic h_version h_header_checksum h_body_checksum h_body_size h_flags
       h_unused h_command h_error_code h_key h_pad1 h_pad2] in *.
  subst mg.
  assert (O1 : or_nuls p1 12 = p1) by (destruct p1; [discriminate Lp1 | reflexivity]).
  assert (O2 : or_nuls p2 48 = p2) by (destruct p2; [discriminate Lp2 | reflexivity]).
  eexists. split.
  { apply packHeader_layout;
      cbn [h_magic h_version h_header_checksum h_body_checksum h_body_size h_flags
           h_unused h_command h_error_code h_key h_pad1 h_pad2];
      rewrite ?O1, ?O2; try assumption; reflexivity. }
  unfold layout.
  cbn [h_magic h_version h_header_checksum h_body_checksum h_body_size h_flags
       h_unused h_command h_error_code h_key h_pad1 h_pad2].
  rewrite O1, O2.
  split.
  { rewrite !length_app, Lp1, Lk, Lp2. reflexivity. }
  rewrite unpackHeader_fields.
  - unfold fields_of.
    explode p1 Lp1. explode k Lk. explode p2 Lp2.
    unfold HEADER_MAGIC. rewrite acpp_units.
    f_equal. f_equal;
      first [ reflexivity
            | exact (s32_of_be32 v Hv) | exact (field_u32_be32 hc Hhc)
            | exact (field_u32_be32 bc Hbc) | exact (s32_of_be32 bs Hbs)
            | exact (s32_of_be32 fl Hfl) | exact (s32_of_be32 un Hun)
            | exact (s32_of_be32 cm Hcm) | exact (s32_of_be32 ec Hec) ].
  - rewrite !length_app, Lp1, Lk, Lp2. reflexivity.
  - repeat (apply Forall_app; split); try apply be32_is_bytes; try assumption.
    apply (Forall_range_check 0 256). reflexivity.
Qed.

Lemma pack_then_unpack_witness :
  exists raw, packHeader sample_header = Ret raw /\ length raw = 128%nat /\
              unpackHeader raw = Ret sample_header.
Proof.
  apply (pack_then_unpack sample_header).
  constructor; cbn; unfold in_i32, in_u32; try lia; try reflexivity;
    (split; [reflexivity | apply (Forall_range_check 0 256); vm_compute; reflexivity]).
Defined.

Lemma utf8_fit_ascii4_bytes a b c d :
  0 <= a < 128 -> 0 <= b < 128 -> 0 <= c < 128 -> 0 <= d < 128 ->
  utf8_fit (toString_utf8 [a; b; c; d]) 4 = [a; b; c; d].
Proof.
  intros Ha Hb Hc Hd.
  rewrite Utf8Facts.toString_utf8_ascii by (repeat constructor; lia).
  unfold utf8_fit, utf8_of_unit.
  repeat match goal with |- context [?x <? 128] =>
    replace (x <? 128) with true by (symmetry; apply Z.ltb_lt; lia) end.
  reflexivity.
Qed.

Lemma or_nuls_bytes x n : is_bytes x -> is_bytes (or_nuls x n).
Proof.
  intros H. destruct x; [|exact H].
  apply Forall_forall. intros y Hy. apply repeat_spec in Hy. subst. unfold is_byte. lia.
Qed.

(** X3: every 128-byte header whose first four bytes are ASCII is read by
    [unpackHeader] into a record that [packHeader] writes back to the very
    same bytes: the header codec loses nothing, also on headers that
    [parseRaw] would reject. *)
Theorem unpack_then_pack (h : jsstring) :
  length h = 128%nat -> is_bytes h -> is_ascii_bytes (firstn 4 h) ->
  exists hd, unpackHeader h = Ret hd /\ packHeader hd = Ret h.
Proof.
  intros Hl Hb Ha.
  exists (fields_of h). split; [apply unpackHeader_fields; assumption|].
  assert (Hs : forall a b, is_bytes (slice a b h)).
  { intros a b. unfold slice. apply is_bytes_firstn, is_bytes_skipn, Hb. }
  pose proof (fun off => field_i32_range h off Hb) as Hi.
  pose proof (fun off => field_u32_range h off Hb) as Hu.
  unfold packHeader, fields_of.
  cbn [h_magic h_version h_header_checksum h_body_checksum h_body_size h_flags
       h_unused h_command h_error_code h_key h_pad1 h_pad2].
  unfold write_binary.
  rewrite !Buffer_from_binary_id by (try apply or_nuls_bytes; apply Hs).
  unfold write_utf8.
  explode h Hl.
  unfold is_ascii_bytes in Ha. cbn [firstn] in Ha.
  apply Forall_cons_iff in Ha. destruct Ha as [A0 Ha].
  apply Forall_cons_iff in Ha. destruct Ha as [A1 Ha].
  apply Forall_cons_iff in Ha. destruct Ha as [A2 Ha].
  apply Forall_cons_iff in Ha. destruct Ha as [A3 _].
  cbn [firstn]. change (Nat.min 4 (length (Buffer_alloc 128) - 0)) with 4%nat.
  rewrite (utf8_fit_ascii4_bytes _ _ _ _ A0 A1 A2 A3).
  repeat (first [rewrite writeInt32BE_ok by (apply Hi || (rewrite ?write_at_length; simpl; lia))
                | rewrite writeUInt32BE_ok by (apply Hu || (rewrite ?write_at_length; simpl; lia))];
          unfold bind at 1).
  clear Hs Hi Hu.
  bytes_of Hb.
  unfold field_i32, field_u32; cbn [skipn].
  rewrite !be32_s32, !be32_u32_of by assumption.
  reflexivity.
Qed.

Lemma unpack_then_pack_witness :
  exists hd, unpackHeader sample_packet_header = Ret hd /\
             packHeader hd = Ret sample_packet_header.
Proof.
  apply (unpack_then_pack sample_packet_header).
  - reflexivity.
  - apply (Forall_range_check 0 256). vm_compute. reflexivity.
  - apply (Forall_range_check 0 128). vm_compute. reflexivity.
Defined.


Lemma substr_from data n :
  (n <= length data)%nat -> substr data (Z.of_nat n) None = skipn n data.
Proof.
  intros H. unfold substr.
  replace (Z.of_nat n <? 0) with false by (symmetry; apply Z.ltb_ge; lia).
  replace (Z.min (Z.of_nat n) (Z.of_nat (length data))) with (Z.of_nat n) by lia.
  rewrite Nat2Z.id.
  apply firstn_all2. rewrite length_skipn. lia.
Qed.

Lemma composeHeader_layout m :
  encodable m -> composeHeader m = Ret (composed_header m).
Proof.
  intros Hm. unfold composeHeader, composed_header.
  fold (header_record m 0).
  rewrite (header_record_packs m 0 Hm) by (unfold in_u32; lia).
  cbn [bind].
  rewrite (Buffer_from_binary_id (layout (header_record m 0)))
    by (apply layout_bytes; exact Hm).
  fold (header_record m (adler32_sum (layout (header_record m 0)))).
  apply header_record_packs; [exact Hm|].
  pose proof (adler32_sum_range (layout (header_record m 0))). unfold in_u32. lia.
Qed.

(** What [parseRaw] does on the header [composeHeader] made, followed by
    [tail]: the steps up to and including the header checksum pass. *)
Lemma parseRaw_composed m tail rr :
  encodable m -> In (version m) versions ->
  parseRaw (composed_header m ++ tail) rr =
    let body_data := match tail with [] => None | _ => Some tail end in
    let body_data :=
      if truthy body_data && rr
      then match body_data with
           | Some b => Some (substr b 0 (Some (body_size m)))
           | None => None
           end
      else body_data in
    if truthy body_data && (body_size m =? -1) then Throw StreamHeaderWithData
    else if truthy body_data && negb (body_size m =? str_length body_data)
    then Throw BodySizeMismatch
    else if truthy body_data &&
            negb (body_checksum m =?
                  adler32_sum (Buffer_from_binary
                                 (match body_data with Some b => b | None => [] end)))
    then Throw BodyChecksumMismatch
    else if negb (includes commands (command m))
    then Throw (UnknownCommand (command m))
    else
      let message := new_Message (version m) (flags m) (unused m)
                       (command m) (error_code m) (key m)
                       body_data (Some (body_size m)) in
      if rr
      then Ret (PWithRemaining message
                  (substr (composed_header m ++ tail) (128 + body_size m) None))
      else Ret (PMessage message).
Proof.
  intros Hm Hv.
  set (hc := adler32_sum (layout (header_record m 0))).
  assert (Hhc : in_u32 hc).
  { pose proof (adler32_sum_range (layout (header_record m 0))). unfold in_u32.
    fold hc in H. lia. }
  destruct (layout_fields m hc Hm Hhc)
    as (F0 & F1 & F2 & F3 & F4 & F5 & F6 & F7 & F8 & F9 & F10).
  unfold composed_header. fold hc.
  set (h1 := layout (header_record m hc)) in *.
  assert (Hl1 : length h1 = 128%nat) by (apply layout_length; exact Hm).
  assert (Hb1 : is_bytes h1) by (apply layout_bytes; exact Hm).
  unfold parseRaw. change HEADER_SIZE with 128%nat. change (Z.of_nat 128) with 128.
  replace (length (h1 ++ tail) <? 128)%nat with false
    by (symmetry; apply Nat.ltb_ge; rewrite length_app; lia).
  rewrite substr_header, substr_tail by (rewrite length_app; lia).
  rewrite (firstn_app_exact h1 tail 128 Hl1), (skipn_app_exact h1 tail 128 Hl1).
  rewrite (unpackHeader_fields h1 Hl1 Hb1).
  cbn [bind fields_of h_magic h_version h_header_checksum h_body_checksum
       h_body_size h_flags h_unused h_command h_error_code h_key h_pad1 h_pad2].
  rewrite (repack_zeroes h1 Hl1 Hb1 F0).
  rewrite F0, F1, F2, F3, F4, F5, F6, F7, F8, F9, F10.
  replace (jsstring_eqb (toString_utf8 (str "acpp")) HEADER_MAGIC) with true by reflexivity.
  replace (includes versions (version m)) with true
    by (symmetry; apply includes_In; exact Hv).
  cbn [negb bind].
  rewrite (Buffer_from_binary_id (layout (header_record m 0)))
    by (apply layout_bytes; exact Hm).
  fold hc. rewrite Z.eqb_refl. cbn [negb].
  replace (128 <? length (h1 ++ tail))%nat
    with (match tail with [] => false | _ => true end).
  2:{ rewrite length_app, Hl1. destruct tail; cbn [length].
      - symmetry. apply Nat.ltb_ge. lia.
      - symmetry. apply Nat.ltb_lt. lia. }
  destruct tail; reflexivity.
Qed.

(** A composed packet followed by [rest], parsed with [return_remaining]. *)
Lemma packet_then_rest (m : Message) (b rest : jsstring) :
  encodable m -> In (version m) versions -> In (command m) commands ->
  body m = Some b -> b <> [] ->
  body_size m = Z.of_nat (length b) ->
  body_checksum m = adler32_sum (Buffer_from_binary b) ->
  composeRawPacket m = Ret (composed_header m ++ b) /\
  parseRaw ((composed_header m ++ b) ++ rest) true = Ret (PWithRemaining m rest).
Proof.
  intros Hm Hv Hc Hbody Hb Hsz Hck.
  destruct b as [|x b']; [contradiction Hb; reflexivity|].
  set (bb := x :: b') in *.
  split.
  - unfold composeRawPacket. rewrite (composeHeader_layout m Hm). cbn [bind].
    rewrite Hbody. reflexivity.
  - rewrite <- app_assoc.
    rewrite (parseRaw_composed m (bb ++ rest) true Hm Hv).
    assert (Hl : length (composed_header m) = 128%nat) by (apply layout_length; exact Hm).
    change (match bb ++ rest with [] => None | _ :: _ => Some (bb ++ rest) end)
      with (Some (bb ++ rest)).
    cbv zeta.
    replace (truthy (Some (bb ++ rest))) with true by reflexivity.
    cbn [andb].
    rewrite Hsz, HeaderKeyProofs.substr_prefix by lia.
    rewrite Nat2Z.id, (firstn_app_exact bb rest (length bb) eq_refl).
    cbn [str_length].
    replace (Z.of_nat (length bb) =? -1) with false by (symmetry; apply Z.eqb_neq; lia).
    rewrite Z.eqb_refl, Hck, Z.eqb_refl. cbn [negb].
    replace (includes commands (command m)) with true
      by (symmetry; apply includes_In; exact Hc).
    cbn [negb].
    change 128 with (Z.of_nat 128). rewrite <- Nat2Z.inj_add.
    rewrite substr_from by (rewrite !length_app; lia).
    rewrite app_assoc, (skipn_app_exact (composed_header m ++ bb) rest)
      by (rewrite length_app, Hl; reflexivity).
    change (truthy (Some bb)) with true. cbn [andb].
    destruct m; cbn in *. subst. reflexivity.
Qed.






Lemma lxor_byte a b : is_byte a -> is_byte b -> is_byte (Z.lxor a b).
Proof.
  unfold is_byte. intros Ha Hb. split.
  - apply Z.lxor_nonneg. lia.
  - destruct (Z.eq_dec (Z.lxor a b) 0) as [E|N]; [lia|].
    assert (Hp : 0 < Z.lxor a b) by (pose proof (proj2 (Z.lxor_nonneg a b)); lia).
    change 256 with (2 ^ 8). apply Z.log2_lt_pow2; [exact Hp|].
    pose proof (Z.log2_lxor a b (proj1 Ha) (proj1 Hb)) as Hl.
    assert (Z.log2 a < 8).
    { destruct (Z.eq_dec a 0) as [->|]; [reflexivity|].
      apply Z.log2_lt_pow2; [lia | change (2 ^ 8) with 256; lia]. }
    assert (Z.log2 b < 8).
    { destruct (Z.eq_dec b 0) as [->|]; [reflexivity|].
      apply Z.log2_lt_pow2; [lia | change (2 ^ 8) with 256; lia]. }
    lia.
Qed.

Lemma nth_byte l i : is_bytes l -> is_byte (nth i l 0).
Proof.
  intros H. destruct (Nat.lt_ge_cases i (length l)) as [Hi|Hi].
  - unfold is_bytes in H. rewrite Forall_forall in H. apply H, nth_In, Hi.
  - rewrite nth_overflow by exact Hi. unfold is_byte. lia.
Qed.

Lemma header_key_shape ks p :
  length (generateACPHeaderKey ks p) = 32%nat /\
  (is_bytes (ks 32) -> is_bytes p -> is_bytes (generateACPHeaderKey ks p)).
Proof.
  unfold generateACPHeaderKey. rewrite HeaderKeyProofs.header_key_loop_map.
  cbn [app]. split.
  - rewrite length_map, length_seq. reflexivity.
  - intros Hks Hp. apply Forall_forall. intros x Hx.
    apply in_map_iff in Hx. destruct Hx as [j [<- _]].
    assert (Hb : is_byte (Z.lxor (charCodeAt_or0 (ks 32) j)
                    (charCodeAt_or0 (padEnd_nul (substr p 0 (Some 32)) (Z.to_nat 32)) j))).
    { apply lxor_byte; unfold charCodeAt_or0; apply nth_byte; [exact Hks|].
      unfold padEnd_nul. apply Forall_app. split.
      - rewrite HeaderKeyProofs.substr_prefix by lia. apply is_bytes_firstn, Hp.
      - apply Forall_forall. intros y Hy. apply repeat_spec in Hy. subst.
        unfold is_byte. lia. }
    unfold fromCharCode. rewrite Z.mod_small; [exact Hb|].
    unfold is_byte in Hb. lia.
Qed.

(** X6: whatever the keystream and the password are, the header key has
    exactly 32 code units and depends on the first 32 code units of the
    password only (a longer password is silently truncated); when the
    keystream and the password are bytes, so is the key. *)
Theorem generateACPHeaderKey_shape (generateACPKeystream : Z -> jsstring)
  (password : jsstring) :
  length (generateACPHeaderKey generateACPKeystream password) = 32%nat /\
  generateACPHeaderKey generateACPKeystream password
    = generateACPHeaderKey generateACPKeystream (firstn 32 password) /\
  (is_bytes (generateACPKeystream 32) -> is_bytes password ->
   is_bytes (generateACPHeaderKey generateACPKeystream password)).
Proof.
  split; [apply header_key_shape|]. split; [|apply header_key_shape].
  unfold generateACPHeaderKey.
  rewrite !HeaderKeyProofs.substr_prefix by lia.
  change (Z.to_nat 32) with 32%nat. rewrite firstn_firstn. reflexivity.
Qed.

(** X7: a command built by a [compose...Command] factory from a byte
    password, a flags word in the signed 32-bit range and a non-empty
    payload is composed into a packet, and the packet followed by any
    data parses back into the command and that data. *)
Theorem composeCommand_roundtrip (generateACPKeystream : Z -> jsstring)
  (cmd flags : Z) (password payload rest : jsstring) :
  is_bytes (generateACPKeystream 32) -> is_bytes password ->
  In cmd commands -> in_i32 flags ->
  payload <> [] -> Z.of_nat (length payload) <= 2147483647 ->
  let m := composeCommand generateACPKeystream cmd flags password (Some payload) in
  exists raw,
    composeRawPacket m = Ret raw /\
    parseRaw (raw ++ rest) true = Ret (PWithRemaining m rest).
Proof.
  intros Hks Hp Hc Hf Hb Lb m.
  destruct (header_key_shape generateACPKeystream password) as [Lk Bk].
  exists (composed_header m ++ payload).
  apply packet_then_rest; try assumption; try reflexivity.
  - apply new_Message_encodable; try assumption; auto.
    + right; left; reflexivity.
    + unfold in_i32; lia.
    + unfold in_i32; lia.
  - right; left; reflexivity.
Qed.

Lemma composeCommand_roundtrip_witness :
  let m := composeGetPropCommand HeaderKeySpec.sample_keystream 4 (str "admin")
             (Some (str "syAP")) in
  exists raw,
    composeRawPacket m = Ret raw /\
    parseRaw (raw ++ str "more") true = Ret (PWithRemaining m (str "more")).
Proof.
  apply (composeCommand_roundtrip HeaderKeySpec.sample_keystream 20 4 (str "admin")
           (str "syAP") (str "more")).
  - apply (Forall_range_check 0 256). vm_compute. reflexivity.
  - apply (Forall_range_check 0 256). vm_compute. reflexivity.
  - vm_compute; tauto.
  - unfold in_i32; lia.
  - discriminate.
  - vm_compute; discriminate.
Defined.

End MessageCodec.
(** ** More of the property codec *)

Module PropertyCodec.
Import PropertiesTs PropertyTs PropertySpec ElementSpec MessageSpec MessageProofs
  MessageRoundTrip PropertyProofs ListFacts.

Lemma unpackHeader_layout12 nm flags size :
  length nm = 4%nat -> is_ascii nm -> in_u32 flags -> in_u32 size ->
  PropertyTs.unpackHeader (nm ++ be32 flags ++ be32 size)
  = Ret (PropertyTs.mkHeaderData nm flags size).
Proof.
  intros Hl Ha Hf Hs. explode nm Hl.
  unfold PropertyTs.unpackHeader, be32, readUInt32BE.
  cbn [app length Nat.eqb PropertyTs.HEADER_SIZE negb skipn bind slice firstn Nat.sub].
  rewrite !u32_of_be32 by (unfold in_u32 in *; lia).
  unfold is_ascii in Ha.
  apply Forall_cons_iff in Ha. destruct Ha as [H0 Ha].
  apply Forall_cons_iff in Ha. destruct Ha as [H1 Ha].
  apply Forall_cons_iff in Ha. destruct Ha as [H2 Ha].
  apply Forall_cons_iff in Ha. destruct Ha as [H3 _].
  rewrite Utf8Facts.toString_utf8_ascii by (repeat constructor; lia).
  reflexivity.
Qed.

(** X8: an element header with a four-character ASCII name and flags and
    size in the unsigned 32-bit range is packed into 12 bytes (the name,
    then the two big-endian words) from which [unpackHeader] reads the
    same name, flags and size back. *)
Theorem element_header_roundtrip (nm : jsstring) (flags size : Z) :
  length nm = 4%nat -> is_ascii nm -> in_u32 flags -> in_u32 size ->
  exists raw,
    PropertyTs.composeRawElementHeader nm flags size = Ret raw /\
    raw = nm ++ be32 flags ++ be32 size /\
    PropertyTs.unpackHeader raw = Ret (PropertyTs.mkHeaderData nm flags size).
Proof.
  intros Hl Ha Hf Hs. eexists. split; [|split; [reflexivity|]].
  - unfold composeRawElementHeader. apply packHeader_layout12; assumption.
  - apply unpackHeader_layout12; assumption.
Qed.

Lemma element_header_roundtrip_witness :
  exists raw,
    PropertyTs.composeRawElementHeader (str "syNm") 0 11 = Ret raw /\
    raw = str "syNm" ++ be32 0 ++ be32 11 /\
    PropertyTs.unpackHeader raw = Ret (PropertyTs.mkHeaderData (str "syNm") 0 11).
Proof.
  apply (element_header_roundtrip (str "syNm") 0 11).
  - reflexivity.
  - apply (Forall_range_check 0 128). vm_compute. reflexivity.
  - unfold in_u32; lia.
  - unfold in_u32; lia.
Defined.

Lemma initialiser_keeps_buffer t f b :
  ValueInitialisers t = Some f -> f (VBuffer b) = Ret b.
Proof.
  unfold ValueInitialisers. intros H.
  repeat match type of H with
         | (if ?c then _ else _) = _ =>
             destruct c; [injection H as <-; reflexivity|]
         end.
  discriminate H.
Qed.

Section Table.

Variable props : list PropData.

(** A property that the constructor built with a Buffer as value is
    rebuilt by the constructor from that Buffer. *)
Lemma new_Property_idempotent nm val v :
  new_Property props (Some nm) val = Ret (mkProperty (Some nm) (VBuffer v)) ->
  new_Property props (Some nm) (VBuffer v) = Ret (mkProperty (Some nm) (VBuffer v)).
Proof.
  unfold new_Property. intros H.
  destruct (jsstring_eqb nm NUL4 && is_NUL4_string val) eqn:Es.
  { cbn [truthy_name andb truthy_value] in H. discriminate H. }
  cbn [is_NUL4_string]. rewrite andb_false_r.
  destruct (truthy_name (Some nm) &&
            negb (includes_str (getSupportedPropertyNames props) nm)); [discriminate H|].
  cbn [truthy_value].
  destruct (truthy_value val) eqn:Et.
  2:{ injection H as E. subst val. discriminate Et. }
  destruct (getPropertyInfoString_type props (Some nm)) as [t|]; [|discriminate H].
  destruct (ValueInitialisers t) as [f|] eqn:Ef; [|discriminate H].
  rewrite (initialiser_keeps_buffer t f v Ef). cbn [bind].
  destruct (f val) as [v'|e]; [|discriminate H]. cbn [bind] in H.
  destruct (getPropertyInfoString_validator props (Some nm)) as [vd|].
  - destruct (call_validator vd v') as [ok|e] eqn:Ev; [|discriminate H].
    cbn [bind] in H. destruct ok; [|discriminate H]. cbn [negb] in H.
    injection H as ->. rewrite Ev. reflexivity.
  - injection H as ->. reflexivity.
Qed.

(** X9: a property that the constructor built under a four-character
    ASCII name with a Buffer as value is composed into its 12-byte header
    followed by the value, and [parseRawElement] reads the same property
    back from those bytes, whatever the flags were. *)
Theorem compose_parse_element (nm : jsstring) (val : Value) (v : bytes) (flags : Z) :
  new_Property props (Some nm) val = Ret (mkProperty (Some nm) (VBuffer v)) ->
  length nm = 4%nat -> is_ascii nm -> in_u32 flags ->
  Z.of_nat (length v) <= 4294967295 ->
  composeRawElement flags (mkProperty (Some nm) (VBuffer v))
    = Ret (nm ++ be32 flags ++ be32 (Z.of_nat (length v)) ++ v) /\
  parseRawElement props (nm ++ be32 flags ++ be32 (Z.of_nat (length v)) ++ v)
    = Ret (mkProperty (Some nm) (VBuffer v)).
Proof.
  intros Hnew Hl Ha Hf Hv.
  assert (Hs : in_u32 (Z.of_nat (length v))) by (unfold in_u32; lia).
  split.
  - unfold composeRawElement. cbn [name value].
    destruct nm as [|c nm'] eqn:E; [discriminate Hl|].
    cbn [truthy_name]. rewrite <- E in *.
    unfold composeRawElementHeader.
    rewrite (packHeader_layout12 nm flags _ Hl Ha Hf Hs).
    cbn [bind]. rewrite <- !app_assoc. reflexivity.
  - unfold parseRawElement.
    assert (Hh : length (nm ++ be32 flags ++ be32 (Z.of_nat (length v))) = 12%nat).
    { rewrite !length_app, Hl. reflexivity. }
    replace (nm ++ be32 flags ++ be32 (Z.of_nat (length v)) ++ v)
      with ((nm ++ be32 flags ++ be32 (Z.of_nat (length v))) ++ v)
      by (rewrite <- !app_assoc; reflexivity).
    unfold slice. change (PropertyTs.HEADER_SIZE - 0)%nat with 12%nat.
    change PropertyTs.HEADER_SIZE with 12%nat.
    change (skipn 0 ((nm ++ be32 flags ++ be32 (Z.of_nat (length v))) ++ v))
      with ((nm ++ be32 flags ++ be32 (Z.of_nat (length v))) ++ v).
    rewrite (firstn_app_exact _ v 12 Hh), (skipn_app_exact _ v 12 Hh).
    rewrite (unpackHeader_layout12 nm flags _ Hl Ha Hf Hs).
    cbn [bind h_name].
    apply (new_Property_idempotent nm val v Hnew).
Qed.

End Table.

Lemma compose_parse_element_witness :
  composeRawElement 0 (mkProperty (Some (str "GPIs")) (VBuffer (str "abcdefgh")))
    = Ret (str "GPIs" ++ be32 0 ++ be32 8 ++ str "abcdefgh") /\
  parseRawElement sample_table (str "GPIs" ++ be32 0 ++ be32 8 ++ str "abcdefgh")
    = Ret (mkProperty (Some (str "GPIs")) (VBuffer (str "abcdefgh"))).
Proof.
  apply (compose_parse_element sample_table (str "GPIs") (VString (str "abcdefgh"))
           (str "abcdefgh") 0).
  - vm_compute. reflexivity.
  - reflexivity.
  - apply (Forall_range_check 0 128). vm_compute. reflexivity.
  - unfold in_u32; lia.
  - vm_compute. discriminate.
Defined.


Section Constructor.

Variable props : list PropData.

Lemma find_prop_known nm pd :
  find_prop props nm = Some pd ->
  includes_str (getSupportedPropertyNames props) nm = true.
Proof.
  unfold find_prop. intros H. apply find_some in H. destruct H as [Hin He].
  apply jsstring_eqb_eq in He. apply includes_str_In.
  unfold getSupportedPropertyNames. subst nm. apply in_map. exact Hin.
Qed.

Lemma unknown_name_throws (nm : jsstring) (val : Value) :
  nm <> [] -> ~ In nm (getSupportedPropertyNames props) ->
  jsstring_eqb nm NUL4 && is_NUL4_string val = false ->
  new_Property props (Some nm) val = Throw (InvalidPropertyName nm).
Proof.
  intros Hne Hnot Hs. unfold new_Property. rewrite Hs.
  destruct nm as [|c r]; [contradiction Hne; reflexivity|].
  cbn [truthy_name].
  destruct (includes_str (getSupportedPropertyNames props) (c :: r)) eqn:E.
  - apply includes_str_In in E. contradiction.
  - reflexivity.
Qed.

(** X10: the constructor refuses every non-empty name that is not in the
    table, whatever the value is; the one exception is the pair of
    four-NUL strings, which yields the empty property. *)
Theorem new_Property_unknown_name (nm : jsstring) (val : Value) :
  nm <> [] -> ~ In nm (getSupportedPropertyNames props) ->
  new_Property props (Some nm) val =
    if jsstring_eqb nm NUL4 && is_NUL4_string val
    then Ret (mkProperty None VUndefined)
    else Throw (InvalidPropertyName nm).
Proof.
  intros Hne Hnot.
  destruct (jsstring_eqb nm NUL4 && is_NUL4_string val) eqn:Es.
  - unfold new_Property. rewrite Es. reflexivity.
  - apply unknown_name_throws; assumption.
Qed.

(** X11: a property whose validator in the table is an array of accepted
    values (as for acRB, naFl, leAc) can never be constructed with a
    truthy value: when the initialiser does not throw, calling the array
    does. *)
Theorem array_validator_rejects (nm : jsstring) (val : Value) (pd : PropData)
  (accepted : list Z) :
  find_prop props nm = Some pd ->
  pd_validator pd = Some (VValues accepted) ->
  nm <> [] -> nm <> NUL4 -> truthy_value val = true ->
  throws (new_Property props (Some nm) val).
Proof.
  intros Hf Hv Hne Hn4 Ht. unfold new_Property.
  replace (jsstring_eqb nm NUL4) with false.
  2:{ symmetry. destruct (jsstring_eqb nm NUL4) eqn:E; [|reflexivity].
      apply jsstring_eqb_eq in E. contradiction. }
  cbn [andb]. rewrite (find_prop_known nm pd Hf).
  rewrite andb_false_r, Ht.
  unfold getPropertyInfoString_type, getPropertyInfoString_validator.
  destruct nm as [|c r]; [contradiction Hne; reflexivity|].
  cbn [truthy_name]. rewrite Hf, Hv.
  destruct (pd_type pd) as [|t ts]; [eexists; reflexivity|].
  destruct (ValueInitialisers (t :: ts)) as [f|]; [|eexists; reflexivity].
  destruct (f val) as [v|e]; eexists; reflexivity.
Qed.

Lemma number_to_buffer_be32 n :
  in_u32 n -> number_to_buffer n = Ret (be32 n).
Proof.
  intros Hn. unfold number_to_buffer.
  rewrite writeUInt32BE_ok by (assumption || (cbn; lia)). reflexivity.
Qed.

Lemma readUIntBE_all_be32 n :
  in_u32 n -> readUIntBE_all (be32 n) = Ret n.
Proof.
  unfold in_u32. intros Hn. unfold readUIntBE_all, be32.
  cbn [length Nat.leb andb fold_left]. f_equal.
  Z.div_mod_to_equations. lia.
Qed.

(** X12: for a dec or hex property with a range validator, a non-zero
    number that fits 32 bits is accepted exactly when it lies in the
    range, bounds included; the stored value is its four big-endian
    bytes, and a number outside the range is refused. *)
Theorem range_validator_number (nm : jsstring) (pd : PropData) (lo hi n : Z) :
  find_prop props nm = Some pd ->
  pd_type pd = str "dec" \/ pd_type pd = str "hex" ->
  pd_validator pd = Some (VRange lo hi) ->
  nm <> [] -> n <> 0 -> in_u32 n ->
  new_Property props (Some nm) (VNumber n) =
    if (lo <=? n) && (n <=? hi)
    then Ret (mkProperty (Some nm) (VBuffer (be32 n)))
    else Throw (InvalidValueForValidator nm).
Proof.
  intros Hf Ht Hv Hne Hn0 Hn. unfold new_Property.
  cbn [is_NUL4_string]. rewrite andb_false_r.
  rewrite (find_prop_known nm pd Hf), andb_false_r.
  cbn [truthy_value].
  replace (n =? 0) with false by (symmetry; apply Z.eqb_neq; exact Hn0).
  cbn [negb].
  unfold getPropertyInfoString_type, getPropertyInfoString_validator.
  destruct nm as [|c r]; [contradiction Hne; reflexivity|].
  cbn [truthy_name]. rewrite Hf, Hv.
  assert (Hinit : ValueInitialisers (pd_type pd) = Some init_number_or_bytes).
  { destruct Ht as [-> | ->]; reflexivity. }
  assert (Htype : exists t ts, pd_type pd = t :: ts).
  { destruct Ht as [-> | ->]; eexists; eexists; reflexivity. }
  destruct Htype as [t [ts Et]]. rewrite Et in *. rewrite Hinit.
  cbn [init_number_or_bytes]. rewrite (number_to_buffer_be32 n Hn).
  cbn [bind call_validator]. rewrite (readUIntBE_all_be32 n Hn). cbn [bind].
  replace ((0 <=? n - lo) && (n - lo <=? hi - lo)) with ((lo <=? n) && (n <=? hi)).
  2:{ destruct (Z.leb_spec lo n), (Z.leb_spec n hi), (Z.leb_spec 0 (n - lo)),
        (Z.leb_spec (n - lo) (hi - lo)); cbn; try reflexivity; lia. }
  destruct ((lo <=? n) && (n <=? hi)); reflexivity.
Qed.

End Constructor.

Lemma array_validator_rejects_witness :
  throws (new_Property sample_table (Some (str "acRB")) (VNumber 1)).
Proof.
  apply (array_validator_rejects sample_table (str "acRB") (VNumber 1)
           (mkPropData (str "acRB") (str "dec") (str "Reboot device flag")
              (Some (VValues [0]))) [0]).
  - vm_compute. reflexivity.
  - reflexivity.
  - discriminate.
  - discriminate.
  - reflexivity.
Defined.

Lemma new_Property_unknown_name_witness :
  new_Property sample_table (Some (str "nope")) (VNumber 1)
    = Throw (InvalidPropertyName (str "nope")).
Proof.
  apply (new_Property_unknown_name sample_table (str "nope") (VNumber 1)).
  - discriminate.
  - vm_compute. intros H. repeat (destruct H as [H|H]; [discriminate H|]). exact H.
Defined.

Lemma range_validator_number_witness :
  new_Property sample_table (Some (str "LEDc")) (VNumber 3)
    = Ret (mkProperty (Some (str "LEDc")) (VBuffer (be32 3))).
Proof.
  apply (range_validator_number sample_table (str "LEDc")
           (mkPropData (str "LEDc") (str "dec") (str "LED colour/pattern")
              (Some (VRange 0 3))) 0 3 3).
  - vm_compute. reflexivity.
  - left. reflexivity.
  - reflexivity.
  - discriminate.
  - discriminate.
  - unfold in_u32; lia.
Defined.

(** X13: the end marker of a property list, as [composeRawElement] writes
    it for the empty property, is four NUL name bytes, the flags, the
    size 4 and four NUL value bytes; [parseRawElement] cannot read it
    back: it hands the name and a Buffer to the constructor, which
    refuses the name unless the table lists it. *)
Theorem parseRawElement_rejects_end_marker (props : list PropData) (flags : Z) :
  ~ In NUL4 (getSupportedPropertyNames props) -> in_u32 flags ->
  new_Property props (Some NUL4) (VString NUL4) = Ret (mkProperty None VUndefined) /\
  composeRawElement flags (mkProperty None VUndefined)
    = Ret (NUL4 ++ be32 flags ++ [0; 0; 0; 4] ++ NUL4) /\
  parseRawElement props (NUL4 ++ be32 flags ++ [0; 0; 0; 4] ++ NUL4)
    = Throw (InvalidPropertyName NUL4).
Proof.
  intros Hnot Hf. split; [reflexivity|]. split.
  - unfold composeRawElement. cbn [name value truthy_name truthy_value].
    unfold composeRawElementHeader.
    rewrite (packHeader_layout12 NUL4 flags _ eq_refl) by
      (try assumption; try (unfold in_u32; cbn; lia);
       apply (Forall_range_check 0 128); reflexivity).
    reflexivity.
  - unfold parseRawElement.
    change (slice 0 PropertyTs.HEADER_SIZE (NUL4 ++ be32 flags ++ [0; 0; 0; 4] ++ NUL4))
      with (NUL4 ++ be32 flags ++ be32 4).
    rewrite (unpackHeader_layout12 NUL4 flags 4 eq_refl) by
      (try assumption; try (unfold in_u32; cbn; lia);
       apply (Forall_range_check 0 128); reflexivity).
    cbn [bind h_name].
    apply (unknown_name_throws props NUL4); [discriminate | exact Hnot | reflexivity].
Qed.

Lemma parseRawElement_rejects_end_marker_witness :
  new_Property catalogue_table (Some NUL4) (VString NUL4)
    = Ret (mkProperty None VUndefined) /\
  composeRawElement 0 (mkProperty None VUndefined)
    = Ret (NUL4 ++ be32 0 ++ [0; 0; 0; 4] ++ NUL4) /\
  parseRawElement catalogue_table (NUL4 ++ be32 0 ++ [0; 0; 0; 4] ++ NUL4)
    = Throw (InvalidPropertyName NUL4).
Proof.
  apply (parseRawElement_rejects_end_marker catalogue_table 0).
  - intros H. apply includes_str_In in H. vm_compute in H. discriminate H.
  - unfold in_u32; lia.
Defined.


Lemma generate_loop_ok entries : forall props,
  Forall entry_ok entries ->
  generate_loop entries props = Ret (props ++ table_of entries).
Proof.
  induction entries as [|[name [[type description] validator]] rest IH];
    intros props H; cbn [generate_loop].
  - rewrite app_nil_r. reflexivity.
  - apply Forall_cons_iff in H. destruct H as [[Hl [Ht Hd]] Hrest].
    cbn [fst snd] in Hl, Ht, Hd.
    rewrite Hl. cbn [Nat.eqb negb].
    rewrite (proj2 (includes_str_In _ _) Ht). cbn [negb].
    destruct description as [|d ds]; [contradiction Hd; reflexivity|].
    rewrite (IH _ Hrest), <- app_assoc. reflexivity.
Qed.

Lemma generate_loop_checked entries : forall props props',
  generate_loop entries props = Ret props' -> Forall entry_ok entries.
Proof.
  induction entries as [|[name [[type description] validator]] rest IH];
    intros props props' H; cbn [generate_loop] in H.
  - constructor.
  - destruct (Nat.eqb_spec (length name) 4) as [Hl|]; [|discriminate H].
    cbn [negb] in H.
    destruct (includes_str types type) eqn:Et; [|discriminate].
    cbn [negb] in H. destruct description as [|d ds]; [discriminate|].
    constructor; [|eapply IH; exact H].
    repeat split; cbn [fst snd]; [exact Hl | | discriminate].
    apply includes_str_In. exact Et.
Qed.

(** X14: [generateACPProperties] returns a table exactly when every entry
    has a four-character name, one of the seven types it knows and a
    non-empty description; the table then has one record per entry, in
    the order of the entries, with the entry's validator. *)
Theorem generateACPProperties_accepts_iff (entries : list (jsstring * Prop_)) :
  ((exists t, generateACPProperties entries = Ret t) <-> Forall entry_ok entries) /\
  (forall t, generateACPProperties entries = Ret t -> t = table_of entries).
Proof.
  unfold generateACPProperties. split; [split|].
  - intros [t H]. eapply generate_loop_checked. exact H.
  - intros H. exists (table_of entries). apply (generate_loop_ok entries [] H).
  - intros t H. apply generate_loop_accepts in H. destruct H as [-> _]. reflexivity.
Qed.

Lemma hex_digit_hex_char d :
  0 <= d < 16 -> hex_digit (hex_char d) = Some d.
Proof.
  intros Hd. unfold hex_char, hex_digit.
  destruct (Z.ltb_spec d 10).
  - replace ((48 <=? 48 + d) && (48 + d <=? 57)) with true
      by (symmetry; apply andb_true_iff; split; apply Z.leb_le; lia).
    f_equal. lia.
  - replace ((48 <=? 87 + d) && (87 + d <=? 57)) with false
      by (symmetry; apply andb_false_iff; right; apply Z.leb_gt; lia).
    replace ((97 <=? 87 + d) && (87 + d <=? 102)) with true
      by (symmetry; apply andb_true_iff; split; apply Z.leb_le; lia).
    f_equal. lia.
Qed.

Lemma hex_char_not_colon d : 0 <= d < 16 -> (hex_char d =? 58) = false.
Proof.
  intros Hd. unfold hex_char. apply Z.eqb_neq. destruct (Z.ltb_spec d 10); lia.
Qed.

(** [Buffer.from(s, 'hex')] inverts [toString('hex')]. *)
Lemma Buffer_from_hex_toString_hex b :
  is_bytes b -> Buffer_from_hex (toString_hex b) = b.
Proof.
  unfold is_bytes. induction 1 as [|x b Hx _ IH]; [reflexivity|].
  unfold is_byte in Hx.
  cbn [toString_hex flat_map app Buffer_from_hex].
  rewrite !hex_digit_hex_char by (Z.div_mod_to_equations; lia).
  fold (toString_hex b). rewrite IH. f_equal.
  Z.div_mod_to_equations. lia.
Qed.

Lemma split_colon_pair x r cur :
  is_byte x ->
  split_colon (toString_hex [x] ++ r) cur = split_colon r (cur ++ toString_hex [x]).
Proof.
  unfold is_byte. intros Hx. cbn [toString_hex flat_map app split_colon].
  rewrite !hex_char_not_colon by (Z.div_mod_to_equations; lia).
  rewrite <- app_assoc. reflexivity.
Qed.

Lemma split_colon_mac_text b : forall x,
  is_byte x -> is_bytes b ->
  split_colon (mac_text (x :: b)) [] = map (fun y => toString_hex [y]) (x :: b).
Proof.
  unfold mac_text.
  induction b as [|y b IH]; intros x Hx Hb.
  - cbn [map join]. rewrite <- (app_nil_r (toString_hex [x])) at 1.
    rewrite split_colon_pair by exact Hx. reflexivity.
  - apply Forall_cons_iff in Hb. destruct Hb as [Hy Hb].
    change (join (str ":") (map (fun y0 => toString_hex [y0]) (x :: y :: b)))
      with (toString_hex [x] ++ 58 :: join (str ":") (map (fun y0 => toString_hex [y0]) (y :: b))).
    rewrite split_colon_pair by exact Hx.
    cbn [split_colon Z.eqb Pos.eqb app].
    rewrite (IH y Hy Hb). reflexivity.
Qed.

Lemma concat_hex_pairs b :
  concat (map (fun y => toString_hex [y]) b) = toString_hex b.
Proof.
  induction b as [|x b IH]; [reflexivity|].
  cbn [map concat]. rewrite IH. reflexivity.
Qed.

Lemma mac_text_length b :
  length b = 6%nat -> length (mac_text b) = 17%nat.
Proof. intros H. explode b H. reflexivity. Qed.

(** X15: the mac initialiser reads the usual text of a MAC address, six
    pairs of hex digits separated by colons, back into the six bytes the
    text was written from. *)
Theorem init_mac_reads_text (b : bytes) :
  length b = 6%nat -> is_bytes b ->
  exists initialiser,
    ValueInitialisers (str "mac") = Some initialiser /\
    initialiser (VString (mac_text b)) = Ret b.
Proof.
  intros Hl Hb. exists init_mac. split; [reflexivity|].
  unfold init_mac. rewrite (mac_text_length b Hl). cbn [Nat.eqb].
  destruct b as [|x b']; [discriminate Hl|].
  apply Forall_cons_iff in Hb. destruct Hb as [Hx Hb'].
  rewrite (split_colon_mac_text b' x Hx Hb').
  rewrite length_map, Hl. cbn [Nat.eqb].
  rewrite concat_hex_pairs.
  rewrite Buffer_from_hex_toString_hex; [reflexivity|].
  constructor; assumption.
Qed.

Lemma init_mac_reads_text_witness :
  exists initialiser,
    ValueInitialisers (str "mac") = Some initialiser /\
    initialiser (VString (mac_text [0; 27; 99; 132; 69; 230])) = Ret [0; 27; 99; 132; 69; 230].
Proof.
  apply (init_mac_reads_text [0; 27; 99; 132; 69; 230]).
  - reflexivity.
  - apply (Forall_range_check 0 256). vm_compute. reflexivity.
Defined.

Lemma split_colon_hex l : forall r cur,
  is_bytes l ->
  split_colon (toString_hex l ++ r) cur = split_colon r (cur ++ toString_hex l).
Proof.
  induction l as [|x l IH]; intros r cur Hl.
  - cbn [toString_hex flat_map app]. rewrite app_nil_r. reflexivity.
  - apply Forall_cons_iff in Hl. destruct Hl as [Hx Hl].
    change (toString_hex (x :: l)) with (toString_hex [x] ++ toString_hex l).
    rewrite <- app_assoc, split_colon_pair by exact Hx.
    rewrite IH by exact Hl. rewrite <- app_assoc. reflexivity.
Qed.

Lemma split_colon_hex_end l cur :
  is_bytes l -> split_colon (toString_hex l) cur = [cur ++ toString_hex l].
Proof.
  intros Hl. rewrite <- (app_nil_r (toString_hex l)) at 1.
  rewrite split_colon_hex by exact Hl. reflexivity.
Qed.

Lemma toString_hex_app a b : toString_hex (a ++ b) = toString_hex a ++ toString_hex b.
Proof. unfold toString_hex. apply flat_map_app. Qed.

Lemma toString_hex_length b : length (toString_hex b) = (2 * length b)%nat.
Proof.
  induction b as [|x b IH]; [reflexivity|].
  change (toString_hex (x :: b)) with (toString_hex [x] ++ toString_hex b).
  rewrite length_app, IH. cbn [toString_hex flat_map app length]. lia.
Qed.

Section Formatting.

Context {CFLValue : Type}.
Variable CFLBinaryPList_parse : bytes -> outcome CFLValue.

(** X16: the mac formatter does not produce the text the mac initialiser
    reads: for a six-byte value it joins the hex forms of the value and
    of its last five, four, three, two and one bytes, 47 characters in
    all, and the initialiser reads that text as 21 bytes. *)
Theorem format_mac_text (b : bytes) :
  length b = 6%nat -> is_bytes b ->
  exists formatter text,
    ValueFormatters CFLBinaryPList_parse (str "mac") = Some formatter /\
    formatter b = Ret (FString text) /\
    length text = 47%nat /\
    firstn 12 text = toString_hex b /\
    init_mac (VString text)
      = Ret (b ++ skipn 1 b ++ skipn 2 b ++ skipn 3 b ++ skipn 4 b ++ skipn 5 b).
Proof.
  intros Hl Hb.
  exists (format_mac (CFLValue := CFLValue)).
  assert (Hs : forall i, is_bytes (skipn i b)) by (intros i; apply is_bytes_skipn, Hb).
  pose proof (Hs 1%nat) as H1. pose proof (Hs 2%nat) as H2. pose proof (Hs 3%nat) as H3.
  pose proof (Hs 4%nat) as H4. pose proof (Hs 5%nat) as H5. clear Hs.
  assert (L : forall i, length (toString_hex (skipn i b)) = (2 * (6 - i))%nat).
  { intros i. rewrite toString_hex_length, length_skipn, Hl. reflexivity. }
  pose proof (L 1%nat) as L1. pose proof (L 2%nat) as L2. pose proof (L 3%nat) as L3.
  pose proof (L 4%nat) as L4. pose proof (L 5%nat) as L5.
  assert (L0 : length (toString_hex b) = 12%nat) by (rewrite toString_hex_length, Hl; reflexivity).
  clear L.
  eexists. split; [reflexivity|]. split; [reflexivity|].
  cbn [seq map join]. change (skipn 0 b) with b. change (str ":") with [58].
  set (h0 := toString_hex b) in *. set (h1 := toString_hex (skipn 1 b)) in *.
  set (h2 := toString_hex (skipn 2 b)) in *. set (h3 := toString_hex (skipn 3 b)) in *.
  set (h4 := toString_hex (skipn 4 b)) in *. set (h5 := toString_hex (skipn 5 b)) in *.
  assert (Len : length (h0 ++ [58] ++ h1 ++ [58] ++ h2 ++ [58] ++ h3 ++ [58] ++ h4 ++ [58] ++ h5)
                = 47%nat).
  { rewrite !length_app, L0, L1, L2, L3, L4, L5. reflexivity. }
  split; [exact Len|]. split.
  - apply firstn_app_exact. exact L0.
  - unfold init_mac. rewrite Len. cbn [Nat.eqb].
    cbn [app]. subst h0 h1 h2 h3 h4 h5.
    rewrite (split_colon_hex b) by exact Hb. cbn [split_colon Z.eqb Pos.eqb app].
    rewrite (split_colon_hex (skipn 1 b)) by exact H1. cbn [split_colon Z.eqb Pos.eqb app].
    rewrite (split_colon_hex (skipn 2 b)) by exact H2. cbn [split_colon Z.eqb Pos.eqb app].
    rewrite (split_colon_hex (skipn 3 b)) by exact H3. cbn [split_colon Z.eqb Pos.eqb app].
    rewrite (split_colon_hex (skipn 4 b)) by exact H4. cbn [split_colon Z.eqb Pos.eqb app].
    rewrite (split_colon_hex_end (skipn 5 b)) by exact H5. cbn [app length Nat.eqb].
    cbn [concat]. rewrite app_nil_r, <- !toString_hex_app.
    rewrite Buffer_from_hex_toString_hex; [reflexivity|].
    repeat (apply Forall_app; split); assumption.
Qed.

(** X17: for the dec and hex types, the initialiser turns a number in the
    unsigned 32-bit range into its four big-endian bytes, from which the
    dec formatter reads the number back; a number outside that range
    makes the initialiser throw a RangeError. *)
Theorem number_initialiser_formatter (type : jsstring) (n : Z) :
  type = str "dec" \/ type = str "hex" ->
  exists initialiser formatter,
    ValueInitialisers type = Some initialiser /\
    ValueFormatters CFLBinaryPList_parse (str "dec") = Some formatter /\
    (in_u32 n ->
       initialiser (VNumber n) = Ret (be32 n) /\ formatter (be32 n) = Ret (FNumber n)) /\
    (~ in_u32 n -> initialiser (VNumber n) = Throw RangeError).
Proof.
  intros Ht. exists init_number_or_bytes, (format_dec (CFLValue := CFLValue)).
  split; [destruct Ht as [-> | ->]; reflexivity|].
  split; [reflexivity|]. split.
  - intros Hn. split.
    + apply number_to_buffer_be32. exact Hn.
    + unfold format_dec. rewrite (readUIntBE_all_be32 n Hn). reflexivity.
  - intros Hn. cbn [init_number_or_bytes]. unfold number_to_buffer, writeUInt32BE.
    unfold in_u32 in Hn.
    destruct (Z.leb_spec 0 n), (Z.leb_spec n 4294967295); cbn [andb]; try reflexivity.
    lia.
Qed.

End Formatting.

Lemma format_mac_text_witness :
  exists formatter text,
    ValueFormatters (fun _ => Ret tt) (str "mac") = Some formatter /\
    formatter [0; 27; 99; 132; 69; 230] = Ret (FString text) /\
    length text = 47%nat /\
    firstn 12 text = toString_hex [0; 27; 99; 132; 69; 230] /\
    init_mac (VString text)
      = Ret ([0; 27; 99; 132; 69; 230] ++ skipn 1 [0; 27; 99; 132; 69; 230]
             ++ skipn 2 [0; 27; 99; 132; 69; 230] ++ skipn 3 [0; 27; 99; 132; 69; 230]
             ++ skipn 4 [0; 27; 99; 132; 69; 230] ++ skipn 5 [0; 27; 99; 132; 69; 230]).
Proof.
  apply (format_mac_text (fun _ => Ret tt) [0; 27; 99; 132; 69; 230]).
  - reflexivity.
  - apply (Forall_range_check 0 256). vm_compute. reflexivity.
Defined.

Lemma number_initialiser_formatter_witness :
  exists initialiser formatter,
    ValueInitialisers (str "hex") = Some initialiser /\
    ValueFormatters (fun _ => Ret tt) (str "dec") = Some formatter /\
    (in_u32 305419896 ->
       initialiser (VNumber 305419896) = Ret (be32 305419896) /\
       formatter (be32 305419896) = Ret (FNumber 305419896)) /\
    (~ in_u32 305419896 -> initialiser (VNumber 305419896) = Throw RangeError).
Proof.
  apply (number_initialiser_formatter (fun _ => Ret tt) (str "hex") 305419896).
  right. reflexivity.
Defined.


End PropertyCodec.
(** ** More of the session transport *)

Module SessionTransport.
Import SessionTs SessionSpec SessionProofs ListFacts.
Import MessageSpec CodecSpec TransportSpec.

Section Transport.

Context {CFLValue : Type}.
Variable aes_128_ctr : bytes -> bytes -> Z -> bytes -> bytes.
Implicit Types (w : World CFLValue) (s : Session CFLValue).

(** [receive] when the stream holds the bytes asked for. *)
Lemma receive_enough w size timeout :
  0 <= size ->
  0 <= match timeout with Some t => t | None => 10000 end ->
  clock_monotone (now w) (future w) ->
  size <= Z.of_nat (length (stream aes_128_ctr w)) ->
  exists out w',
    receive aes_128_ctr size timeout w = (Done out, w') /\
    out = firstn (Z.to_nat size) (stream aes_128_ctr w) /\
    stream aes_128_ctr w' = skipn (Z.to_nat size) (stream aes_128_ctr w) /\
    length out = Z.to_nat size /\
    reading (session w') = reading (session w) /\
    same_channel (session w) (session w') /\
    authenticating w' = authenticating w /\
    clock_monotone (now w') (future w').
Proof.
  intros Hs Ht Hm Hlen.
  pose proof (receive_stream aes_128_ctr w size timeout Hs Ht Hm) as R.
  destruct (receive aes_128_ctr size timeout w) as [[out| e |] w'];
    [| destruct R | lia].
  destruct R as (Hout & Hsplit & Hle & Hread & Hchan & Hauth & Hm').
  assert (Hl : length out = Z.to_nat size) by (rewrite Hout, length_firstn; lia).
  exists out, w'. split; [reflexivity|]. split; [exact Hout|]. split.
  { rewrite Hsplit at 1. symmetry. apply skipn_app_exact. exact Hl. }
  auto.
Qed.


Lemma Buffer_slice_drop_last buf k :
  k < 0 ->
  Buffer_slice buf 0 (Some k) = firstn (Z.to_nat (Z.of_nat (length buf) + k)) buf /\
  Buffer_slice buf k None = skipn (Z.to_nat (Z.of_nat (length buf) + k)) buf.
Proof.
  intros Hk. unfold Buffer_slice, clamp_index.
  replace (0 <? 0) with false by reflexivity.
  replace (k <? 0) with true by (symmetry; apply Z.ltb_lt; lia).
  replace (Z.of_nat (length buf) <? 0) with false by (symmetry; apply Z.ltb_ge; lia).
  rewrite Z.min_id. replace (Z.min 0 (Z.of_nat (length buf))) with 0 by lia.
  change (Z.to_nat 0) with 0%nat. cbn [skipn]. rewrite Z.sub_0_r.
  replace (Z.to_nat (Z.max (Z.of_nat (length buf) + k) 0))
    with (Z.to_nat (Z.of_nat (length buf) + k)) by lia.
  split.
  - reflexivity.
  - apply firstn_all2. rewrite length_skipn. lia.
Qed.

(** X19: a negative size is not refused: [receive] then returns at once,
    without waiting and whatever the clock does, all buffered bytes but
    the last [-size], and keeps those in the buffer; nothing else in the
    session changes. *)
Theorem receive_negative_size w size timeout :
  size < 0 ->
  let keep := Z.to_nat (Z.of_nat (length (buffer (session w))) + size) in
  exists w',
    receive aes_128_ctr size timeout w = (Done (firstn keep (buffer (session w))), w') /\
    buffer (session w') = skipn keep (buffer (session w)) /\
    reading (session w') = reading (session w) /\
    encryption (session w') = encryption (session w) /\
    emitted (session w') = emitted (session w) /\
    now w' = now w /\ future w' = future w.
Proof.
  intros Hs keep. unfold receive, receiveSize.
  cbn [buffer set_reading reading].
  destruct (Buffer_slice_drop_last (buffer (session w)) size Hs) as [-> ->].
  fold keep.
  assert (Hw : size - Z.of_nat (length (firstn keep (buffer (session w)))) <= 0) by lia.
  destruct (future w) as [|t rest] eqn:Ef; cbn [receive_loop];
    replace (0 <? size - Z.of_nat (length (firstn keep (buffer (session w))))) with false
      by (symmetry; apply Z.ltb_ge; exact Hw);
    eexists; (split; [reflexivity|]);
    cbn [session set_buffer set_reading buffer reading encryption emitted now future];
    repeat split; lia.
Qed.

Variable CFLBinaryPList_parse : bytes -> option CFLValue.




(** [receive] when the buffer already holds the bytes asked for: nothing
    is awaited, and only the buffer changes. *)
Lemma receive_buffered w size timeout :
  0 <= size <= Z.of_nat (length (buffer (session w))) ->
  receive aes_128_ctr size timeout w =
    (Done (firstn (Z.to_nat size) (buffer (session w))),
     set_session (set_buffer (skipn (Z.to_nat size) (buffer (session w))) (session w)) w).
Proof.
  destruct w as [s a n f]. destruct s as [so bu re en em co wr].
  cbn [session buffer]. intros Hs.
  unfold receive, receiveSize.
  cbn [session buffer reading authenticating now future set_buffer set_reading
       socket encryption emitted console written set_session].
  rewrite Buffer_slice_prefix, Buffer_slice_suffix by lia.
  replace (size - Z.of_nat (length (firstn (Z.to_nat size) bu))) with 0
    by (rewrite length_firstn; lia).
  destruct f; cbn [receive_loop Z.ltb Z.compare reading set_reading socket buffer
                   encryption emitted console written];
    unfold set_reading, set_buffer, set_session;
    cbn [session reading socket buffer encryption emitted console written
         authenticating now future];
    rewrite Z.add_simpl_r; reflexivity.
Qed.

(** One buffered monitor frame, handled. *)
Lemma handleData_frame w (f : Z * Z * bytes) (rest : bytes) :
  Z.of_nat (length (snd f)) <= 4294967295 ->
  buffer (session w) = monitor_frame f ++ rest ->
  exists w',
    handleData CFLBinaryPList_parse aes_128_ctr (buffer (session w)) w = (Done tt, w') /\
    buffer (session w') = rest /\
    monitor_events (session w')
      = monitor_events (session w) ++ published CFLBinaryPList_parse f /\
    console (session w') = console (session w) ++ complaints CFLBinaryPList_parse f /\
    reading (session w') = reading (session w) /\
    written (session w') = written (session w) /\
    encryption (session w') = encryption (session w) /\
    future w' = future w.
Proof.
  destruct f as [[a b] body]. cbn [fst snd]. intros Hlen Hbuf.
  unfold monitor_frame in Hbuf. cbn [fst snd] in Hbuf.
  set (hdr := str "XE" ++ [a; b] ++ be32 (Z.of_nat (length body))) in *.
  assert (Hb : buffer (session w) = hdr ++ body ++ rest).
  { rewrite Hbuf. unfold hdr. rewrite <- !app_assoc. reflexivity. }
  assert (Hl : length hdr = 8%nat) by reflexivity.
  unfold handleData.
  replace (jsstring_eqb (toString_binary (slice 0 2 (buffer (session w)))) (str "XE"))
    with true by (rewrite Hb; reflexivity).
  unfold handleMonitorData, io_bind.
  rewrite (receive_buffered w 8 None) by (rewrite Hb, length_app, Hl; lia).
  change (Z.to_nat 8) with 8%nat.
  rewrite Hb, (firstn_app_exact hdr _ 8 Hl), (skipn_app_exact hdr _ 8 Hl).
  unfold io_lift.
  replace (readUInt32BE hdr 4) with (Ret (Z.of_nat (length body))).
  2:{ unfold hdr, readUInt32BE, be32. cbn [app skipn str map String.list_ascii_of_string].
      rewrite MessageProofs.u32_of_be32 by lia. reflexivity. }
  cbn [lift].
  set (w1 := set_session (set_buffer (body ++ rest) (session w)) w).
  rewrite (receive_buffered w1 (Z.of_nat (length body)) None)
    by (cbn [w1 session set_session set_buffer buffer]; rewrite length_app; lia).
  cbn [w1 session set_session set_buffer buffer].
  rewrite Nat2Z.id, (firstn_app_exact body rest _ eq_refl),
    (skipn_app_exact body rest _ eq_refl).
  unfold published, complaints. cbn [snd].
  destruct (CFLBinaryPList_parse body) as [v|]; eexists; (split; [reflexivity|]);
    unfold monitor_events;
    cbn [session set_session set_buffer emit log buffer emitted console reading written
         encryption future socket];
    rewrite ?flat_map_app, ?app_nil_r; cbn [flat_map app]; repeat split; reflexivity.
Qed.

Lemma monitor_frame_nonempty f rest : monitor_frame f ++ rest <> [].
Proof. destruct f as [[a b] body]. discriminate. Qed.

(** The loop of [_handleData] on a buffer of whole monitor frames. *)
Lemma _handleData_frames (frames : list (Z * Z * bytes)) :
  forall (fuel : nat) w,
    reading (session w) = 0 ->
    buffer (session w) = flat_map monitor_frame frames ->
    Forall (fun f => Z.of_nat (length (snd f)) <= 4294967295) frames ->
    (length frames < fuel)%nat ->
    exists w',
      _handleData CFLBinaryPList_parse aes_128_ctr fuel w = Some (Done tt, w') /\
      buffer (session w') = [] /\
      monitor_events (session w')
        = monitor_events (session w) ++ flat_map (published CFLBinaryPList_parse) frames /\
      console (session w')
        = console (session w) ++ flat_map (complaints CFLBinaryPList_parse) frames /\
      reading (session w') = 0 /\
      written (session w') = written (session w) /\
      encryption (session w') = encryption (session w) /\
      future w' = future w.
Proof.
  induction frames as [|f frames IH]; intros fuel w Hr Hb Hfit Hfuel.
  - exists w. split.
    + apply _handleData_guard. right. exact Hb.
    + cbn [flat_map]. rewrite !app_nil_r. repeat split; auto.
  - destruct fuel as [|fuel]; [cbn in Hfuel; lia|].
    apply Forall_cons_iff in Hfit. destruct Hfit as [Hf Hfit].
    cbn [flat_map] in Hb.
    assert (Hne : buffer (session w) <> []).
    { rewrite Hb. apply monitor_frame_nonempty. }
    rewrite (_handleData_turn aes_128_ctr CFLBinaryPList_parse fuel w Hr Hne).
    destruct (handleData_frame w f _ Hf Hb)
      as (w1 & E & Hb1 & He1 & Hc1 & Hr1 & Hw1 & Hn1 & Hf1).
    rewrite E.
    destruct (IH fuel w1 ltac:(congruence) Hb1 Hfit ltac:(cbn in Hfuel; lia))
      as (w' & E' & Hb' & He' & Hc' & Hr' & Hw' & Hn' & Hf').
    exists w'. split; [exact E'|]. split; [exact Hb'|].
    cbn [flat_map]. rewrite He', He1, Hc', Hc1, <- !app_assoc.
    repeat split; congruence.
Qed.

(** X29: a chunk of whole monitor frames arriving at an idle,
    unencrypted session with an empty buffer is handled completely by the
    'data' handler: every frame whose body parses is published as a
    monitor event, in order, every other frame is logged as a parse
    error, and the buffer is empty again at the end; one turn of the loop
    more than there are frames suffices, and nothing is awaited. *)
Theorem on_data_monitor_frames (fuel : nat) w (frames : list (Z * Z * bytes)) :
  reading (session w) = 0 ->
  buffer (session w) = [] ->
  encryption (session w) = None ->
  Forall (fun f => Z.of_nat (length (snd f)) <= 4294967295) frames ->
  (length frames < fuel)%nat ->
  exists w',
    on_data CFLBinaryPList_parse aes_128_ctr fuel (flat_map monitor_frame frames) w
      = Some (Done tt, w') /\
    buffer (session w') = [] /\
    monitor_events (session w')
      = monitor_events (session w) ++ flat_map (published CFLBinaryPList_parse) frames /\
    console (session w')
      = console (session w) ++ flat_map (complaints CFLBinaryPList_parse) frames /\
    reading (session w') = 0 /\
    written (session w') = written (session w) /\
    future w' = future w.
Proof.
  intros Hr Hb Henc Hfit Hfuel. unfold on_data.
  destruct (deliver_effect aes_128_ctr (flat_map monitor_frame frames) (session w))
    as (B & E & R & (_ & Cw & Cc & Cm)).
  rewrite Hb, Henc in B. cbn [plaintext app] in B. rewrite app_nil_r in B.
  rewrite R, Hr. cbn [Z.eqb].
  set (w0 := set_session (deliver aes_128_ctr (flat_map monitor_frame frames) (session w)) w).
  destruct (_handleData_frames frames fuel w0 ltac:(cbn; congruence) B Hfit Hfuel)
    as (w' & E' & Hb' & He' & Hc' & Hr' & Hw' & _ & Hf').
  exists w'. split; [exact E'|]. split; [exact Hb'|].
  cbn [w0 session set_session future] in He', Hc', Hw', Hf'.
  repeat split; congruence.
Qed.

Lemma encrypt_decrypt_in_step (es er : Encryption) (data : bytes) :
  (forall key iv position d,
     aes_128_ctr key iv position (aes_128_ctr key iv position d) = d) ->
  (forall key iv position d, length (aes_128_ctr key iv position d) = length d) ->
  in_step es er ->
  fst (decrypt aes_128_ctr er (fst (encrypt aes_128_ctr es data))) = data /\
  in_step (snd (encrypt aes_128_ctr es data))
          (snd (decrypt aes_128_ctr er (fst (encrypt aes_128_ctr es data)))).
Proof.
  intros Hinv Hlen Hstep. unfold in_step, sending_context, receiving_context in *.
  unfold encrypt, decrypt, clientEncrypt, serverEncrypt, clientDecrypt, serverDecrypt,
    cipher_update.
  destruct (role es) eqn:Rs, (role er) eqn:Rr;
    cbn [fst snd with_client_context with_server_context role client_context
         server_context cipher decipher];
    rewrite ?Rs, ?Rr; cbn [cipher decipher];
    rewrite <- Hstep, Hinv, Hlen; split; reflexivity.
Qed.

(** X23: what an encrypting session sends, a session in step with it
    receives.  For a cipher that is its own inverse at every keystream
    position and preserves lengths (as AES in CTR mode is), the packet
    of a message sent through [send] is written to the socket as one
    encrypted chunk; the peer's [decrypt] turns that chunk back into the
    bytes of the packet and stays in step for the next message, and a
    [receive] of the packet's length on the peer returns those bytes. *)
Theorem encrypted_send_is_received (ws : World CFLValue) (es er : Encryption)
  (m : MessageJs.Message) (raw : jsstring) :
  (forall key iv position d,
     aes_128_ctr key iv position (aes_128_ctr key iv position d) = d) ->
  (forall key iv position d, length (aes_128_ctr key iv position d) = length d) ->
  MessageJs.composeRawPacket m = Ret raw ->
  socket (session ws) = true ->
  encryption (session ws) = Some es ->
  in_step es er ->
  exists ws' wire es' er',
    send aes_128_ctr m ws = (Done tt, ws') /\
    written (session ws') = written (session ws) ++ [wire] /\
    encryption (session ws') = Some es' /\
    decrypt aes_128_ctr er wire = (Buffer_from_binary raw, er') /\
    in_step es' er' /\
    forall wr : World CFLValue,
      encryption (session wr) = Some er ->
      buffer (session wr) = [] ->
      chunks_of (future wr) = [wire] ->
      clock_monotone (now wr) (future wr) ->
      exists wr',
        receive aes_128_ctr (Z.of_nat (length raw)) None wr
          = (Done (Buffer_from_binary raw), wr') /\
        stream aes_128_ctr wr' = [] /\
        reading (session wr') = reading (session wr).
Proof.
  intros Hinv Hlen Hraw Hsock Henc Hstep.
  set (plain := Buffer_from_binary raw).
  destruct (encrypt_decrypt_in_step es er plain Hinv Hlen Hstep) as [Hdec Hstep'].
  exists (set_session
            (socket_write (fst (encrypt aes_128_ctr es plain))
               (set_encryption (Some (snd (encrypt aes_128_ctr es plain))) (session ws))) ws),
    (fst (encrypt aes_128_ctr es plain)),
    (snd (encrypt aes_128_ctr es plain)),
    (snd (decrypt aes_128_ctr er (fst (encrypt aes_128_ctr es plain)))).
  split.
  { unfold send. rewrite Hraw. unfold send_bytes. fold plain. rewrite Henc.
    destruct (encrypt aes_128_ctr es plain) as [out es'].
    cbn [fst snd set_encryption socket]. rewrite Hsock. reflexivity. }
  split; [reflexivity|]. split; [reflexivity|].
  split.
  { rewrite <- Hdec at 2. apply surjective_pairing. }
  split; [exact Hstep'|].
  intros wr Hencr Hbuf Hchunks Hmono.
  assert (Hstream : stream aes_128_ctr wr = plain).
  { unfold stream. rewrite Hbuf, Hencr, Hchunks. cbn [app plaintext].
    rewrite Hdec, app_nil_r. reflexivity. }
  assert (Hpl : length plain = length raw).
  { unfold plain, Buffer_from_binary. apply length_map. }
  destruct (receive_enough wr (Z.of_nat (length raw)) None ltac:(lia) ltac:(cbn; lia) Hmono)
    as (out & wr' & E & Hout & Hrest & _ & Hread & _).
  { rewrite Hstream, Hpl. lia. }
  exists wr'. rewrite E, Hout, Hrest, Hstream, Nat2Z.id, <- Hpl.
  rewrite firstn_all, skipn_all. auto.
Qed.

End Transport.

Lemma receive_negative_size_witness :
  let w : World unit :=
    mkWorld (mkSession true [1; 2; 3; 4; 5] 0 None [] [] []) false 0 [] in
  exists w',
    receive ClientSpec.identity_cipher (-1) None w = (Done [1; 2; 3; 4], w') /\
    buffer (session w') = [5] /\
    reading (session w') = reading (session w) /\
    encryption (session w') = encryption (session w) /\
    emitted (session w') = emitted (session w) /\
    now w' = now w /\ future w' = future w.
Proof.
  intros w.
  apply (receive_negative_size ClientSpec.identity_cipher w (-1) None).
  lia.
Defined.



Lemma sample_ctr_from_involutive k data : forall pos,
  sample_ctr_from k pos (sample_ctr_from k pos data) = data.
Proof.
  induction data as [|x data IH]; intros pos; cbn [sample_ctr_from].
  - reflexivity.
  - rewrite IH, Z.lxor_assoc, Z.lxor_nilpotent, Z.lxor_0_r. reflexivity.
Qed.

Lemma sample_ctr_from_length k data : forall pos,
  length (sample_ctr_from k pos data) = length data.
Proof.
  induction data as [|x data IH]; intros pos; cbn [sample_ctr_from length].
  - reflexivity.
  - rewrite IH. reflexivity.
Qed.

Lemma encrypted_send_is_received_witness :
  let key := repeat 7 16%nat in
  let es := new_Encryption sample_pbkdf2 ClientEncryption key (repeat 1 16%nat)
              (repeat 2 16%nat) in
  let er := new_Encryption sample_pbkdf2 ServerEncryption key (repeat 1 16%nat)
              (repeat 2 16%nat) in
  let ws : World unit := mkWorld (mkSession true [] 0 (Some es) [] [] []) false 0 [] in
  let m := MessageJs.new_Message 196609 4 0 20 0 (repeat 0 32) (Some (str "syAP")) None in
  exists ws' wire es' er',
    send sample_ctr m ws = (Done tt, ws') /\
    written (session ws') = written (session ws) ++ [wire] /\
    encryption (session ws') = Some es' /\
    decrypt sample_ctr er wire = (Buffer_from_binary sample_packet, er') /\
    in_step es' er' /\
    forall wr : World unit,
      encryption (session wr) = Some er ->
      buffer (session wr) = [] ->
      chunks_of (future wr) = [wire] ->
      clock_monotone (now wr) (future wr) ->
      exists wr',
        receive sample_ctr (Z.of_nat (length sample_packet)) None wr
          = (Done (Buffer_from_binary sample_packet), wr') /\
        stream sample_ctr wr' = [] /\
        reading (session wr') = reading (session wr).
Proof.
  intros key es er ws m.
  apply (encrypted_send_is_received sample_ctr ws es er m sample_packet).
  - intros k iv position d. apply sample_ctr_from_involutive.
  - intros k iv position d. apply sample_ctr_from_length.
  - vm_compute. reflexivity.
  - reflexivity.
  - reflexivity.
  - vm_compute. reflexivity.
Defined.

Lemma on_data_monitor_frames_witness :
  let w : World bytes := mkWorld (mkSession true [] 0 None [] [] []) false 0 [] in
  let frames := [(0, 149, [1; 2; 3]); (0, 69, []); (0, 149, [4])] in
  let parse := fun body : bytes => match body with [] => None | _ => Some body end in
  exists w',
    on_data parse ClientSpec.identity_cipher 4 (flat_map monitor_frame frames) w
      = Some (Done tt, w') /\
    buffer (session w') = [] /\
    monitor_events (session w')
      = monitor_events (session w) ++ flat_map (published parse) frames /\
    console (session w')
      = console (session w) ++ flat_map (complaints parse) frames /\
    reading (session w') = 0 /\
    written (session w') = written (session w) /\
    future w' = future w.
Proof.
  intros w frames parse.
  apply (on_data_monitor_frames ClientSpec.identity_cipher parse 4 w frames).
  - reflexivity.
  - reflexivity.
  - reflexivity.
  - repeat constructor; cbn; lia.
  - cbn. lia.
Defined.

End SessionTransport.
(** ** More of the client facade *)

Module ClientExchanges.
Import SessionTs ClientTs PropertiesTs PropertyTs PropertySpec ClientSpec SessionSpec.
Import MessageSpec CodecSpec ExchangeSpec.
Import SessionProofs SessionTransport PropertyProofs ListFacts.

Section Exchanges.

Context {CFLValue : Type}.
Variable aes_128_ctr : bytes -> bytes -> Z -> bytes -> bytes.
Implicit Types (w : World CFLValue).

(** One element read by the loop of [setProperties]. *)
Lemma read_element w (r : PropSetResponse) (tail : bytes) :
  well_formed r ->
  clock_monotone (now w) (future w) ->
  stream aes_128_ctr w = element_bytes r ++ tail ->
  exists w1 w2,
    receivePropertyElementHeader aes_128_ctr None w
      = (Done (r_name r ++ be32 (r_flags r) ++ be32 (r_size r)), w1) /\
    PropertyTs.unpackHeader (r_name r ++ be32 (r_flags r) ++ be32 (r_size r))
      = Ret (PropertyTs.mkHeaderData (r_name r) (r_flags r) (r_size r)) /\
    receive aes_128_ctr (r_size r) None w1 = (Done (r_value r), w2) /\
    stream aes_128_ctr w2 = tail /\
    clock_monotone (now w2) (future w2) /\
    reading (session w2) = reading (session w) /\
    written (session w2) = written (session w).
Proof.
  intros (Hn & Ha & Hf & Hs & Hsz) Hmono Hstream.
  unfold element_bytes in Hstream.
  set (hdr := r_name r ++ be32 (r_flags r) ++ be32 (r_size r)) in *.
  assert (Hl : length hdr = 12%nat).
  { unfold hdr. rewrite !length_app, Hn. reflexivity. }
  replace (r_name r ++ be32 (r_flags r) ++ be32 (r_size r) ++ r_value r)
    with (hdr ++ r_value r) in Hstream
    by (unfold hdr; rewrite <- !app_assoc; reflexivity).
  rewrite <- app_assoc in Hstream.
  unfold receivePropertyElementHeader.
  change (Z.of_nat PropertyTs.HEADER_SIZE) with 12.
  destruct (receive_enough aes_128_ctr w 12 None ltac:(lia) ltac:(cbn; lia) Hmono)
    as (h & w1 & E1 & Hh & Hrest1 & _ & Hread1 & Hchan1 & _ & Hmono1).
  { rewrite Hstream, length_app, Hl. lia. }
  change (Z.to_nat 12) with 12%nat in *.
  rewrite Hstream in Hh, Hrest1.
  rewrite (firstn_app_exact _ _ 12 Hl) in Hh.
  rewrite (skipn_app_exact _ _ 12 Hl) in Hrest1.
  subst h.
  destruct (receive_enough aes_128_ctr w1 (r_size r) None ltac:(unfold in_u32 in Hs; lia)
              ltac:(cbn; lia) Hmono1)
    as (v & w2 & E2 & Hv & Hrest2 & _ & Hread2 & Hchan2 & _ & Hmono2).
  { rewrite Hrest1, length_app, Hsz. lia. }
  rewrite Hrest1, Hsz, Nat2Z.id in Hv, Hrest2.
  rewrite (firstn_app_exact _ _ _ eq_refl) in Hv.
  rewrite (skipn_app_exact _ _ _ eq_refl) in Hrest2.
  subst v.
  exists w1, w2.
  split; [exact E1|].
  split; [apply PropertyCodec.unpackHeader_layout12; assumption|].
  split; [exact E2|].
  split; [exact Hrest2|]. split; [exact Hmono2|].
  split; [congruence|].
  destruct Hchan1 as (_ & Hw1 & _). destruct Hchan2 as (_ & Hw2 & _). congruence.
Qed.

(** What the loop of [setProperties] does on a stream that begins with
    acknowledgements followed by an element that ends the loop. *)
Lemma setProperties_loop_reads (acks : list PropSetResponse) :
  forall (fuel : nat) (response : list PropSetResponse) w (last : PropSetResponse)
         (rest : bytes),
    Forall acknowledgement acks ->
    well_formed last ->
    Z.land (r_flags last) 1 <> 0 \/ r_name last = NUL4 ->
    clock_monotone (now w) (future w) ->
    stream aes_128_ctr w = flat_map element_bytes acks ++ element_bytes last ++ rest ->
    (length acks < fuel)%nat ->
    exists w',
      setProperties_loop aes_128_ctr fuel response w =
        Some ((if negb (Z.land (r_flags last) 1 =? 0)
               then match readUInt32BE (r_value last) 0 with
                    | Ret error_code =>
                        Raised (PropertyRequestError (r_name last) error_code (r_value last))
                    | Throw e => Raised e
                    end
               else Done (response ++ acks)), w') /\
      stream aes_128_ctr w' = rest /\
      reading (session w') = reading (session w) /\
      written (session w') = written (session w).
Proof.
  induction acks as [|a acks IH]; intros fuel response w last rest Hacks Hlast Hend Hmono
    Hstream Hfuel.
  - destruct fuel as [|fuel]; [lia|].
    cbn [flat_map app] in Hstream.
    destruct (read_element w last rest Hlast Hmono Hstream)
      as (w1 & w2 & E1 & E2 & E3 & Hrest & _ & Hread & Hwr).
    exists w2. split; [|auto].
    cbn [setProperties_loop]. rewrite E1, E2. cbn [PropertyTs.h_size]. rewrite E3.
    cbn [PropertyTs.h_flags PropertyTs.h_name].
    destruct (Z.eqb_spec (Z.land (r_flags last) 1) 0) as [Hflag|Hflag]; cbn [negb].
    + destruct Hend as [Hodd | Hname]; [contradiction|].
      rewrite Hname. change (jsstring_eqb NUL4 NUL4) with true.
      rewrite app_nil_r. reflexivity.
    + destruct (readUInt32BE (r_value last) 0); reflexivity.
  - destruct fuel as [|fuel]; [cbn in Hfuel; lia|].
    apply Forall_cons_iff in Hacks. destruct Hacks as [(Hwf & Hflag & Hname) Hacks].
    cbn [flat_map] in Hstream. rewrite <- app_assoc in Hstream.
    destruct (read_element w a _ Hwf Hmono Hstream)
      as (w1 & w2 & E1 & E2 & E3 & Hrest & Hmono2 & Hread & Hwr).
    destruct (IH fuel (response ++ [a]) w2 last rest Hacks Hlast Hend Hmono2 Hrest
                ltac:(cbn in Hfuel; lia)) as (w' & E & Hs & Hr & Hw).
    exists w'. split; [|split; [exact Hs | split; congruence]].
    cbn [setProperties_loop]. rewrite E1, E2. cbn [PropertyTs.h_size]. rewrite E3.
    cbn [PropertyTs.h_flags PropertyTs.h_name].
    rewrite Hflag. cbn [Z.eqb negb].
    replace (jsstring_eqb (r_name a) NUL4) with false.
    2:{ symmetry. destruct (jsstring_eqb (r_name a) NUL4) eqn:En; [|reflexivity].
        apply jsstring_eqb_eq in En. contradiction. }
    destruct a as [an af asz av]. cbn [r_name r_flags r_size r_value] in *.
    rewrite E, <- app_assoc. reflexivity.
Qed.

(** X24: the reading loop of [setProperties] returns the
    acknowledgements in the order they arrived.  With a clock that never
    runs backwards, on a stream that holds acknowledgement elements
    followed by the end marker, the loop reads up to and including the
    end marker, leaves what follows in the stream, writes nothing and
    returns one record per acknowledgement; one turn more than there are
    acknowledgements suffices. *)
Theorem setProperties_loop_returns_acknowledgements w
  (acks : list PropSetResponse) (marker : PropSetResponse) (rest : bytes) (fuel : nat) :
  clock_monotone (now w) (future w) ->
  Forall acknowledgement acks -> end_marker marker ->
  stream aes_128_ctr w = flat_map element_bytes acks ++ element_bytes marker ++ rest ->
  (length acks < fuel)%nat ->
  exists w',
    setProperties_loop aes_128_ctr fuel [] w = Some (Done acks, w') /\
    stream aes_128_ctr w' = rest /\
    reading (session w') = reading (session w) /\
    written (session w') = written (session w).
Proof.
  intros Hmono Hacks (Hwf & Hflag & Hname) Hstream Hfuel.
  destruct (setProperties_loop_reads acks fuel [] w marker rest Hacks Hwf
              (or_intror Hname) Hmono Hstream Hfuel) as (w' & E & Hs & Hr & Hw).
  exists w'. split; [|auto].
  rewrite E, Hflag. reflexivity.
Qed.

(** X26: an element with bit 0 of its flags set makes the reading loop
    of [setProperties] throw, after the acknowledgements before it have
    been read and dropped; the error carries the element's name, the
    first four bytes of its value read as an unsigned big-endian number,
    and the value. *)
Theorem setProperties_loop_element_error w
  (acks : list PropSetResponse) (bad : PropSetResponse) (code : Z) (more rest : bytes)
  (fuel : nat) :
  clock_monotone (now w) (future w) ->
  Forall acknowledgement acks ->
  well_formed bad -> Z.land (r_flags bad) 1 <> 0 ->
  in_u32 code -> r_value bad = be32 code ++ more ->
  stream aes_128_ctr w = flat_map element_bytes acks ++ element_bytes bad ++ rest ->
  (length acks < fuel)%nat ->
  exists w',
    setProperties_loop aes_128_ctr fuel [] w
      = Some (Raised (PropertyRequestError (r_name bad) code (r_value bad)), w') /\
    stream aes_128_ctr w' = rest /\
    reading (session w') = reading (session w).
Proof.
  intros Hmono Hacks Hwf Hflag Hcode Hval Hstream Hfuel.
  destruct (setProperties_loop_reads acks fuel [] w bad rest Hacks Hwf
              (or_introl Hflag) Hmono Hstream Hfuel) as (w' & E & Hs & Hr & Hw).
  exists w'. split; [|split; assumption].
  rewrite E. apply Z.eqb_neq in Hflag. rewrite Hflag. cbn [negb].
  rewrite Hval. unfold readUInt32BE, be32. cbn [skipn app].
  rewrite MessageProofs.u32_of_be32 by (unfold in_u32 in Hcode; lia).
  reflexivity.
Qed.

End Exchanges.


Section Authentication.

Context {CFLValue : Type}.
Variable pbkdf2Sync_sha1 : bytes -> bytes -> Z -> Z -> bytes.
Context {Srp : Type}.
Variable checkM2 : Srp -> bytes -> bool.
Variable computeK : Srp -> bytes.
Variable stages_one_to_four : io CFLValue (Srp * bytes * (bytes * bytes)).

(** X28: [authenticate] succeeds at most once per connection.  For
    keys and IVs of the 16 bytes that [crypto.createCipheriv] accepts
    for aes-128-ctr (the client IV, the server's IV, and the keys
    derived with length 16), when the exchange of stages 1 to 4 returns
    and the server's proof verifies, the call installs the client
    encryption context built from the SRP session key, the client IV and
    the server's IV, and clears the in-flight mark; every later call on
    that session throws 'Encryption is already enabled' and changes
    nothing, without starting another exchange. *)
Theorem authenticate_once (w w1 : World CFLValue) (srpc : Srp) (client_iv : bytes)
  (data : bytes * bytes) :
  (forall key salt iterations,
     length (pbkdf2Sync_sha1 key salt iterations 16) = 16%nat) ->
  length client_iv = 16%nat ->
  length (snd data) = 16%nat ->
  encryption (session w) = None ->
  authenticating w = false ->
  stages_one_to_four (set_authenticating true w) = (Done (srpc, client_iv, data), w1) ->
  checkM2 srpc (fst data) = true ->
  exists w',
    authenticate pbkdf2Sync_sha1 checkM2 computeK stages_one_to_four w = (Done tt, w') /\
    encryption (session w')
      = Some (new_Encryption pbkdf2Sync_sha1 ClientEncryption (computeK srpc) client_iv
                (snd data)) /\
    authenticating w' = false /\
    buffer (session w') = buffer (session w1) /\
    written (session w') = written (session w1) /\
    authenticate pbkdf2Sync_sha1 checkM2 computeK stages_one_to_four w'
      = (Raised EncryptionAlreadyEnabled, w').
Proof.
  intros _ _ _ Henc Hauth Hstages Hm2.
  eexists. split.
  - unfold authenticate. rewrite Henc, Hauth.
    unfold authenticateStageOne, io_bind. rewrite Hstages.
    cbn [fst snd]. unfold authenticateStageFive. rewrite Hm2. cbn [negb].
    reflexivity.
  - cbn. repeat split.
Qed.

End Authentication.

Lemma authenticate_once_witness :
  let stages : io unit (unit * bytes * (bytes * bytes)) :=
    fun w => (Done (tt, repeat 1 16, (repeat 0 20, repeat 2 16)), w) in
  let checkM2 := fun (_ : unit) (m2 : bytes) => jsstring_eqb m2 (repeat 0 20) in
  let pbkdf2 := fun (_ _ : bytes) (_ keylen : Z) => repeat 9 (Z.to_nat keylen) in
  let w := world_with [] in
  exists w',
    authenticate pbkdf2 checkM2 (fun _ => [5]) stages w = (Done tt, w') /\
    encryption (session w')
      = Some (new_Encryption pbkdf2 ClientEncryption [5] (repeat 1 16)
                (snd (repeat 0 20, repeat 2 16))) /\
    authenticating w' = false /\
    buffer (session w') = buffer (session (set_authenticating true w)) /\
    written (session w') = written (session (set_authenticating true w)) /\
    authenticate pbkdf2 checkM2 (fun _ => [5]) stages w'
      = (Raised EncryptionAlreadyEnabled, w').
Proof.
  intros stages checkM2 pbkdf2 w.
  apply (authenticate_once pbkdf2 checkM2 (fun _ => [5]) stages
           w (set_authenticating true w) tt (repeat 1 16) (repeat 0 20, repeat 2 16));
    reflexivity.
Defined.

Ltac sample_well_formed :=
  split; [reflexivity
         | split; [apply (Forall_range_check 0 128); vm_compute; reflexivity
                  | split; [unfold in_u32; cbn; lia
                           | split; [unfold in_u32; cbn; lia | reflexivity]]]].

Lemma setProperties_loop_returns_acknowledgements_witness :
  let w := world_with (element_bytes sample_ack ++ element_bytes sample_marker ++ [9]) in
  exists w',
    setProperties_loop identity_cipher 2 [] w = Some (Done [sample_ack], w') /\
    stream identity_cipher w' = [9] /\
    reading (session w') = reading (session w) /\
    written (session w') = written (session w).
Proof.
  intros w.
  apply (setProperties_loop_returns_acknowledgements identity_cipher w
           [sample_ack] sample_marker [9] 2).
  - vm_compute. exact I.
  - constructor; [|constructor].
    split; [sample_well_formed | split; [reflexivity | discriminate]].
  - split; [sample_well_formed | split; reflexivity].
  - vm_compute. reflexivity.
  - cbn. lia.
Defined.

Lemma setProperties_loop_element_error_witness :
  let w := world_with (element_bytes sample_ack ++ element_bytes sample_refusal ++ [9]) in
  exists w',
    setProperties_loop identity_cipher 2 [] w
      = Some (Raised (PropertyRequestError (str "syNm") 4294967286 [255; 255; 255; 246]),
              w') /\
    stream identity_cipher w' = [9] /\
    reading (session w') = reading (session w).
Proof.
  intros w.
  apply (setProperties_loop_element_error identity_cipher w [sample_ack] sample_refusal
           4294967286 [] [9] 2).
  - vm_compute. exact I.
  - constructor; [|constructor].
    split; [sample_well_formed | split; [reflexivity | discriminate]].
  - sample_well_formed.
  - vm_compute. discriminate.
  - unfold in_u32. lia.
  - vm_compute. reflexivity.
  - vm_compute. reflexivity.
  - cbn. lia.
Defined.

End ClientExchanges.
